(** * Local cache: [restoreCache] and [saveCache] *)

(** A shallow embedding of [src/cache/local/index.ts].

    The two public operations are asynchronous TypeScript functions that
    call into [@actions/core] (logging), Node's [fs] and [path], and the
    repository's helpers [./internal/cacheUtils] and [./internal/tar].
    The helpers and the platform are collaborators of the code under
    study: they are gathered in a record of handlers ([Env]) acting on
    an abstract world [W].  The code itself is written in a small monad
    combining the world (state), the thrown JavaScript error
    (exception) and the sequence of collaborator calls it makes
    (events). An awaited promise that rejects is a throw.

    Conventions of the model:
    - a JavaScript string is a [string], one character per UTF-16 code
      unit (code units below 256);
    - a thrown value is an [Error] object, of which the code reads
      [name] and [message] (the code casts what it catches:
      [error as Error]);
    - a modification time is the integer [mtime.getTime()], a file size
      a non-negative integer;
    - [undefined] as an optional argument or as a result is [None]. *)

From Stdlib Require Import String Ascii List Bool Arith ZArith NArith Lia.
From Stdlib Require Import DecimalString Sorted Permutation.
Import ListNotations.

Local Open Scope string_scope.
Local Open Scope list_scope.

(** ** Errors *)

(** A JavaScript [Error] object, as far as the code looks at it. *)
Record JsError : Type := mkError { name : string; message : string }.

(** [class ValidationError extends Error]: the constructor sets
    [this.name = "ValidationError"]. *)
Definition ValidationError (msg : string) : JsError :=
  mkError "ValidationError" msg.

(** [class ReserveCacheError extends Error]. *)
Definition ReserveCacheError (msg : string) : JsError :=
  mkError "ReserveCacheError" msg.

(** [new Error(msg)]. *)
Definition Error (msg : string) : JsError := mkError "Error" msg.

(** [ValidationError.name] and [ReserveCacheError.name]: the [name] of a
    class is the identifier it was declared with. *)
Definition ValidationError_name : string := "ValidationError".
Definition ReserveCacheError_name : string := "ReserveCacheError".

(** [`${error}`] on an [Error]: [Error.prototype.toString]. *)
Definition error_toString (e : JsError) : string :=
  if (name e =? "")%string then message e
  else if (message e =? "")%string then name e
  else name e ++ ": " ++ message e.

(** The completion of a call: a value, or a thrown error. *)
Inductive Res (A : Type) : Type :=
| Ret (a : A)
| Throw (e : JsError).
Arguments Ret {A} a.
Arguments Throw {A} e.

(** ** Values of the platform *)

(** [fs.Stats], as far as the code looks at it: [isFile()] and
    [mtime.getTime()] (milliseconds since the epoch). *)
Record Stats : Type := mkStats { isFile : bool; mtime : Z }.

(** The object [{ filePath, stats }] built while scanning. *)
Record CacheFileInfo : Type :=
  mkInfo { filePath : string; stats : Stats }.

(** [`${n}`] for a non-negative integer below 1e21. *)
Definition show_N (n : N) : string :=
  NilZero.string_of_uint (N.to_uint n).

(** [Math.round(n / (1024 * 1024))] for a non-negative integer [n]:
    the quotient is exact in floating point and [Math.round] rounds
    halves up. *)
Definition round_MB (n : N) : N := ((2 * n + 1048576) / 2097152)%N.

(** ** Collaborator calls *)

Section Monad.

Context {W CM : Type}.

(** One constructor per collaborator the code calls. [CM] is the
    helpers' [CompressionMethod] type, [W] the state of the world. *)
Inductive Event : Type :=
| EDebug (msg : string)
| EInfo (msg : string)
| EWarning (msg : string)
| EGetCompressionMethod
| EGetRepoCacheStorePath (cacheBasePath : option string)
| EGetCacheFileName (method : CM)
| EGetArchiveFileSizeInBytes (archivePath : string)
| EResolvePaths (paths : list string)
| ECreateTempDirectory
| EStoreCacheFile (archivePath cacheStorePath : string)
| EUnlinkFile (archivePath : string)
| ECreateTar (archiveFolder : string) (sourceDirectories : list string)
    (method : CM)
| EExtractTar (archivePath : string) (method : CM)
| EListTar (archivePath : string) (method : CM)
| EReaddirSync (dir : string)
| EExistsSync (file : string)
| EStatSync (file : string).

(** The result of running a computation from a world. *)
Record Run (A : Type) : Type :=
  mkRun { outcome : Res A; world : W; events : list Event }.
Arguments mkRun {A} outcome world events.

Definition M (A : Type) : Type := W -> Run A.

Definition ret {A} (a : A) : M A := fun w => mkRun (Ret a) w [].

Definition throw {A} (e : JsError) : M A := fun w => mkRun (Throw e) w [].

Definition bind {A B} (m : M A) (k : A -> M B) : M B :=
  fun w =>
    match m w with
    | mkRun (Ret a) w1 ev1 =>
        match k a w1 with
        | mkRun r w2 ev2 => mkRun r w2 (ev1 ++ ev2)
        end
    | mkRun (Throw e) w1 ev1 => mkRun (Throw e) w1 ev1
    end.

(** A call that may change the world. *)
Definition call {A} (ev : Event) (h : W -> Res A * W) : M A :=
  fun w => let (r, w1) := h w in mkRun r w1 [ev].

(** A call that only reads the world. *)
Definition read {A} (ev : Event) (h : W -> Res A) : M A :=
  fun w => mkRun (h w) w [ev].

(** A read that is not recorded (no access outside the process). *)
Definition ask {A} (h : W -> A) : M A := fun w => mkRun (Ret (h w)) w [].

(** [try { body } catch (error) { handler error }]. *)
Definition try_catch {A} (body : M A) (handler : JsError -> M A) : M A :=
  fun w =>
    match body w with
    | mkRun (Ret a) w1 ev1 => mkRun (Ret a) w1 ev1
    | mkRun (Throw e) w1 ev1 =>
        match handler e w1 with
        | mkRun r w2 ev2 => mkRun r w2 (ev1 ++ ev2)
        end
    end.

(** [try { body } finally { fin }]: the completion of [body] stands
    unless [fin] throws. *)
Definition try_finally {A} (body : M A) (fin : M unit) : M A :=
  fun w =>
    match body w with
    | mkRun r w1 ev1 =>
        match fin w1 with
        | mkRun (Ret _) w2 ev2 => mkRun r w2 (ev1 ++ ev2)
        | mkRun (Throw e) w2 ev2 => mkRun (Throw e) w2 (ev1 ++ ev2)
        end
    end.

End Monad.

Arguments Event : clear implicits.
Arguments Run : clear implicits.
Arguments M : clear implicits.
Arguments mkRun {W CM A} outcome world events.
Arguments outcome {W CM A} r.
Arguments world {W CM A} r.
Arguments events {W CM A} r.

Declare Scope js_scope.
Delimit Scope js_scope with js.
Notation "x <- m ;; k" := (bind m (fun x => k))
  (at level 61, m at next level, right associativity) : js_scope.
Notation "m ;; k" := (bind m (fun _ => k))
  (at level 61, right associativity) : js_scope.
Local Open Scope js_scope.

(** ** The environment *)

(** Everything [index.ts] imports. The helpers of
    [./internal/cacheUtils] and [./internal/tar] are not part of the file
    under study; each is a handler that returns or throws and may change
    the world. [path.join] and [JSON.stringify] are pure. *)
Record Env (W CM : Type) : Type := mkEnv {
  (* path, JSON *)
  path_join : list string -> string;
  JSON_stringify : list string -> string;
  (* @actions/core *)
  isDebug : W -> bool;
  (* fs *)
  readdirSync : string -> W -> Res (list string);
  existsSync : string -> W -> bool;
  statSync : string -> W -> Res Stats;
  (* ./internal/cacheUtils *)
  getCompressionMethod : W -> Res CM * W;
  getRepoCacheStorePath : option string -> W -> Res string * W;
  getCacheFileName : CM -> W -> Res string * W;
  getArchiveFileSizeInBytes : string -> W -> Res N * W;
  resolvePaths : list string -> W -> Res (list string) * W;
  createTempDirectory : W -> Res string * W;
  storeCacheFile : string -> string -> W -> Res unit * W;
  unlinkFile : string -> W -> Res unit * W;
  (* ./internal/tar *)
  createTar : string -> list string -> CM -> W -> Res unit * W;
  extractTar : string -> CM -> W -> Res unit * W;
  listTar : string -> CM -> W -> Res unit * W
}.

Arguments path_join {W CM} e _.
Arguments JSON_stringify {W CM} e _.
Arguments isDebug {W CM} e _.
Arguments readdirSync {W CM} e _ _.
Arguments existsSync {W CM} e _ _.
Arguments statSync {W CM} e _ _.
Arguments getCompressionMethod {W CM} e _.
Arguments getRepoCacheStorePath {W CM} e _ _.
Arguments getCacheFileName {W CM} e _ _.
Arguments getArchiveFileSizeInBytes {W CM} e _ _.
Arguments resolvePaths {W CM} e _ _.
Arguments createTempDirectory {W CM} e _.
Arguments storeCacheFile {W CM} e _ _ _.
Arguments unlinkFile {W CM} e _ _.
Arguments createTar {W CM} e _ _ _ _.
Arguments extractTar {W CM} e _ _ _.
Arguments listTar {W CM} e _ _ _.

(** ** Validation *)

Section Validation.

Context {W CM : Type}.

(** The message of the error thrown by [checkPaths]. *)
Definition no_path_supplied : string :=
  "Path Validation Error: At least one directory or file path is required".

(** [function checkPaths(paths)]. The argument is [None] when the
    caller passes nothing ([!paths]). *)
Definition checkPaths (paths : option (list string)) : M W CM unit :=
  match paths with
  | None | Some [] =>
      throw (ValidationError no_path_supplied)
  | Some (_ :: _) => ret tt
  end.

(** [/^[^,]*$/.test(key)]: every code unit of [key] differs from the
    comma (a negated class also matches line terminators). *)
Fixpoint regex_test (key : string) : bool :=
  match key with
  | EmptyString => true
  | String c rest => negb (Ascii.eqb c ",") && regex_test rest
  end.

(** [function checkKey(key)]. *)
Definition checkKey (key : string) : M W CM unit :=
  if (512 <? String.length key)%nat then
    throw (ValidationError
      ("Key Validation Error: " ++ key ++
       " cannot be larger than 512 characters."))
  else if negb (regex_test key) then
    throw (ValidationError
      ("Key Validation Error: " ++ key ++ " cannot contain commas."))
  else ret tt.

(** [for (const key of keys) { checkKey(key); }]. *)
Fixpoint checkKeys (keys : list string) : M W CM unit :=
  match keys with
  | [] => ret tt
  | key :: rest => checkKey key ;; checkKeys rest
  end.

End Validation.

(** ** Logging and scanning *)

Section Operations.

Context {W CM : Type}.
Variable env : Env W CM.

(** [core.debug], [core.info], [core.warning]. *)
Definition debug (msg : string) : M W CM unit :=
  fun w => mkRun (Ret tt) w [EDebug msg].
Definition info (msg : string) : M W CM unit :=
  fun w => mkRun (Ret tt) w [EInfo msg].
Definition warning (msg : string) : M W CM unit :=
  fun w => mkRun (Ret tt) w [EWarning msg].

(** [Array.prototype.map] with a callback that may throw: elements are
    visited in index order and the first throw ends the traversal. *)
Fixpoint mapM {A B} (f : A -> M W CM B) (l : list A) : M W CM (list B) :=
  match l with
  | [] => ret []
  | a :: rest =>
      b <- f a ;;
      bs <- mapM f rest ;;
      ret (b :: bs)
  end.

(** [Array.prototype.filter], likewise. *)
Fixpoint filterM {A} (f : A -> M W CM bool) (l : list A)
  : M W CM (list A) :=
  match l with
  | [] => ret []
  | a :: rest =>
      keep <- f a ;;
      kept <- filterM f rest ;;
      ret (if keep then a :: kept else kept)
  end.

(** [Array.prototype.sort((a, b) => b.stats.mtime.getTime() -
    a.stats.mtime.getTime())]: the sort is stable and the comparator is
    a consistent order, so the result is the stable arrangement by
    descending modification time. [insert_desc] puts [a] in front of the
    first element that is not strictly newer than [a]. *)
Fixpoint insert_desc (a : CacheFileInfo) (l : list CacheFileInfo)
  : list CacheFileInfo :=
  match l with
  | [] => [a]
  | b :: rest =>
      if (mtime (stats b) <=? mtime (stats a))%Z then a :: b :: rest
      else b :: insert_desc a rest
  end.

Fixpoint sort_desc (l : list CacheFileInfo) : list CacheFileInfo :=
  match l with
  | [] => []
  | a :: rest => insert_desc a (sort_desc rest)
  end.

(** [filePath => { const stats = fs.statSync(filePath); return {
    filePath, stats }; }], lines 90-93. *)
Definition statInfo (filePath : string) : M W CM CacheFileInfo :=
  stats <- read (EStatSync filePath) (statSync env filePath) ;;
  ret (mkInfo filePath stats).

(** [it => fs.existsSync(it)], line 89. *)
Definition exists_ (it : string) : M W CM bool :=
  read (EExistsSync it) (fun w => Ret (existsSync env it w)).

(** The chain of lines 86-97 for one [key]: the array
    [matchedCaches]. *)
Definition matchedCaches (repoCachePath cacheFileName : string)
    (dirEntries : list string) (key : string)
  : M W CM (list CacheFileInfo) :=
  let step1 := filter (fun it => String.prefix key it) dirEntries in
  let step2 :=
    map (fun dir => path_join env [repoCachePath; dir; cacheFileName])
        step1 in
  step3 <- filterM exists_ step2 ;;
  step4 <- mapM statInfo step3 ;;
  let step5 := filter (fun it => isFile (stats it)) step4 in
  ret (sort_desc step5).

(** The loop of lines 85-104. The result is the pair
    [(matchedKey, archivePath)] the loop leaves behind; both start as
    the empty string. *)
Fixpoint scanKeys (repoCachePath cacheFileName : string)
    (dirEntries : list string) (keys : list string)
  : M W CM (string * string) :=
  match keys with
  | [] => ret ("", "")
  | key :: rest =>
      matched <- matchedCaches repoCachePath cacheFileName dirEntries key ;;
      match hd_error matched with          (* matchedCaches.at(0) *)
      | Some cacheFileInfo => ret (key, filePath cacheFileInfo)   (* break *)
      | None => scanKeys repoCachePath cacheFileName dirEntries rest
      end
  end.

(** ** restoreCache *)

(** Lines 110-126: what the [try] block does with the entry the loop
    has selected. *)
Definition restoreCache_extract (matchedKey archivePath : string)
    (compressionMethod : CM) : M W CM (option string) :=
  debug ("Archive Path: " ++ archivePath) ;;
  dbg <- ask (isDebug env) ;;
  (if dbg
   then call (EListTar archivePath compressionMethod)
             (listTar env archivePath compressionMethod)
   else ret tt) ;;
  archiveFileSize <- call (EGetArchiveFileSizeInBytes archivePath)
                          (getArchiveFileSizeInBytes env archivePath) ;;
  info ("Cache Size: ~" ++ show_N (round_MB archiveFileSize) ++ " MB ("
        ++ show_N archiveFileSize ++ " B)") ;;
  call (EExtractTar archivePath compressionMethod)
       (extractTar env archivePath compressionMethod) ;;
  info "Cache restored successfully" ;;
  ret (Some matchedKey).

(** The body of the [try] block, lines 82-126. *)
Definition restoreCache_try (keys : list string) (compressionMethod : CM)
    (repoCachePath cacheFileName : string) : M W CM (option string) :=
  dirEntries <- read (EReaddirSync repoCachePath)
                     (readdirSync env repoCachePath) ;;
  found <- scanKeys repoCachePath cacheFileName dirEntries keys ;;
  let (matchedKey, archivePath) := found in
  if (matchedKey =? "")%string then
    (* Cache not found *)
    ret None
  else restoreCache_extract matchedKey archivePath compressionMethod.

(** The [catch] clause, lines 127-134. When it does not rethrow,
    control leaves the [try] statement and reaches [return undefined]
    on line 144. *)
Definition restoreCache_catch (error : JsError) : M W CM (option string) :=
  if (name error =? ValidationError_name)%string then throw error
  else
    warning ("Failed to restore: " ++ message error) ;;
    ret None.

(** The [try] statement, lines 81-144; its [finally] block is empty
    (the deletion of the archive is commented out). *)
Definition restoreCache_guarded (keys : list string) (compressionMethod : CM)
    (repoCachePath cacheFileName : string) : M W CM (option string) :=
  try_finally
    (try_catch
       (restoreCache_try keys compressionMethod repoCachePath cacheFileName)
       restoreCache_catch)
    (ret tt).

(** Lines 63-64: [restoreKeys = restoreKeys || []] and
    [keys = [primaryKey, ...restoreKeys]]. *)
Definition resolvedKeys (primaryKey : string)
    (restoreKeys : option (list string)) : list string :=
  primaryKey :: match restoreKeys with Some l => l | None => [] end.

(** Lines 78-80, the three helper calls between validation and the
    [try] statement. *)
Definition restoreCache_setup (cacheBasePath : option string)
  : M W CM (CM * string * string) :=
  compressionMethod <- call EGetCompressionMethod
                            (getCompressionMethod env) ;;
  repoCachePath <- call (EGetRepoCacheStorePath cacheBasePath)
                        (getRepoCacheStorePath env cacheBasePath) ;;
  cacheFileName <- call (EGetCacheFileName compressionMethod)
                        (getCacheFileName env compressionMethod) ;;
  ret (compressionMethod, repoCachePath, cacheFileName).

(** [restoreCache(paths, primaryKey, restoreKeys?, cacheBasePath?)];
    [None] as a result is [undefined]. *)
Definition restoreCache (paths : option (list string)) (primaryKey : string)
    (restoreKeys : option (list string)) (cacheBasePath : option string)
  : M W CM (option string) :=
  checkPaths paths ;;
  let keys := resolvedKeys primaryKey restoreKeys in
  debug "Resolved Keys:" ;;
  debug (JSON_stringify env keys) ;;
  (if (10 <? List.length keys)%nat then
     throw (ValidationError
       "Key Validation Error: Keys are limited to a maximum of 10.")
   else ret tt) ;;
  checkKeys keys ;;
  setup <- restoreCache_setup cacheBasePath ;;
  let '(compressionMethod, repoCachePath, cacheFileName) := setup in
  restoreCache_guarded keys compressionMethod repoCachePath cacheFileName.

(** ** saveCache *)

(** [`${cacheBasePath}`] for an optional string. *)
Definition show_optional (s : option string) : string :=
  match s with Some v => v | None => "undefined" end.

(** The body of the [try] block, lines 184-200. *)
Definition saveCache_try (key : string) (cacheBasePath : option string)
    (compressionMethod : CM) (cachePaths : list string)
    (archiveFolder archivePath : string) : M W CM Z :=
  call (ECreateTar archiveFolder cachePaths compressionMethod)
       (createTar env archiveFolder cachePaths compressionMethod) ;;
  dbg <- ask (isDebug env) ;;
  (if dbg
   then call (EListTar archivePath compressionMethod)
             (listTar env archivePath compressionMethod)
   else ret tt) ;;
  archiveFileSize <- call (EGetArchiveFileSizeInBytes archivePath)
                          (getArchiveFileSizeInBytes env archivePath) ;;
  debug ("File Size: " ++ show_N archiveFileSize) ;;
  debug ("Saving Cache (Key: " ++ key ++ ")") ;;
  storeRoot <- call (EGetRepoCacheStorePath cacheBasePath)
                    (getRepoCacheStorePath env cacheBasePath) ;;
  let cacheStorePath := path_join env [storeRoot; key] in
  debug ("Cache Store Path: " ++ show_optional cacheBasePath) ;;
  call (EStoreCacheFile archivePath cacheStorePath)
       (storeCacheFile env archivePath cacheStorePath) ;;
  ret 1%Z.

(** The [catch] clause, lines 201-210. *)
Definition saveCache_catch (error : JsError) : M W CM Z :=
  if (name error =? ValidationError_name)%string then throw error
  else
    (if (name error =? ReserveCacheError_name)%string
     then info ("Failed to save: " ++ message error)
     else warning ("Failed to save: " ++ message error)) ;;
    ret (-1)%Z.

(** The [finally] block, lines 211-218. *)
Definition saveCache_finally (archivePath : string) : M W CM unit :=
  try_catch
    (call (EUnlinkFile archivePath) (unlinkFile env archivePath))
    (fun error => debug ("Failed to delete archive: " ++ error_toString error)).

(** The [try] block with its [catch] clause, lines 183-210. *)
Definition saveCache_body (key : string) (cacheBasePath : option string)
    (compressionMethod : CM) (cachePaths : list string)
    (archiveFolder archivePath : string) : M W CM Z :=
  try_catch
    (saveCache_try key cacheBasePath compressionMethod cachePaths
       archiveFolder archivePath)
    saveCache_catch.

(** The [try] statement, lines 183-218. *)
Definition saveCache_guarded (key : string) (cacheBasePath : option string)
    (compressionMethod : CM) (cachePaths : list string)
    (archiveFolder archivePath : string) : M W CM Z :=
  try_finally
    (saveCache_body key cacheBasePath compressionMethod cachePaths
       archiveFolder archivePath)
    (saveCache_finally archivePath).

(** The message of the error thrown on line 170. *)
Definition no_paths_message : string :=
  "Path Validation Error: Path(s) specified in the action for caching do(es) not exist, hence no cache is being saved.".

(** Lines 163-181, between validation and the [try] statement. The
    result gathers the constants the [try] statement uses:
    [compressionMethod], [cachePaths], [archiveFolder] and
    [archivePath]. *)
Definition saveCache_setup (paths : list string)
  : M W CM (CM * list string * string * string) :=
  compressionMethod <- call EGetCompressionMethod
                            (getCompressionMethod env) ;;
  cachePaths <- call (EResolvePaths paths) (resolvePaths env paths) ;;
  debug "Cache Paths:" ;;
  debug (JSON_stringify env cachePaths) ;;
  (if (List.length cachePaths =? 0)%nat then throw (Error no_paths_message)
   else ret tt) ;;
  archiveFolder <- call ECreateTempDirectory (createTempDirectory env) ;;
  cacheFileName <- call (EGetCacheFileName compressionMethod)
                        (getCacheFileName env compressionMethod) ;;
  let archivePath := path_join env [archiveFolder; cacheFileName] in
  debug ("Archive Path: " ++ archivePath) ;;
  ret (compressionMethod, cachePaths, archiveFolder, archivePath).

(** The array [checkPaths] has let through. *)
Definition suppliedPaths (paths : option (list string)) : list string :=
  match paths with Some l => l | None => [] end.

(** [saveCache(paths, key, cacheBasePath?)]. *)
Definition saveCache (paths : option (list string)) (key : string)
    (cacheBasePath : option string) : M W CM Z :=
  checkPaths paths ;;
  checkKey key ;;
  setup <- saveCache_setup (suppliedPaths paths) ;;
  let '(compressionMethod, cachePaths, archiveFolder, archivePath) := setup in
  saveCache_guarded key cacheBasePath compressionMethod cachePaths
    archiveFolder archivePath.

End Operations.

(** ** Reading the record of a run *)

(** The events that are messages to the logging collaborator. *)
Definition is_log {CM : Type} (ev : Event CM) : bool :=
  match ev with
  | EDebug _ | EInfo _ | EWarning _ => true
  | _ => false
  end.

(** The events that are warnings. *)
Definition is_warning {CM : Type} (ev : Event CM) : bool :=
  match ev with
  | EWarning _ => true
  | _ => false
  end.

(** The events that start the creation of an archive. *)
Definition is_createTar {CM : Type} (ev : Event CM) : bool :=
  match ev with
  | ECreateTar _ _ _ => true
  | _ => false
  end.

(** The events that delete a file. *)
Definition is_unlink {CM : Type} (ev : Event CM) : bool :=
  match ev with
  | EUnlinkFile _ => true
  | _ => false
  end.

(** The environment [env] with another [unlinkFile]. *)
Definition with_unlinkFile {W CM : Type} (env : Env W CM)
    (u : string -> W -> Res unit * W) : Env W CM :=
  mkEnv W CM (path_join env) (JSON_stringify env) (isDebug env)
    (readdirSync env) (existsSync env) (statSync env)
    (getCompressionMethod env) (getRepoCacheStorePath env)
    (getCacheFileName env) (getArchiveFileSizeInBytes env)
    (resolvePaths env) (createTempDirectory env) (storeCacheFile env)
    u (createTar env) (extractTar env) (listTar env).

(** A key the validation rejects: longer than 512 code units, or with
    a comma among them. *)
Definition has_comma (key : string) : Prop :=
  In ","%char (list_ascii_of_string key).


(** Every event of every run of [m] satisfies [P]. *)
Definition emits {W CM A : Type} (P : Event CM -> Prop) (m : M W CM A)
  : Prop :=
  forall w, Forall P (events (m w)).

(** [m] leaves the world as it found it. *)
Definition readonly {W CM A : Type} (m : M W CM A) : Prop :=
  forall w, world (m w) = w.

(** What [checkKey] accepts. *)
Definition valid_key (key : string) : bool :=
  (String.length key <=? 512)%nat && regex_test key.


(** The run [r] after the events [evs]. *)
Definition prepend {W CM A : Type} (evs : list (Event CM)) (r : Run W CM A)
  : Run W CM A :=
  mkRun (outcome r) (world r) (evs ++ events r).

(** The events that extract an archive. *)
Definition is_extract {CM : Type} (ev : Event CM) : bool :=
  match ev with
  | EExtractTar _ _ => true
  | _ => false
  end.

(** The events that list an archive. *)
Definition is_listTar {CM : Type} (ev : Event CM) : bool :=
  match ev with
  | EListTar _ _ => true
  | _ => false
  end.

(** The events that commit an archive into the store. *)
Definition is_store {CM : Type} (ev : Event CM) : bool :=
  match ev with
  | EStoreCacheFile _ _ => true
  | _ => false
  end.

(** The events that look at an archive once an entry is selected:
    listing, size query, extraction. *)
Definition uses_archive {CM : Type} (ev : Event CM) : bool :=
  match ev with
  | EListTar _ _ | EGetArchiveFileSizeInBytes _ | EExtractTar _ _ => true
  | _ => false
  end.

(** The collaborators of the save path only: path resolution, temporary
    directory, archive creation, commit, deletion. *)
Definition save_only {CM : Type} (ev : Event CM) : bool :=
  match ev with
  | EResolvePaths _ | ECreateTempDirectory | ECreateTar _ _ _
  | EStoreCacheFile _ _ | EUnlinkFile _ => true
  | _ => false
  end.

(** The collaborators of the restore path only: directory listing,
    existence and stat probes, extraction. *)
Definition restore_only {CM : Type} (ev : Event CM) : bool :=
  match ev with
  | EReaddirSync _ | EExistsSync _ | EStatSync _ | EExtractTar _ _ => true
  | _ => false
  end.

(** The message of the error of line 70. *)
Definition key_limit_message : string :=
  "Key Validation Error: Keys are limited to a maximum of 10.".

(** The message of the error [checkKey] throws for a key it rejects:
    the length is looked at first. *)
Definition key_message (key : string) : string :=
  if (512 <? String.length key)%nat
  then "Key Validation Error: " ++ key ++
       " cannot be larger than 512 characters."
  else "Key Validation Error: " ++ key ++ " cannot contain commas.".

(** One mebibyte, the unit of the size reported on a restore. *)
Definition MiB : N := 1048576%N.

(** The events that can precede the use of a selected archive in a
    run without a caught failure: neither a warning nor a call on an
    archive. *)
Definition quiet {CM : Type} (ev : Event CM) : bool :=
  negb (is_warning ev) && negb (uses_archive ev).

(** The events that report to the user: informations and warnings. *)
Definition is_report {CM : Type} (ev : Event CM) : bool :=
  match ev with
  | EInfo _ | EWarning _ => true
  | _ => false
  end.

(** ** Reading the steps of a save *)

(** Lines 215-217: what follows the call of [unlinkFile] on [ap] in
    the world [w]: nothing when it returns, the debug message when it
    throws. *)
Definition unlink_report {W CM : Type} (env : Env W CM) (ap : string) (w : W)
  : list (Event CM) :=
  match unlinkFile env ap w with
  | (Ret _, _) => []
  | (Throw e, _) =>
      [EDebug ("Failed to delete archive: " ++ error_toString e)]
  end.

(** Lines 185-187: the listing of the archive made in debug mode takes
    the world [w] to [w'] (outside debug mode nothing happens). *)
Definition debug_listing {W CM : Type} (env : Env W CM) (ap : string)
    (cm : CM) (w w' : W) : Prop :=
  if isDebug env w then listTar env ap cm w = (Ret tt, w') else w' = w.

(** Lines 163-181 return: from the world [w], the compression method
    [cm], the non-empty resolved paths [cps], the temporary folder
    [folder] and the archive file name [file] are what the four helper
    calls returned, one after the other, ending in the world [w1]. *)
Definition setup_returns {W CM : Type} (env : Env W CM) (paths : list string)
    (w : W) (cm : CM) (cps : list string) (folder file : string) (w1 : W)
  : Prop :=
  exists wa wb wc,
    getCompressionMethod env w = (Ret cm, wa) /\
    resolvePaths env paths wa = (Ret cps, wb) /\
    cps <> [] /\
    createTempDirectory env wb = (Ret folder, wc) /\
    getCacheFileName env cm wc = (Ret file, w1).

(** Lines 184-197 return: from the world [w1], the archive is created,
    listed in debug mode, measured, and the store root [root] is
    resolved for [cacheBasePath], one after the other, ending in the
    world [w5] in which the commit is called. *)
Definition reaches_commit {W CM : Type} (env : Env W CM)
    (cacheBasePath : option string) (cm : CM) (cps : list string)
    (folder ap : string) (w1 : W) (root : string) (w5 : W) : Prop :=
  exists w2 w3 n w4,
    createTar env folder cps cm w1 = (Ret tt, w2) /\
    debug_listing env ap cm w2 w3 /\
    getArchiveFileSizeInBytes env ap w3 = (Ret n, w4) /\
    getRepoCacheStorePath env cacheBasePath w4 = (Ret root, w5).
(** ** A sample environment *)

(** An in-memory store on which the operations can be run. The helpers
    of [./internal/cacheUtils] and [./internal/tar] follow the
    specification's description of them; faults can be injected. *)
Module Sample.

Local Open Scope string_scope.

Inductive Method : Type := Gzip | Zstd.

Inductive Fault : Type :=
| ProbeFails        (* compression-method resolution *)
| StoreRootFails    (* store-root resolution *)
| TempDirFails      (* temp-directory creation *)
| CreateTarFails
| ExtractTarFails
| UnlinkFails.

Definition Fault_eqb (a b : Fault) : bool :=
  match a, b with
  | ProbeFails, ProbeFails | StoreRootFails, StoreRootFails
  | TempDirFails, TempDirFails | CreateTarFails, CreateTarFails
  | ExtractTarFails, ExtractTarFails | UnlinkFails, UnlinkFails => true
  | _, _ => false
  end.

Record Disk : Type := mkDisk {
  entries : list string;            (* directory names under the store root *)
  files : list (string * Stats);    (* the files, by path *)
  workspace : list string;          (* paths that exist in the workspace *)
  faults : list Fault;
  debugging : bool;
  clock : Z
}.

Definition faulty (f : Fault) (d : Disk) : bool :=
  existsb (Fault_eqb f) (faults d).

Definition lookup (p : string) (d : Disk) : option Stats :=
  option_map snd (find (fun e => (fst e =? p)%string) (files d)).

Definition fail_when {A} (f : Fault) (msg : string) (ok : Disk -> Res A * Disk)
  : Disk -> Res A * Disk :=
  fun d => if faulty f d then (Throw (Error msg), d) else ok d.

Definition storeRoot : string := "/cache".

Definition fileName (m : Method) : string :=
  match m with Gzip => "cache.tgz" | Zstd => "cache.tzst" end.

Definition quote : string := String "034"%char EmptyString.

Definition stringify (l : list string) : string :=
  ("[" ++ String.concat "," (map (fun s => quote ++ s ++ quote) l) ++ "]")%string.

(** Modelled from the spec: [utils.storeCacheFile], the commit of step
    7 of the Saver. If the destination already holds content for this
    exact key this is a reservation conflict (ReserveCacheError);
    otherwise the archive becomes the entry's archive file. *)
Definition sample_storeCacheFile (archivePath cacheStorePath : string)
    (d : Disk) : Res unit * Disk :=
  let key := substring 7 (String.length cacheStorePath - 7) cacheStorePath in
  if existsb (fun e => (e =? key)%string) (entries d) then
    (Throw (ReserveCacheError
       ("Unable to reserve cache with key " ++ key ++
        ", another job may be creating this cache.")), d)
  else
    (Ret tt,
     mkDisk (entries d ++ [key])%list
            ((cacheStorePath ++ "/" ++ fileName Gzip,
              mkStats true (clock d)) :: files d)
            (workspace d) (faults d) (debugging d) (clock d + 1)).

Definition sample : Env Disk Method := {|
  path_join := String.concat "/";
  JSON_stringify := stringify;
  isDebug := debugging;
  readdirSync := fun dir d =>
    if (dir =? storeRoot)%string then Ret (entries d)
    else Throw (Error ("ENOENT: no such file or directory, scandir " ++ dir));
  existsSync := fun p d =>
    match lookup p d with Some _ => true | None => false end;
  statSync := fun p d =>
    match lookup p d with
    | Some s => Ret s
    | None => Throw (Error ("ENOENT: no such file or directory, stat " ++ p))
    end;
  getCompressionMethod :=
    fail_when ProbeFails "spawn tar ENOENT" (fun d => (Ret Gzip, d));
  getRepoCacheStorePath := fun base =>
    fail_when StoreRootFails "EACCES: permission denied, mkdir"
      (fun d => (Ret (match base with Some b => b | None => storeRoot end), d));
  getCacheFileName := fun m d => (Ret (fileName m), d);
  getArchiveFileSizeInBytes := fun p d =>
    match lookup p d with
    | Some _ => (Ret 3145728%N, d)
    | None => (Throw (Error ("ENOENT: no such file or directory, stat " ++ p)), d)
    end;
  resolvePaths := fun ps d =>
    (Ret (filter (fun p => existsb (String.eqb p) (workspace d)) ps), d);
  createTempDirectory :=
    fail_when TempDirFails "ENOSPC: no space left on device, mkdir"
      (fun d => (Ret "/tmp/a", d));
  storeCacheFile := sample_storeCacheFile;
  unlinkFile := fun p =>
    fail_when UnlinkFails "EPERM: operation not permitted, unlink"
      (fun d => (Ret tt,
         mkDisk (entries d)
                (filter (fun e => negb (fst e =? p)%string) (files d))
                (workspace d) (faults d) (debugging d) (clock d)));
  createTar := fun folder _ m =>
    fail_when CreateTarFails "tar exited with code 2"
      (fun d => (Ret tt,
         mkDisk (entries d)
                ((folder ++ "/" ++ fileName m, mkStats true (clock d))
                 :: files d)
                (workspace d) (faults d) (debugging d) (clock d + 1)));
  extractTar := fun _ _ =>
    fail_when ExtractTarFails "tar exited with code 2" (fun d => (Ret tt, d));
  listTar := fun _ _ d => (Ret tt, d)
|}.

(** A store with two entries under the prefix [foo], a newer unrelated
    entry, and a directory without an archive. *)
Definition disk0 : Disk := {|
  entries := ["foo-abc"; "foo-def"; "bar-1"; "foo-empty"; "foo-dir"];
  files := [("/cache/foo-abc/cache.tgz", mkStats true 100);
            ("/cache/foo-def/cache.tgz", mkStats true 250);
            ("/cache/bar-1/cache.tgz", mkStats true 900);
            ("/cache/foo-dir/cache.tgz", mkStats false 999)];
  workspace := ["./dist"];
  faults := [];
  debugging := false;
  clock := 1000
|}.

Definition with_faults (fs : list Fault) (d : Disk) : Disk :=
  mkDisk (entries d) (files d) (workspace d) fs (debugging d) (clock d).

(** The two candidates of the key [foo] in [disk0]. *)
Definition fooNewest : CacheFileInfo :=
  mkInfo "/cache/foo-def/cache.tgz" (mkStats true 250).

Definition fooOldest : CacheFileInfo :=
  mkInfo "/cache/foo-abc/cache.tgz" (mkStats true 100).

(** What the archive engine throws in the sample. *)
Definition extractError : JsError := Error "tar exited with code 2".

(** The store after a first save under [build-42]. *)
Definition disk1 : Disk :=
  world (saveCache sample (Some ["./dist"]) "build-42" None disk0).

Definition conflict : JsError :=
  ReserveCacheError
    "Unable to reserve cache with key build-42, another job may be creating this cache.".

(** [disk0] in debug mode. *)
Definition debugDisk : Disk :=
  mkDisk (entries disk0) (files disk0) (workspace disk0) (faults disk0) true
         (clock disk0).

(** The sample environment on a filesystem where one archive exists
    but cannot be stat'ed. *)
Definition flaky : Env Disk Method :=
  mkEnv Disk Method (path_join sample) (JSON_stringify sample) (isDebug sample)
    (readdirSync sample) (existsSync sample)
    (fun p d =>
       if (p =? "/cache/foo-abc/cache.tgz")%string
       then Throw (Error ("EACCES: permission denied, stat " ++ p))
       else statSync sample p d)
    (getCompressionMethod sample) (getRepoCacheStorePath sample)
    (getCacheFileName sample) (getArchiveFileSizeInBytes sample)
    (resolvePaths sample) (createTempDirectory sample) (storeCacheFile sample)
    (unlinkFile sample) (createTar sample) (extractTar sample)
    (listTar sample).

Definition statError : JsError :=
  Error "EACCES: permission denied, stat /cache/foo-abc/cache.tgz".

(** The sample environment with an archive engine and a commit that
    throw errors named ValidationError. *)
Definition refused : JsError := mkError "ValidationError" "refused".

Definition strict : Env Disk Method :=
  mkEnv Disk Method (path_join sample) (JSON_stringify sample) (isDebug sample)
    (readdirSync sample) (existsSync sample) (statSync sample)
    (getCompressionMethod sample) (getRepoCacheStorePath sample)
    (getCacheFileName sample) (getArchiveFileSizeInBytes sample)
    (resolvePaths sample) (createTempDirectory sample)
    (fun _ _ d => (Throw refused, d))
    (unlinkFile sample) (createTar sample)
    (fun _ _ d => (Throw refused, d))
    (listTar sample).

(** A candidate as new as [fooNewest], listed after it. *)
Definition fooTwin : CacheFileInfo :=
  mkInfo "/cache/foo-ghi/cache.tgz" (mkStats true 250).

End Sample.


(** Sample arguments. *)
Definition key512 : string := string_of_list_ascii (repeat "a"%char 512).

(** A key that is too long and has a comma as well. *)
Definition longComma : string := (key512 ++ ",x")%string.

Definition elevenKeys : list string :=
  ["k1"; "k2"; "k3"; "k4"; "k5"; "k6"; "k7"; "k8"; "k9"; "k10"]%string.

(** * Properties *)

(** ** The monad *)

Section MonadFacts.

Context {W CM : Type}.

Lemma run_eta {A} (r : Run W CM A) :
  r = mkRun (outcome r) (world r) (events r).
Proof. now destruct r. Qed.

Lemma prepend_nil {A} (r : Run W CM A) : prepend [] r = r.
Proof. now destruct r. Qed.

Lemma prepend_prepend {A} evs1 evs2 (r : Run W CM A) :
  prepend evs1 (prepend evs2 r) = prepend (evs1 ++ evs2) r.
Proof. unfold prepend. cbn. now rewrite app_assoc. Qed.

Lemma bind_ret_run {A B} (m : M W CM A) (k : A -> M W CM B) w a w1 ev1 :
  m w = mkRun (Ret a) w1 ev1 ->
  bind m k w = prepend ev1 (k a w1).
Proof.
  intros Hm. unfold bind. rewrite Hm. now destruct (k a w1).
Qed.

Lemma bind_throw_run {A B} (m : M W CM A) (k : A -> M W CM B) w e w1 ev1 :
  m w = mkRun (Throw e) w1 ev1 ->
  bind m k w = mkRun (Throw e) w1 ev1.
Proof.
  intros Hm. unfold bind. now rewrite Hm.
Qed.

Lemma bind_pure {A B} (m : M W CM A) (k : A -> M W CM B) w a :
  m w = mkRun (Ret a) w [] -> bind m k w = k a w.
Proof.
  intros Hm. rewrite (bind_ret_run _ _ _ _ _ _ Hm). apply prepend_nil.
Qed.

Lemma bind_debug {B} msg (k : unit -> M W CM B) w :
  bind (debug msg) k w = prepend [EDebug msg] (k tt w).
Proof. now apply bind_ret_run. Qed.

Lemma bind_info {B} msg (k : unit -> M W CM B) w :
  bind (info msg) k w = prepend [EInfo msg] (k tt w).
Proof. now apply bind_ret_run. Qed.

Lemma bind_warning {B} msg (k : unit -> M W CM B) w :
  bind (warning msg) k w = prepend [EWarning msg] (k tt w).
Proof. now apply bind_ret_run. Qed.

Lemma bind_ask {A B} (h : W -> A) (k : A -> M W CM B) w :
  bind (ask h) k w = k (h w) w.
Proof. now apply bind_pure. Qed.

Lemma bind_call {A B} (ev : Event CM) (h : W -> Res A * W)
    (k : A -> M W CM B) w :
  bind (call ev h) k w =
  match h w with
  | (Ret a, w1) => prepend [ev] (k a w1)
  | (Throw e, w1) => mkRun (Throw e) w1 [ev]
  end.
Proof.
  destruct (h w) as [[a | e] w1] eqn:Hh.
  - apply bind_ret_run. unfold call. now rewrite Hh.
  - apply bind_throw_run. unfold call. now rewrite Hh.
Qed.

Lemma bind_read {A B} (ev : Event CM) (h : W -> Res A)
    (k : A -> M W CM B) w :
  bind (read ev h) k w =
  match h w with
  | Ret a => prepend [ev] (k a w)
  | Throw e => mkRun (Throw e) w [ev]
  end.
Proof.
  destruct (h w) as [a | e] eqn:Hh.
  - apply bind_ret_run. unfold read. now rewrite Hh.
  - apply bind_throw_run. unfold read. now rewrite Hh.
Qed.

(** Where a throw of a sequence comes from. *)
Lemma bind_outcome_throw {A B} (m : M W CM A) (k : A -> M W CM B) w e :
  outcome (bind m k w) = Throw e ->
  outcome (m w) = Throw e \/
  exists a, outcome (m w) = Ret a /\ outcome (k a (world (m w))) = Throw e.
Proof.
  unfold bind. destruct (m w) as [[a | e'] w1 ev1]; cbn.
  - destruct (k a w1) eqn:Hk; cbn. intros ->. right. exists a.
    now rewrite Hk.
  - intros [= ->]. now left.
Qed.

(** *** Events *)

Lemma emits_ret P {A} (a : A) : emits P (ret a : M W CM A).
Proof. intros w. constructor. Qed.

Lemma emits_throw P {A} e : emits P (throw e : M W CM A).
Proof. intros w. constructor. Qed.

Lemma emits_bind P {A B} (m : M W CM A) (k : A -> M W CM B) :
  emits P m -> (forall a, emits P (k a)) -> emits P (bind m k).
Proof.
  intros Hm Hk w. unfold bind. specialize (Hm w).
  destruct (m w) as [[a | e] w1 ev1]; cbn in *; auto.
  specialize (Hk a w1). destruct (k a w1); cbn in *.
  apply Forall_app; auto.
Qed.

Lemma emits_call P {A} (ev : Event CM) (h : W -> Res A * W) :
  P ev -> emits P (call ev h).
Proof. intros Hev w. unfold call. destruct (h w). cbn. auto. Qed.

Lemma emits_read P {A} (ev : Event CM) (h : W -> Res A) :
  P ev -> emits P (read ev h).
Proof. intros Hev w. cbn. auto. Qed.

Lemma emits_ask P {A} (h : W -> A) : emits P (ask h : M W CM A).
Proof. intros w. constructor. Qed.

Lemma emits_debug P msg : P (EDebug msg) -> emits P (debug msg : M W CM unit).
Proof. intros H w. cbn. auto. Qed.

Lemma emits_info P msg : P (EInfo msg) -> emits P (info msg : M W CM unit).
Proof. intros H w. cbn. auto. Qed.

Lemma emits_warning P msg :
  P (EWarning msg) -> emits P (warning msg : M W CM unit).
Proof. intros H w. cbn. auto. Qed.

Lemma emits_try_catch P {A} (body : M W CM A) handler :
  emits P body -> (forall e, emits P (handler e)) ->
  emits P (try_catch body handler).
Proof.
  intros Hb Hh w. unfold try_catch. specialize (Hb w).
  destruct (body w) as [[a | e] w1 ev1]; cbn in *; auto.
  specialize (Hh e w1). destruct (handler e w1); cbn in *.
  apply Forall_app; auto.
Qed.

Lemma emits_try_finally P {A} (body : M W CM A) fin :
  emits P body -> emits P fin -> emits P (try_finally body fin).
Proof.
  intros Hb Hf w. unfold try_finally. specialize (Hb w).
  destruct (body w) as [r w1 ev1]; cbn in *.
  specialize (Hf w1). destruct (fin w1) as [[u | e] w2 ev2]; cbn in *;
    apply Forall_app; auto.
Qed.

Lemma emits_if P {A} (b : bool) (m1 m2 : M W CM A) :
  emits P m1 -> emits P m2 -> emits P (if b then m1 else m2).
Proof. now destruct b. Qed.

Lemma emits_mapM P {A B} (f : A -> M W CM B) l :
  (forall a, emits P (f a)) -> emits P (mapM f l).
Proof.
  intros Hf. induction l as [| a l IH]; cbn [mapM].
  - apply emits_ret.
  - apply emits_bind; [apply Hf |]. intros b.
    apply emits_bind; [apply IH |]. intros bs. apply emits_ret.
Qed.

Lemma emits_filterM P {A} (f : A -> M W CM bool) l :
  (forall a, emits P (f a)) -> emits P (filterM f l).
Proof.
  intros Hf. induction l as [| a l IH]; cbn [filterM].
  - apply emits_ret.
  - apply emits_bind; [apply Hf |]. intros b.
    apply emits_bind; [apply IH |]. intros bs. apply emits_ret.
Qed.

(** *** Computations that only read *)

Lemma readonly_ret {A} (a : A) : readonly (ret a : M W CM A).
Proof. now intros w. Qed.

Lemma readonly_bind {A B} (m : M W CM A) (k : A -> M W CM B) :
  readonly m -> (forall a, readonly (k a)) -> readonly (bind m k).
Proof.
  intros Hm Hk w. unfold bind. specialize (Hm w).
  destruct (m w) as [[a | e] w1 ev1]; cbn in *; auto.
  specialize (Hk a w1). destruct (k a w1); cbn in *. congruence.
Qed.

Lemma readonly_read {A} (ev : Event CM) (h : W -> Res A) :
  readonly (read ev h).
Proof. now intros w. Qed.

Lemma readonly_mapM {A B} (f : A -> M W CM B) l :
  (forall a, readonly (f a)) -> readonly (mapM f l).
Proof.
  intros Hf. induction l as [| a l IH]; cbn [mapM].
  - apply readonly_ret.
  - apply readonly_bind; [apply Hf |]. intros b.
    apply readonly_bind; [apply IH |]. intros bs. apply readonly_ret.
Qed.

Lemma readonly_filterM {A} (f : A -> M W CM bool) l :
  (forall a, readonly (f a)) -> readonly (filterM f l).
Proof.
  intros Hf. induction l as [| a l IH]; cbn [filterM].
  - apply readonly_ret.
  - apply readonly_bind; [apply Hf |]. intros b.
    apply readonly_bind; [apply IH |]. intros bs. apply readonly_ret.
Qed.

End MonadFacts.

Create HintDb emits discriminated.
#[export] Hint Resolve emits_ret emits_throw emits_ask : emits.
#[export] Hint Extern 1 (emits _ (call _ _)) =>
  (apply emits_call; reflexivity) : emits.
#[export] Hint Extern 1 (emits _ (read _ _)) =>
  (apply emits_read; reflexivity) : emits.
#[export] Hint Extern 1 (emits _ (debug _)) =>
  (apply emits_debug; reflexivity) : emits.
#[export] Hint Extern 1 (emits _ (info _)) =>
  (apply emits_info; reflexivity) : emits.
#[export] Hint Extern 1 (emits _ (warning _)) =>
  (apply emits_warning; reflexivity) : emits.

(** One step through the structure of a computation; the calls
    themselves are left to the hints. *)
Ltac emits_step :=
  match goal with
  | |- emits _ (bind _ _) => apply emits_bind; [| intro]
  | |- emits _ (try_catch _ _) => apply emits_try_catch; [| intro]
  | |- emits _ (try_finally _ _) => apply emits_try_finally
  | |- emits _ (mapM _ _) => apply emits_mapM; intro
  | |- emits _ (filterM _ _) => apply emits_filterM; intro
  | |- emits _ (if _ then _ else _) => apply emits_if
  | |- emits _ (match ?x with _ => _ end) => destruct x
  | |- emits _ _ => solve [auto with emits]
  end.

Ltac emits_auto := repeat emits_step.

(** ** Validation *)

Section ValidationFacts.

Context {W CM : Type}.
Variable env : Env W CM.

Lemma regex_test_false_iff key : regex_test key = false <-> has_comma key.
Proof.
  unfold has_comma. induction key as [| c key IH]; cbn.
  - split; [discriminate | tauto].
  - destruct (Ascii.eqb_spec c ","%char) as [-> | Hc]; cbn.
    + split; auto.
    + rewrite IH. split; [auto | intros [H | H]; [congruence | auto]].
Qed.

Lemma valid_key_false_iff key :
  valid_key key = false <-> 512 < String.length key \/ has_comma key.
Proof.
  unfold valid_key. rewrite andb_false_iff, Nat.leb_gt, regex_test_false_iff.
  tauto.
Qed.

Lemma checkPaths_some p ps (w : W) :
  checkPaths (CM := CM) (Some (p :: ps)) w = mkRun (Ret tt) w [].
Proof. reflexivity. Qed.

Lemma checkPaths_empty paths (w : W) :
  paths = None \/ paths = Some [] ->
  checkPaths (CM := CM) paths w =
  mkRun (Throw (ValidationError no_path_supplied)) w [].
Proof. now intros [-> | ->]. Qed.

Lemma checkKey_valid key (w : W) :
  valid_key key = true -> checkKey (CM := CM) key w = mkRun (Ret tt) w [].
Proof.
  unfold valid_key, checkKey. rewrite andb_true_iff, Nat.leb_le.
  intros [Hlen Hre].
  destruct (Nat.ltb_spec 512 (String.length key)); [lia |].
  now rewrite Hre.
Qed.

Lemma checkKey_invalid key (w : W) :
  valid_key key = false ->
  exists msg,
    checkKey (CM := CM) key w = mkRun (Throw (ValidationError msg)) w [].
Proof.
  unfold valid_key, checkKey. rewrite andb_false_iff, Nat.leb_gt.
  destruct (Nat.ltb_spec 512 (String.length key)) as [Hlt | Hle].
  - intros _. eexists. reflexivity.
  - intros [Hlen | Hre]; [lia |]. rewrite Hre. eexists. reflexivity.
Qed.

Lemma checkKeys_valid keys (w : W) :
  forallb valid_key keys = true ->
  checkKeys (CM := CM) keys w = mkRun (Ret tt) w [].
Proof.
  induction keys as [| key keys IH]; cbn [forallb checkKeys]; [reflexivity |].
  rewrite andb_true_iff. intros [Hk Hks].
  rewrite (bind_pure _ _ _ _ (checkKey_valid key w Hk)).
  now rewrite (IH Hks).
Qed.

Lemma checkKeys_invalid keys (w : W) :
  forallb valid_key keys = false ->
  exists msg,
    checkKeys (CM := CM) keys w = mkRun (Throw (ValidationError msg)) w [].
Proof.
  induction keys as [| key keys IH]; cbn [forallb checkKeys]; [discriminate |].
  destruct (valid_key key) eqn:Hk; cbn [andb]; intros Hks.
  - rewrite (bind_pure _ _ _ _ (checkKey_valid key w Hk)).
    destruct (IH Hks) as [msg ->]. now exists msg.
  - destruct (checkKey_invalid key w Hk) as [msg Hmsg]. exists msg.
    now rewrite (bind_throw_run _ _ _ _ _ _ Hmsg).
Qed.

Lemma forallb_valid_key_false keys key :
  In key keys -> valid_key key = false -> forallb valid_key keys = false.
Proof.
  intros Hin Hk. destruct (forallb valid_key keys) eqn:Hall; [| reflexivity].
  rewrite forallb_forall in Hall. specialize (Hall key Hin). congruence.
Qed.

(** The steps of [restoreCache] up to the end of validation (lines
    61-76), when validation lets the call through. *)
Lemma restoreCache_validated p ps primaryKey restoreKeys cacheBasePath (w : W) :
  let keys := resolvedKeys primaryKey restoreKeys in
  List.length keys <= 10 ->
  forallb valid_key keys = true ->
  restoreCache env (Some (p :: ps)) primaryKey restoreKeys cacheBasePath w =
  prepend [EDebug "Resolved Keys:"; EDebug (JSON_stringify env keys)]
    ((setup <- restoreCache_setup env cacheBasePath ;;
      let '(compressionMethod, repoCachePath, cacheFileName) := setup in
      restoreCache_guarded env keys compressionMethod repoCachePath
        cacheFileName) w).
Proof.
  intros keys Hlen Hvalid. unfold restoreCache. fold keys.
  rewrite (bind_pure _ _ _ _ (checkPaths_some p ps w)).
  rewrite !bind_debug, prepend_prepend.
  destruct (Nat.ltb_spec 10 (List.length keys)); [lia |].
  rewrite (bind_pure (ret tt) _ w tt eq_refl).
  now rewrite (bind_pure _ _ _ _ (checkKeys_valid keys w Hvalid)).
Qed.

(** Validation failures of [restoreCache]: the error, and what has
    happened by then. *)
Lemma restoreCache_rejected paths primaryKey restoreKeys cacheBasePath (w : W) :
  let keys := resolvedKeys primaryKey restoreKeys in
  10 < List.length keys \/ forallb valid_key keys = false ->
  let r := restoreCache env paths primaryKey restoreKeys cacheBasePath w in
  (exists msg, outcome r = Throw (ValidationError msg)) /\
  world r = w /\
  (events r = [] \/
   events r = [EDebug "Resolved Keys:"; EDebug (JSON_stringify env keys)]).
Proof.
  intros keys Hbad. unfold restoreCache. fold keys.
  destruct paths as [[| p ps] |]; try (cbn; eauto; fail).
  rewrite (bind_pure _ _ _ _ (checkPaths_some p ps w)).
  rewrite !bind_debug, prepend_prepend.
  destruct (Nat.ltb_spec 10 (List.length keys)) as [Hlt | Hle].
  - cbn. eauto.
  - destruct Hbad as [Hlen | Hvalid]; [lia |].
    rewrite (bind_pure (ret tt) _ w tt eq_refl).
    destruct (checkKeys_invalid keys w Hvalid) as [msg Hmsg].
    rewrite (bind_throw_run _ _ _ _ _ _ Hmsg). cbn. eauto.
Qed.

Lemma restoreCache_no_paths paths primaryKey restoreKeys cacheBasePath (w : W) :
  paths = None \/ paths = Some [] ->
  restoreCache env paths primaryKey restoreKeys cacheBasePath w =
  mkRun (Throw (ValidationError no_path_supplied)) w [].
Proof.
  intros Hpaths. unfold restoreCache.
  now rewrite (bind_throw_run _ _ _ _ _ _ (checkPaths_empty paths w Hpaths)).
Qed.

Lemma saveCache_no_paths paths key cacheBasePath (w : W) :
  paths = None \/ paths = Some [] ->
  saveCache env paths key cacheBasePath w =
  mkRun (Throw (ValidationError no_path_supplied)) w [].
Proof.
  intros Hpaths. unfold saveCache.
  now rewrite (bind_throw_run _ _ _ _ _ _ (checkPaths_empty paths w Hpaths)).
Qed.

Lemma paths_cases (paths : option (list string)) :
  (paths = None \/ paths = Some []) \/ exists p ps, paths = Some (p :: ps).
Proof. destruct paths as [[| p ps] |]; eauto. Qed.

End ValidationFacts.

(** ** Validation at the public boundary *)

Section ValidationClaims.

Context {W CM : Type}.
Variable env : Env W CM.

Lemma no_comma_by_test key : regex_test key = true -> ~ has_comma key.
Proof.
  intros Htest Hcomma. apply regex_test_false_iff in Hcomma. congruence.
Qed.

Lemma saveCache_rejected paths key cacheBasePath (w : W) :
  valid_key key = false ->
  exists msg,
    saveCache env paths key cacheBasePath w =
    mkRun (Throw (ValidationError msg)) w [].
Proof.
  intros Hkey. unfold saveCache.
  destruct paths as [[| p ps] |]; try (eexists; reflexivity).
  rewrite (bind_pure _ _ _ _ (checkPaths_some p ps w)).
  destruct (checkKey_invalid (CM := CM) key w Hkey) as [msg Hmsg].
  exists msg. now rewrite (bind_throw_run _ _ _ _ _ _ Hmsg).
Qed.

(** C6: when the combined key list [primaryKey, ...restoreKeys] has
    more than 10 entries, [restoreCache] throws a ValidationError, and it
    does so before any access to the filesystem: the world is unchanged
    and the only collaborator reached is the logger. *)
Theorem restoreCache_key_limit
    paths primaryKey restoreKeys cacheBasePath (w : W) :
  10 < List.length (resolvedKeys primaryKey restoreKeys) ->
  let r := restoreCache env paths primaryKey restoreKeys cacheBasePath w in
  (exists e, outcome r = Throw e /\ name e = ValidationError_name) /\
  world r = w /\
  forallb is_log (events r) = true.
Proof.
  intros Hlen r.
  destruct (restoreCache_rejected env paths primaryKey restoreKeys
              cacheBasePath w (or_introl Hlen)) as ((msg & Hout) & Hw & Hev).
  fold r in Hout, Hw, Hev. repeat split; auto.
  - exists (ValidationError msg). now split.
  - now destruct Hev as [-> | ->].
Qed.

(** C7: a key longer than 512 characters, or containing a comma, makes
    both [saveCache] and [restoreCache] (for the primary key or any
    restore key) throw a ValidationError; a comma-free key of length
    exactly 512 passes [checkKey]. *)
Theorem invalid_key_rejected key :
  (512 < String.length key \/ has_comma key ->
   (forall paths cacheBasePath (w : W),
      exists e,
        outcome (saveCache env paths key cacheBasePath w) = Throw e /\
        name e = ValidationError_name) /\
   (forall paths primaryKey restoreKeys cacheBasePath (w : W),
      In key (resolvedKeys primaryKey restoreKeys) ->
      exists e,
        outcome (restoreCache env paths primaryKey restoreKeys
                   cacheBasePath w) = Throw e /\
        name e = ValidationError_name)) /\
  (String.length key = 512 -> ~ has_comma key ->
   forall w : W, checkKey (CM := CM) key w = mkRun (Ret tt) w []).
Proof.
  split.
  - intros Hbad. apply valid_key_false_iff in Hbad. split.
    + intros paths cacheBasePath w.
      destruct (saveCache_rejected paths key cacheBasePath w Hbad)
        as [msg ->].
      exists (ValidationError msg). now split.
    + intros paths primaryKey restoreKeys cacheBasePath w Hin.
      pose proof (forallb_valid_key_false _ _ Hin Hbad) as Hall.
      destruct (restoreCache_rejected env paths primaryKey restoreKeys
                  cacheBasePath w (or_intror Hall)) as ((msg & Hout) & _).
      exists (ValidationError msg). now split.
  - intros Hlen Hcomma w. apply checkKey_valid. unfold valid_key.
    rewrite Hlen. cbn [andb]. 
    destruct (regex_test key) eqn:Htest; [reflexivity |].
    now apply regex_test_false_iff in Htest.
Qed.

(** C8: with an empty or missing [paths] argument both operations throw
    a ValidationError before anything else happens (no collaborator is
    called, the world is unchanged), and that failure is not the
    [undefined] by which [restoreCache] reports that no cache was
    found. *)
Theorem empty_paths_rejected paths :
  paths = None \/ paths = Some [] ->
  forall primaryKey restoreKeys key cacheBasePath (w : W),
    restoreCache env paths primaryKey restoreKeys cacheBasePath w =
      mkRun (Throw (ValidationError no_path_supplied)) w [] /\
    saveCache env paths key cacheBasePath w =
      mkRun (Throw (ValidationError no_path_supplied)) w [] /\
    name (ValidationError no_path_supplied) = ValidationError_name /\
    outcome (restoreCache env paths primaryKey restoreKeys cacheBasePath w)
      <> Ret None.
Proof.
  intros Hpaths primaryKey restoreKeys key cacheBasePath w.
  rewrite (restoreCache_no_paths env paths _ _ _ w Hpaths).
  rewrite (saveCache_no_paths env paths _ _ w Hpaths).
  repeat split. discriminate.
Qed.

(** C10: [restoreCache] looks at [paths] only to check that it is not
    empty. For two non-empty path lists and the same keys, base path and
    world, the two runs are equal: same returned value, same final
    world, same sequence of collaborator calls (hence the same entry
    selected and the same extraction). *)
Theorem restoreCache_ignores_paths
    paths1 paths2 primaryKey restoreKeys cacheBasePath (w : W) :
  paths1 <> [] -> paths2 <> [] ->
  restoreCache env (Some paths1) primaryKey restoreKeys cacheBasePath w =
  restoreCache env (Some paths2) primaryKey restoreKeys cacheBasePath w.
Proof.
  intros H1 H2.
  destruct paths1 as [| p1 ps1]; [congruence |].
  destruct paths2 as [| p2 ps2]; [congruence |].
  unfold restoreCache.
  now rewrite !(bind_pure _ _ _ _ (checkPaths_some _ _ w)).
Qed.

End ValidationClaims.

(** ** Scanning the store *)

Section ScanFacts.

Context {W CM : Type}.
Variable env : Env W CM.

(** *** The sort *)






(** *** The two traversals that touch the filesystem *)


Lemma readonly_statInfo p : readonly (statInfo env p).
Proof.
  unfold statInfo. apply readonly_bind; [apply readonly_read |].
  intros s. apply readonly_ret.
Qed.




Lemma readonly_matchedCaches repo file dirEntries key :
  readonly (matchedCaches env repo file dirEntries key).
Proof.
  unfold matchedCaches.
  apply readonly_bind.
  - apply readonly_filterM. intros it. apply readonly_read.
  - intros step3. apply readonly_bind.
    + apply readonly_mapM, readonly_statInfo.
    + intros step4. apply readonly_ret.
Qed.





(** The priority of the loop: keys are tried in the order of the list
    (the primary key, then the restore keys as given). When every key before [key] has no
    candidate and [key] has the candidates [c :: cs], the loop ends with
    [key] and the archive of [c], whatever the later keys are and
    whatever their entries' modification times; the later keys are not
    scanned at all (the run is the run on the list cut after [key]);
    and for a non-empty [key] the [try] block goes on with that entry
    alone. *)
Theorem scanKeys_priority repo file dirEntries pre key post c cs (w : W) :
  (forall k, In k pre ->
     outcome (matchedCaches env repo file dirEntries k w) = Ret []) ->
  outcome (matchedCaches env repo file dirEntries key w) = Ret (c :: cs) ->
  outcome (scanKeys env repo file dirEntries (pre ++ key :: post) w) =
    Ret (key, filePath c) /\
  scanKeys env repo file dirEntries (pre ++ key :: post) w =
    scanKeys env repo file dirEntries (pre ++ [key]) w /\
  (forall compressionMethod,
     readdirSync env repo w = Ret dirEntries -> key <> ""%string ->
     restoreCache_try env (pre ++ key :: post) compressionMethod repo file w =
     prepend
       (EReaddirSync repo ::
        events (scanKeys env repo file dirEntries (pre ++ [key]) w))
       (restoreCache_extract env key (filePath c) compressionMethod w)).
Proof.
  intros Hpre Hkey.
  assert (Hscan : forall rest,
            scanKeys env repo file dirEntries (pre ++ key :: rest) w =
            mkRun (Ret (key, filePath c)) w
              (events (scanKeys env repo file dirEntries (pre ++ [key]) w))).
  { intros rest. induction pre as [| k pre IH]; cbn [app scanKeys].
    - pose proof (readonly_matchedCaches repo file dirEntries key w) as Hw.
      destruct (matchedCaches env repo file dirEntries key w)
        as [out w1 ev1] eqn:Hrun. cbn in Hkey, Hw. subst out w1.
      rewrite !(bind_ret_run _ _ _ _ _ _ Hrun). reflexivity.
    - pose proof (readonly_matchedCaches repo file dirEntries k w) as Hw.
      pose proof (Hpre k (or_introl eq_refl)) as Hk.
      destruct (matchedCaches env repo file dirEntries k w)
        as [out w1 ev1] eqn:Hrun. cbn in Hk, Hw. subst out w1.
      rewrite !(bind_ret_run _ _ _ _ _ _ Hrun). cbn [hd_error].
      rewrite IH by (intros k' Hk'; apply Hpre; now right).
      reflexivity. }
  split; [| split].
  - now rewrite Hscan.
  - rewrite (Hscan post), (Hscan []). reflexivity.
  - intros compressionMethod Hdir Hne. unfold restoreCache_try.
    rewrite bind_read, Hdir.
    rewrite (bind_ret_run _ _ _ _ _ _ (Hscan post)).
    destruct (String.eqb_spec key "") as [-> | _]; [congruence |].
    rewrite prepend_prepend. reflexivity.
Qed.

End ScanFacts.

(** ** The guarded blocks *)

Section GuardFacts.

Context {W CM : Type}.

Lemma try_catch_ret {A} (body : M W CM A) handler w a w1 ev1 :
  body w = mkRun (Ret a) w1 ev1 ->
  try_catch body handler w = mkRun (Ret a) w1 ev1.
Proof. intros Hb. unfold try_catch. now rewrite Hb. Qed.

Lemma try_catch_throw {A} (body : M W CM A) handler w e w1 ev1 :
  body w = mkRun (Throw e) w1 ev1 ->
  try_catch body handler w = prepend ev1 (handler e w1).
Proof.
  intros Hb. unfold try_catch. rewrite Hb. now destruct (handler e w1).
Qed.

Lemma try_finally_quiet {A} (body : M W CM A) fin w :
  (forall w1, exists u, outcome (fin w1) = Ret u) ->
  try_finally body fin w =
  mkRun (outcome (body w)) (world (fin (world (body w))))
        (events (body w) ++ events (fin (world (body w)))).
Proof.
  intros Hfin. unfold try_finally. destruct (body w) as [r w1 ev1]. cbn.
  destruct (Hfin w1) as [u Hu].
  destruct (fin w1) as [[u' | e] w2 ev2]; cbn in *; [reflexivity | discriminate].
Qed.

Lemma try_finally_nothing {A} (body : M W CM A) w :
  try_finally body (ret tt) w = body w.
Proof.
  unfold try_finally, ret. destruct (body w). now rewrite app_nil_r.
Qed.

Variable env : Env W CM.

(** *** restoreCache *)

Lemma restoreCache_guarded_run keys cm repo file (w : W) :
  let t := restoreCache_try env keys cm repo file w in
  restoreCache_guarded env keys cm repo file w =
  match outcome t with
  | Ret _ => t
  | Throw e =>
      if (name e =? ValidationError_name)%string then t
      else mkRun (Ret None) (world t)
             (events t ++ [EWarning ("Failed to restore: " ++ message e)])
  end.
Proof.
  intros t. unfold restoreCache_guarded. rewrite try_finally_nothing.
  subst t. destruct (restoreCache_try env keys cm repo file w)
    as [[a | e] w1 ev1] eqn:Ht; cbn [outcome].
  - now apply try_catch_ret.
  - rewrite (try_catch_throw _ _ _ _ _ _ Ht). unfold restoreCache_catch.
    destruct (name e =? ValidationError_name)%string.
    + unfold prepend, throw. cbn. now rewrite app_nil_r.
    + rewrite bind_warning. reflexivity.
Qed.

Lemma restoreCache_guarded_throw keys cm repo file (w : W) e :
  outcome (restoreCache_guarded env keys cm repo file w) = Throw e ->
  name e = ValidationError_name.
Proof.
  rewrite restoreCache_guarded_run.
  destruct (outcome (restoreCache_try env keys cm repo file w))
    as [a | e'] eqn:Ht.
  - rewrite Ht. discriminate.
  - destruct (String.eqb_spec (name e') ValidationError_name) as [Hn | Hn].
    + rewrite Ht. now intros [= <-].
    + discriminate.
Qed.

(** *** saveCache *)

Lemma saveCache_finally_run ap (w : W) :
  exists tail,
    outcome (saveCache_finally env ap w) = Ret tt /\
    events (saveCache_finally env ap w) = EUnlinkFile ap :: tail /\
    (tail = [] \/ exists msg, tail = [EDebug msg]).
Proof.
  unfold saveCache_finally, try_catch, call.
  destruct (unlinkFile env ap w) as [[[] | e] w1]; cbn.
  - exists []. auto.
  - eexists. repeat split. right. eexists. reflexivity.
Qed.

Lemma saveCache_guarded_run key base cm cps folder ap (w : W) :
  let b := saveCache_body env key base cm cps folder ap w in
  outcome (saveCache_guarded env key base cm cps folder ap w) = outcome b /\
  exists tail,
    events (saveCache_guarded env key base cm cps folder ap w) =
      events b ++ EUnlinkFile ap :: tail /\
    (tail = [] \/ exists msg, tail = [EDebug msg]).
Proof.
  intros b. unfold saveCache_guarded. rewrite try_finally_quiet.
  - cbn [outcome events]. split; [reflexivity |].
    destruct (saveCache_finally_run ap
                (world (saveCache_body env key base cm cps folder ap w)))
      as (tail & _ & Hev & Htail).
    exists tail. fold b. split; [| exact Htail].
    unfold b. now rewrite Hev.
  - intros w1. destruct (saveCache_finally_run ap w1) as (tail & Hout & _).
    eauto.
Qed.

Lemma saveCache_catch_run e (w : W) :
  saveCache_catch (CM := CM) e w =
  if (name e =? ValidationError_name)%string then mkRun (Throw e) w []
  else if (name e =? ReserveCacheError_name)%string
       then mkRun (Ret (-1)%Z) w [EInfo ("Failed to save: " ++ message e)]
       else mkRun (Ret (-1)%Z) w [EWarning ("Failed to save: " ++ message e)].
Proof.
  unfold saveCache_catch.
  destruct (name e =? ValidationError_name)%string; [reflexivity |].
  destruct (name e =? ReserveCacheError_name)%string.
  - now rewrite bind_info.
  - now rewrite bind_warning.
Qed.

Lemma saveCache_try_ret key base cm cps folder ap (w : W) n :
  outcome (saveCache_try env key base cm cps folder ap w) = Ret n -> n = 1%Z.
Proof.
  unfold saveCache_try.
  repeat (rewrite ?bind_call, ?bind_ask, ?bind_debug;
          match goal with
          | |- context [match ?h with (_, _) => _ end] =>
              destruct h as [[? | ?] ?]
          | |- context [if ?b then _ else _] => destruct b
          | _ => idtac
          end; cbn [outcome prepend ret];
          try rewrite (bind_pure (ret tt) _ _ tt eq_refl));
    try discriminate; now intros [= <-].
Qed.

Lemma saveCache_body_run key base cm cps folder ap (w : W) :
  let t := saveCache_try env key base cm cps folder ap w in
  saveCache_body env key base cm cps folder ap w =
  match outcome t with
  | Ret _ => t
  | Throw e => prepend (events t) (saveCache_catch e (world t))
  end.
Proof.
  intros t. unfold saveCache_body. subst t.
  destruct (saveCache_try env key base cm cps folder ap w)
    as [[a | e] w1 ev1] eqn:Ht; cbn [outcome world events].
  - now apply try_catch_ret.
  - now apply try_catch_throw.
Qed.

(** The [finally] block, exactly: the deletion, and the debug message
    when the deletion throws. *)
Lemma saveCache_finally_exact ap (w : W) :
  saveCache_finally env ap w =
  match unlinkFile env ap w with
  | (Ret _, w1) => mkRun (Ret tt) w1 [EUnlinkFile ap]
  | (Throw e, w1) =>
      mkRun (Ret tt) w1
        [EUnlinkFile ap;
         EDebug ("Failed to delete archive: " ++ error_toString e)]
  end.
Proof.
  unfold saveCache_finally, try_catch, call.
  destruct (unlinkFile env ap w) as [[[] | e] w1]; reflexivity.
Qed.

(** The [try] statement of [saveCache], exactly. *)
Lemma saveCache_guarded_exact key base cm cps folder ap (w : W) :
  let b := saveCache_body env key base cm cps folder ap w in
  saveCache_guarded env key base cm cps folder ap w =
  match unlinkFile env ap (world b) with
  | (Ret _, w1) => mkRun (outcome b) w1 (events b ++ [EUnlinkFile ap])
  | (Throw e, w1) =>
      mkRun (outcome b) w1
        (events b ++
         [EUnlinkFile ap;
          EDebug ("Failed to delete archive: " ++ error_toString e)])
  end.
Proof.
  intros b. unfold saveCache_guarded, try_finally. fold b.
  destruct b as [out w1 ev1]. cbn [world outcome events].
  rewrite saveCache_finally_exact.
  destruct (unlinkFile env ap w1) as [[[] | e] w2]; reflexivity.
Qed.

End GuardFacts.

(** ** Failures at the public boundary *)

Section GuardClaims.

Context {W CM : Type}.

Local Notation "'no_unlink'" := (fun ev : Event CM => is_unlink ev = false).
Local Notation "'no_warning'" :=
  (fun ev : Event CM => is_warning ev = false).

(** *** What is never called *)

Lemma checkPaths_emits P paths : emits P (checkPaths (W := W) (CM := CM) paths).
Proof. unfold checkPaths. destruct paths as [[| p ps] |]; auto with emits. Qed.

Lemma checkKey_emits P key : emits P (checkKey (W := W) (CM := CM) key).
Proof. unfold checkKey. emits_auto. Qed.

Lemma checkKeys_emits P keys : emits P (checkKeys (W := W) (CM := CM) keys).
Proof.
  induction keys as [| key keys IH]; cbn [checkKeys].
  - apply emits_ret.
  - apply emits_bind; [apply checkKey_emits | intros _; exact IH].
Qed.

Lemma scanKeys_no_unlink (env : Env W CM) repo file dirEntries keys :
  emits no_unlink (scanKeys env repo file dirEntries keys).
Proof.
  induction keys as [| key keys IH]; cbn [scanKeys].
  - apply emits_ret.
  - apply emits_bind.
    + unfold matchedCaches, exists_, statInfo. emits_auto.
    + intros matched. destruct (hd_error matched); [apply emits_ret | exact IH].
Qed.

Lemma restoreCache_no_unlink (env : Env W CM)
    paths primaryKey restoreKeys cacheBasePath :
  emits no_unlink (restoreCache env paths primaryKey restoreKeys cacheBasePath).
Proof.
  unfold restoreCache.
  apply emits_bind; [apply checkPaths_emits | intros _].
  do 3 (apply emits_bind; [emits_auto | intros _]).
  apply emits_bind; [apply checkKeys_emits | intros _].
  apply emits_bind; [unfold restoreCache_setup; emits_auto |].
  intros [[cm repo] file].
  unfold restoreCache_guarded, restoreCache_try, restoreCache_catch,
    restoreCache_extract.
  apply emits_try_finally; [| apply emits_ret].
  apply emits_try_catch; [| intros e; emits_auto].
  apply emits_bind; [emits_auto | intros dirEntries].
  apply emits_bind; [apply scanKeys_no_unlink | intros [matchedKey archivePath]].
  emits_auto.
Qed.

Lemma saveCache_setup_no_warning (env : Env W CM) paths :
  emits no_warning (saveCache_setup env paths).
Proof. unfold saveCache_setup. emits_auto. Qed.

Lemma saveCache_setup_no_createTar (env : Env W CM) paths :
  emits (fun ev => is_createTar ev = false) (saveCache_setup env paths).
Proof. unfold saveCache_setup. emits_auto. Qed.

Lemma saveCache_try_no_warning (env : Env W CM) key base cm cps folder ap :
  emits no_warning (saveCache_try env key base cm cps folder ap).
Proof. unfold saveCache_try. emits_auto. Qed.

Lemma saveCache_finally_no_warning (env : Env W CM) ap :
  emits no_warning (saveCache_finally env ap).
Proof. unfold saveCache_finally. emits_auto. Qed.

(** *** The runs of [saveCache] *)

Lemma saveCache_validated (env : Env W CM) p ps key cacheBasePath (w : W) :
  valid_key key = true ->
  saveCache env (Some (p :: ps)) key cacheBasePath w =
  (setup <- saveCache_setup env (p :: ps) ;;
   let '(compressionMethod, cachePaths, archiveFolder, archivePath) := setup in
   saveCache_guarded env key cacheBasePath compressionMethod cachePaths
     archiveFolder archivePath) w.
Proof.
  intros Hkey. unfold saveCache.
  rewrite (bind_pure _ _ _ _ (checkPaths_some p ps w)).
  now rewrite (bind_pure _ _ _ _ (checkKey_valid key w Hkey)).
Qed.

Lemma saveCache_guarded_outcome (env : Env W CM)
    key base cm cps folder ap (w : W) :
  outcome (saveCache_guarded env key base cm cps folder ap w) =
  match outcome (saveCache_try env key base cm cps folder ap w) with
  | Ret _ => Ret 1%Z
  | Throw e =>
      if (name e =? ValidationError_name)%string then Throw e
      else Ret (-1)%Z
  end.
Proof.
  destruct (saveCache_guarded_run env key base cm cps folder ap w) as [-> _].
  rewrite saveCache_body_run.
  destruct (outcome (saveCache_try env key base cm cps folder ap w))
    as [n | e] eqn:Ht.
  - rewrite Ht. now rewrite (saveCache_try_ret env _ _ _ _ _ _ _ _ Ht).
  - cbn [outcome prepend]. rewrite saveCache_catch_run.
    destruct (name e =? ValidationError_name)%string; [reflexivity |].
    now destruct (name e =? ReserveCacheError_name)%string.
Qed.

(** The events of the guarded statement when its [try] block throws an
    error that is not rethrown. *)
Lemma saveCache_guarded_caught (env : Env W CM)
    key base cm cps folder ap (w : W) e :
  outcome (saveCache_try env key base cm cps folder ap w) = Throw e ->
  name e <> ValidationError_name ->
  exists tail,
    events (saveCache_guarded env key base cm cps folder ap w) =
      events (saveCache_try env key base cm cps folder ap w) ++
      (if (name e =? ReserveCacheError_name)%string
       then EInfo ("Failed to save: " ++ message e)
       else EWarning ("Failed to save: " ++ message e)) ::
      EUnlinkFile ap :: tail /\
    (tail = [] \/ exists msg, tail = [EDebug msg]).
Proof.
  intros Ht Hname.
  destruct (saveCache_guarded_run env key base cm cps folder ap w)
    as (_ & tail & Hev & Htail).
  exists tail. split; [| exact Htail]. rewrite Hev.
  rewrite saveCache_body_run, Ht. cbn [events prepend].
  rewrite saveCache_catch_run.
  destruct (String.eqb_spec (name e) ValidationError_name); [contradiction |].
  destruct (name e =? ReserveCacheError_name)%string; cbn [events];
    now rewrite <- app_assoc.
Qed.

(** *** The claims *)

(** C2 (amended): [restoreCache] throws only an error named
    ValidationError or an error raised by one of the three helper
    calls that come before the [try] statement (compression-method
    resolution, store-root resolution, archive-file name), and such an
    error does reach the caller; a failure inside the [try] block
    (directory listing, scanning, archive listing, size, extraction)
    that is not named ValidationError is caught, logged as one warning,
    and the result is [undefined]. *)
Theorem restoreCache_failures (env : Env W CM)
    paths primaryKey restoreKeys cacheBasePath (w : W) :
  let keys := resolvedKeys primaryKey restoreKeys in
  let r := restoreCache env paths primaryKey restoreKeys cacheBasePath w in
  (forall e, outcome r = Throw e ->
     name e = ValidationError_name \/
     outcome (restoreCache_setup env cacheBasePath w) = Throw e) /\
  (forall p ps e,
     paths = Some (p :: ps) ->
     List.length keys <= 10 -> forallb valid_key keys = true ->
     outcome (restoreCache_setup env cacheBasePath w) = Throw e ->
     outcome r = Throw e) /\
  (forall p ps cm repo file w1 evs1 e,
     paths = Some (p :: ps) ->
     List.length keys <= 10 -> forallb valid_key keys = true ->
     restoreCache_setup env cacheBasePath w =
       mkRun (Ret (cm, repo, file)) w1 evs1 ->
     let t := restoreCache_try env keys cm repo file w1 in
     outcome t = Throw e ->
     name e <> ValidationError_name ->
     r = mkRun (Ret None) (world t)
           ([EDebug "Resolved Keys:"; EDebug (JSON_stringify env keys)] ++
            evs1 ++ events t ++
            [EWarning ("Failed to restore: " ++ message e)])).
Proof.
  intros keys r. split; [| split].
  - intros e Hr.
    destruct (paths_cases paths) as [Hnone | (p & ps & ->)].
    { unfold r in Hr. rewrite (restoreCache_no_paths env _ _ _ _ w Hnone) in Hr.
      injection Hr as <-. now left. }
    destruct (Nat.ltb_spec 10 (List.length keys)) as [Hlt | Hle].
    { destruct (restoreCache_rejected env (Some (p :: ps)) primaryKey
                  restoreKeys cacheBasePath w (or_introl Hlt))
        as ((msg & Hout) & _).
      fold r in Hout. rewrite Hout in Hr. injection Hr as <-. now left. }
    destruct (forallb valid_key keys) eqn:Hvalid.
    2:{ destruct (restoreCache_rejected env (Some (p :: ps)) primaryKey
                    restoreKeys cacheBasePath w (or_intror Hvalid))
          as ((msg & Hout) & _).
        fold r in Hout. rewrite Hout in Hr. injection Hr as <-. now left. }
    unfold r in Hr. rewrite restoreCache_validated in Hr by assumption.
    cbn [outcome prepend] in Hr.
    apply bind_outcome_throw in Hr as [Hs | ([[cm repo] file] & _ & Hg)].
    + now right.
    + left. now apply restoreCache_guarded_throw in Hg.
  - intros p ps e -> Hle Hvalid Hs. unfold r.
    rewrite restoreCache_validated by assumption. cbn [outcome prepend].
    destruct (restoreCache_setup env cacheBasePath w) as [out w1 ev1] eqn:Hrun.
    cbn [outcome] in Hs. subst out.
    now rewrite (bind_throw_run _ _ _ _ _ _ Hrun).
  - intros p ps cm repo file w1 evs1 e -> Hle Hvalid Hsetup t Ht Hname.
    unfold r. rewrite restoreCache_validated by assumption.
    rewrite (bind_ret_run _ _ _ _ _ _ Hsetup).
    rewrite restoreCache_guarded_run. cbv zeta. fold keys t. rewrite Ht.
    destruct (String.eqb_spec (name e) ValidationError_name); [contradiction |].
    reflexivity.
Qed.

(** C1 (amended): [saveCache] throws only an error named
    ValidationError or an error raised between validation and the [try]
    statement (compression-method resolution, path resolution, the
    resolved set being empty, temp-directory creation, archive-file
    name), and such an error does reach the caller; otherwise it returns
    1 or -1; a failure inside the [try] block (archive creation,
    listing, size, store-root resolution, commit) that is not named
    ValidationError is caught, logged (information for a
    ReserveCacheError, warning otherwise), and the result is -1. *)
Theorem saveCache_failures (env : Env W CM) paths key cacheBasePath (w : W) :
  let r := saveCache env paths key cacheBasePath w in
  (forall e, outcome r = Throw e ->
     name e = ValidationError_name \/
     outcome (saveCache_setup env (suppliedPaths paths) w) = Throw e) /\
  (forall p ps e,
     paths = Some (p :: ps) -> valid_key key = true ->
     outcome (saveCache_setup env (p :: ps) w) = Throw e ->
     outcome r = Throw e) /\
  (forall n, outcome r = Ret n -> n = 1%Z \/ n = (-1)%Z) /\
  (forall p ps cm cps folder ap w1 evs1 e,
     paths = Some (p :: ps) -> valid_key key = true ->
     saveCache_setup env (p :: ps) w =
       mkRun (Ret (cm, cps, folder, ap)) w1 evs1 ->
     outcome (saveCache_try env key cacheBasePath cm cps folder ap w1)
       = Throw e ->
     name e <> ValidationError_name ->
     outcome r = Ret (-1)%Z /\
     In (if (name e =? ReserveCacheError_name)%string
         then EInfo ("Failed to save: " ++ message e)
         else EWarning ("Failed to save: " ++ message e)) (events r)).
Proof.
  intros r.
  assert (Hcases :
    (exists msg, outcome r = Throw (ValidationError msg)) \/
    exists p ps, paths = Some (p :: ps) /\ valid_key key = true /\
      r = (setup <- saveCache_setup env (p :: ps) ;;
           let '(cm, cps, folder, ap) := setup in
           saveCache_guarded env key cacheBasePath cm cps folder ap) w).
  { destruct (paths_cases paths) as [Hnone | (p & ps & ->)].
    - left. unfold r. rewrite (saveCache_no_paths env _ _ _ w Hnone).
      eexists. reflexivity.
    - destruct (valid_key key) eqn:Hkey.
      + right. exists p, ps. repeat split. now apply saveCache_validated.
      + left. destruct (saveCache_rejected env (Some (p :: ps)) key
                          cacheBasePath w Hkey) as [msg Hmsg].
        exists msg. unfold r. now rewrite Hmsg. }
  split; [| split; [| split]].
  - intros e Hr. destruct Hcases as [[msg Hmsg] | (p & ps & -> & Hkey & Hrun)].
    { rewrite Hmsg in Hr. injection Hr as <-. now left. }
    rewrite Hrun in Hr.
    apply bind_outcome_throw in Hr as [Hs | ([[[cm cps] folder] ap] & _ & Hg)].
    + now right.
    + left. rewrite saveCache_guarded_outcome in Hg.
      destruct (outcome (saveCache_try env key cacheBasePath cm cps folder ap _))
        as [n | e']; [discriminate |].
      destruct (String.eqb_spec (name e') ValidationError_name);
        [| discriminate].
      now injection Hg as <-.
  - intros p ps e -> Hkey Hs. unfold r.
    rewrite saveCache_validated by assumption.
    destruct (saveCache_setup env (p :: ps) w) as [out w1 ev1] eqn:Hrun.
    cbn [outcome] in Hs. subst out.
    now rewrite (bind_throw_run _ _ _ _ _ _ Hrun).
  - intros n Hr. destruct Hcases as [[msg Hmsg] | (p & ps & -> & Hkey & Hrun)].
    { rewrite Hmsg in Hr. discriminate. }
    rewrite Hrun in Hr. unfold bind in Hr.
    destruct (saveCache_setup env (p :: ps) w)
      as [[[[[cm cps] folder] ap] | e] w1 ev1]; [| discriminate].
    pose proof (saveCache_guarded_outcome env key cacheBasePath cm cps
                  folder ap w1) as Hg.
    destruct (saveCache_guarded env key cacheBasePath cm cps folder ap w1)
      as [out w2 ev2]. cbn [outcome] in Hr, Hg. subst out.
    destruct (outcome (saveCache_try env key cacheBasePath cm cps folder ap w1))
      as [n' | e']; [left; congruence |].
    destruct (name e' =? ValidationError_name)%string; [discriminate |].
    right. congruence.
  - intros p ps cm cps folder ap w1 evs1 e -> Hkey Hsetup Ht Hname.
    unfold r. rewrite saveCache_validated by assumption.
    rewrite (bind_ret_run _ _ _ _ _ _ Hsetup). cbn [outcome events prepend].
    split.
    + rewrite saveCache_guarded_outcome, Ht.
      now destruct (String.eqb_spec (name e) ValidationError_name).
    + destruct (saveCache_guarded_caught env _ _ _ _ _ _ _ _ Ht Hname)
        as (tail & Hev & _).
      rewrite Hev. apply in_or_app. right. apply in_or_app. right. now left.
Qed.

(** C5: when the commit of a save hits a reservation conflict, that is
    when the [try] block throws an error named ReserveCacheError,
    [saveCache] does not throw: it returns -1, and it reports the error
    with [core.info], not with [core.warning]. *)
Theorem saveCache_reservation_conflict (env : Env W CM)
    p ps key cacheBasePath (w : W) cm cps folder ap w1 evs1 e :
  valid_key key = true ->
  saveCache_setup env (p :: ps) w = mkRun (Ret (cm, cps, folder, ap)) w1 evs1 ->
  outcome (saveCache_try env key cacheBasePath cm cps folder ap w1) = Throw e ->
  name e = ReserveCacheError_name ->
  let r := saveCache env (Some (p :: ps)) key cacheBasePath w in
  outcome r = Ret (-1)%Z /\
  In (EInfo ("Failed to save: " ++ message e)) (events r) /\
  (forall msg, ~ In (EWarning msg) (events r)).
Proof.
  intros Hkey Hsetup Ht Hname r.
  assert (Hne : name e <> ValidationError_name)
    by (rewrite Hname; discriminate).
  unfold r. rewrite saveCache_validated by assumption.
  rewrite (bind_ret_run _ _ _ _ _ _ Hsetup). cbn [outcome events prepend].
  destruct (saveCache_guarded_caught env _ _ _ _ _ _ _ _ Ht Hne)
    as (tail & Hev & Htail).
  rewrite Hname in Hev. cbn [String.eqb Ascii.eqb] in Hev.
  replace (ReserveCacheError_name =? ReserveCacheError_name)%string
    with true in Hev by reflexivity.
  split; [| split].
  - rewrite saveCache_guarded_outcome, Ht.
    now destruct (String.eqb_spec (name e) ValidationError_name).
  - rewrite Hev. apply in_or_app. right. apply in_or_app. right. now left.
  - intros msg Hin. rewrite Hev in Hin.
    pose proof (saveCache_setup_no_warning env (p :: ps) w) as Hs.
    rewrite Hsetup in Hs. cbn [events] in Hs.
    pose proof (saveCache_try_no_warning env key cacheBasePath cm cps
                  folder ap w1) as Htry.
    rewrite Forall_forall in Hs, Htry.
    apply in_app_or in Hin as [Hin | Hin]; [now apply Hs in Hin |].
    apply in_app_or in Hin as [Hin | Hin]; [now apply Htry in Hin |].
    destruct Hin as [Hin | [Hin | Hin]]; try discriminate.
    destruct Htail as [-> | [m ->]]; [contradiction |].
    destruct Hin as [Hin | []]. discriminate.
Qed.

(** C9: the clean-up is asymmetric. [restoreCache] never calls
    [unlinkFile]: the stored archive stays. Once [saveCache] has its
    temporary archive path, it ends with one call of [unlinkFile] on
    that path, whatever the [try] block with its [catch] clause has
    produced, a return of 1 or -1 or a rethrown error, and that product
    is what [saveCache] produces; when the deletion returns nothing
    follows it, and when it throws the failure is logged by one debug
    message, "Failed to delete archive: ..." with the error, and
    nothing else happens; a run of [saveCache] without a call of
    [unlinkFile] is a run that has not started to create an archive;
    replacing [unlinkFile] by any other behaviour, failing or not,
    never changes the outcome of [saveCache]. *)
Theorem cleanup_asymmetry (env : Env W CM) :
  (forall paths primaryKey restoreKeys cacheBasePath (w : W) archivePath,
     ~ In (EUnlinkFile archivePath)
          (events (restoreCache env paths primaryKey restoreKeys
                     cacheBasePath w))) /\
  (forall p ps key cacheBasePath (w : W) cm cps folder ap w1 evs1,
     valid_key key = true ->
     saveCache_setup env (p :: ps) w =
       mkRun (Ret (cm, cps, folder, ap)) w1 evs1 ->
     let b := saveCache_body env key cacheBasePath cm cps folder ap w1 in
     let r := saveCache env (Some (p :: ps)) key cacheBasePath w in
     outcome r = outcome b /\
     exists tail,
       events r = evs1 ++ events b ++ EUnlinkFile ap :: tail /\
       match unlinkFile env ap (world b) with
       | (Ret _, w2) => tail = [] /\ world r = w2
       | (Throw e, w2) =>
           tail = [EDebug ("Failed to delete archive: " ++ error_toString e)]
           /\ world r = w2
       end) /\
  (forall paths key cacheBasePath (w : W),
     let r := saveCache env paths key cacheBasePath w in
     (exists ap, In (EUnlinkFile ap) (events r)) \/
     (forall folder cps cm, ~ In (ECreateTar folder cps cm) (events r))) /\
  (forall u paths key cacheBasePath (w : W),
     outcome (saveCache (with_unlinkFile env u) paths key cacheBasePath w) =
     outcome (saveCache env paths key cacheBasePath w)).
Proof.
  split; [| split; [| split]].
  - intros paths primaryKey restoreKeys cacheBasePath w archivePath Hin.
    pose proof (restoreCache_no_unlink env paths primaryKey restoreKeys
                  cacheBasePath w) as Hall.
    rewrite Forall_forall in Hall. now apply Hall in Hin.
  - intros p ps key cacheBasePath w cm cps folder ap w1 evs1 Hkey Hsetup b r.
    unfold r. rewrite saveCache_validated by assumption.
    rewrite (bind_ret_run _ _ _ _ _ _ Hsetup).
    rewrite saveCache_guarded_exact. cbv zeta. fold b.
    destruct (unlinkFile env ap (world b)) as [[[] | e] w2];
      cbn [outcome events world prepend].
    + split; [reflexivity |]. exists []. now split.
    + split; [reflexivity |]. eexists. split; [reflexivity |]. now split.
  - intros paths key cacheBasePath w r.
    destruct (paths_cases paths) as [Hnone | (p & ps & ->)].
    { right. unfold r. rewrite (saveCache_no_paths env _ _ _ w Hnone).
      intros folder cps cm []. }
    destruct (valid_key key) eqn:Hkey.
    2:{ right. destruct (saveCache_rejected env (Some (p :: ps)) key
                           cacheBasePath w Hkey) as [msg Hmsg].
        unfold r. rewrite Hmsg. intros folder cps cm []. }
    unfold r. rewrite saveCache_validated by assumption.
    pose proof (saveCache_setup_no_createTar env (p :: ps) w) as Hsetup.
    destruct (saveCache_setup env (p :: ps) w)
      as [[[[[cm cps] folder] ap] | e] w1 ev1] eqn:Hrun.
    + left. exists ap. rewrite (bind_ret_run _ _ _ _ _ _ Hrun).
      cbn [events prepend].
      destruct (saveCache_guarded_run env key cacheBasePath cm cps folder ap
                  w1) as (_ & tail & -> & _).
      apply in_or_app. right. apply in_or_app. right. now left.
    + right. rewrite (bind_throw_run _ _ _ _ _ _ Hrun).
      cbn [events] in *. intros folder cps cm Hin.
      rewrite Forall_forall in Hsetup. now apply Hsetup in Hin.
  - intros u paths key cacheBasePath w.
    destruct (paths_cases paths) as [Hnone | (p & ps & ->)].
    { now rewrite !saveCache_no_paths. }
    destruct (valid_key key) eqn:Hkey.
    2:{ unfold saveCache.
        rewrite !(bind_pure _ _ _ _ (checkPaths_some p ps w)).
        destruct (checkKey_invalid (CM := CM) key w Hkey) as [msg Hmsg].
        now rewrite !(bind_throw_run _ _ _ _ _ _ Hmsg). }
    rewrite !saveCache_validated by assumption.
    change (saveCache_setup (with_unlinkFile env u) (p :: ps))
      with (saveCache_setup env (p :: ps)).
    unfold bind.
    destruct (saveCache_setup env (p :: ps) w)
      as [[[[[cm cps] folder] ap] | e] w1 ev1]; [| reflexivity].
    pose proof (saveCache_guarded_outcome env key cacheBasePath cm cps
                  folder ap w1) as Hg.
    pose proof (saveCache_guarded_outcome (with_unlinkFile env u) key
                  cacheBasePath cm cps folder ap w1) as Hg'.
    change (saveCache_try (with_unlinkFile env u)) with (saveCache_try env)
      in Hg'.
    rewrite <- Hg in Hg'.
    destruct (saveCache_guarded env key cacheBasePath cm cps folder ap w1).
    destruct (saveCache_guarded (with_unlinkFile env u) key cacheBasePath
                cm cps folder ap w1).
    exact Hg'.
Qed.

End GuardClaims.

(** ** Runs on the sample store *)

Module Runs.

Import Sample.

Local Open Scope string_scope.

(** The spec's example: a save under a fresh key returns 1, and the
    restore that follows returns the key. *)
Example save_then_restore :
  let saved := saveCache sample (Some ["./dist"]) "build-42" None disk0 in
  outcome saved = Ret 1%Z /\
  outcome (restoreCache sample (Some ["./dist"]) "build-42" None None
             (world saved)) = Ret (Some "build-42").
Proof. split; vm_compute; reflexivity. Qed.

(** Prefix fallback: [foo-xyz] has no entry, the restore key [foo]
    matches [foo-abc] and [foo-def], and the newer archive is the one
    extracted. *)
Example prefix_fallback :
  let r := restoreCache sample (Some ["./dist"]) "foo-xyz" (Some ["foo"]) None
             disk0 in
  outcome r = Ret (Some "foo") /\
  In (EExtractTar "/cache/foo-def/cache.tgz" Gzip) (events r).
Proof. split; vm_compute; [reflexivity | tauto]. Qed.

(** No entry matches: the result is [undefined] and the world is as it
    was. *)
Example no_match :
  let r := restoreCache sample (Some ["./dist"]) "nothing" (Some ["zzz"]) None
             disk0 in
  outcome r = Ret None /\ world r = disk0.
Proof. split; vm_compute; reflexivity. Qed.

(** The empty string is a key [checkKey] accepts and every entry name
    starts with it: the loop ends with it, and line 105 then takes the
    empty [matchedKey] for the absence of a match. *)
Example empty_key_selected :
  outcome (scanKeys sample "/cache" "cache.tgz" (entries disk0) [""; "foo"]
             disk0)
    = Ret ("", "/cache/bar-1/cache.tgz") /\
  outcome (restoreCache sample (Some ["./dist"]) "" (Some ["foo"]) None disk0)
    = Ret None.
Proof. split; vm_compute; reflexivity. Qed.

(** *** Counterexamples *)

(** C1 as stated fails: the paths resolve to nothing, and the error of
    line 170, which is not a ValidationError, reaches the caller. *)
Lemma saveCache_empty_resolution_throws :
  let r := saveCache sample (Some ["./nothing"]) "build-42" None disk0 in
  outcome r = Throw (Error no_paths_message) /\
  name (Error no_paths_message) <> ValidationError_name /\
  outcome r <> Ret (-1)%Z.
Proof.
  vm_compute. repeat split; discriminate.
Qed.

(** C2 as stated fails: compression-method resolution fails, and its
    error, which is not a ValidationError, reaches the caller. *)
Lemma restoreCache_probe_failure_throws :
  let r := restoreCache sample (Some ["./dist"]) "foo" None None
             (with_faults [ProbeFails] disk0) in
  outcome r = Throw (Error "spawn tar ENOENT") /\
  name (Error "spawn tar ENOENT") <> ValidationError_name /\
  outcome r <> Ret None.
Proof.
  vm_compute. repeat split; discriminate.
Qed.

(** *** A defect *)


(** *** Instances *)

Lemma restoreCache_key_limit_witness :
  10 < List.length (resolvedKeys "k0" (Some elevenKeys)) /\
  let r := restoreCache sample (Some ["./dist"]) "k0" (Some elevenKeys) None
             disk0 in
  (exists e, outcome r = Throw e /\ name e = ValidationError_name) /\
  world r = disk0 /\
  forallb is_log (events r) = true.
Proof.
  split; [vm_compute; lia |].
  apply (restoreCache_key_limit sample). vm_compute. lia.
Defined.

Lemma invalid_key_rejected_witness :
  has_comma "a,b" /\
  (exists e,
     outcome (saveCache sample (Some ["./dist"]) "a,b" None disk0) = Throw e /\
     name e = ValidationError_name) /\
  (exists e,
     outcome (restoreCache sample (Some ["./dist"]) "foo" (Some ["a,b"]) None
                disk0) = Throw e /\
     name e = ValidationError_name) /\
  String.length key512 = 512 /\ ~ has_comma key512 /\
  checkKey (CM := Method) key512 disk0 = mkRun (Ret tt) disk0 [].
Proof.
  assert (Hcomma : has_comma "a,b") by (vm_compute; tauto).
  assert (Hlen : String.length key512 = 512) by (vm_compute; reflexivity).
  assert (Hfree : ~ has_comma key512)
    by (apply no_comma_by_test; vm_compute; reflexivity).
  split; [exact Hcomma |].
  split; [| split; [| split; [exact Hlen | split; [exact Hfree |]]]].
  - apply (proj1 (invalid_key_rejected sample "a,b") (or_intror Hcomma)).
  - apply (proj1 (invalid_key_rejected sample "a,b") (or_intror Hcomma)).
    vm_compute. tauto.
  - apply (proj2 (invalid_key_rejected sample key512) Hlen Hfree).
Defined.

Lemma empty_paths_rejected_witness :
  restoreCache sample (Some []) "foo" None None disk0 =
    mkRun (Throw (ValidationError no_path_supplied)) disk0 [] /\
  saveCache sample (Some []) "foo" None disk0 =
    mkRun (Throw (ValidationError no_path_supplied)) disk0 [] /\
  name (ValidationError no_path_supplied) = ValidationError_name /\
  outcome (restoreCache sample (Some []) "foo" None None disk0) <> Ret None.
Proof.
  apply (empty_paths_rejected sample (Some []) (or_intror eq_refl)).
Defined.

Lemma restoreCache_ignores_paths_witness :
  ["./dist"] <> [] /\ ["./a"; "./b"] <> [] /\
  restoreCache sample (Some ["./dist"]) "foo" (Some ["bar"]) None disk0 =
  restoreCache sample (Some ["./a"; "./b"]) "foo" (Some ["bar"]) None disk0.
Proof.
  split; [discriminate |]. split; [discriminate |].
  apply restoreCache_ignores_paths; discriminate.
Defined.



Lemma scanKeys_priority_witness :
  let scan := scanKeys sample "/cache" "cache.tgz" (entries disk0) in
  (forall k, In k ["foo-xyz"] ->
     outcome (matchedCaches sample "/cache" "cache.tgz" (entries disk0) k
                disk0) = Ret []) /\
  outcome (matchedCaches sample "/cache" "cache.tgz" (entries disk0) "foo"
             disk0) = Ret [fooNewest; fooOldest] /\
  readdirSync sample "/cache" disk0 = Ret (entries disk0) /\
  "foo" <> "" /\
  outcome (scan (["foo-xyz"] ++ "foo" :: ["bar"])%list disk0) =
    Ret ("foo", filePath fooNewest) /\
  scan (["foo-xyz"] ++ "foo" :: ["bar"])%list disk0 =
    scan (["foo-xyz"] ++ ["foo"])%list disk0 /\
  restoreCache_try sample (["foo-xyz"] ++ "foo" :: ["bar"])%list Gzip
      "/cache" "cache.tgz" disk0 =
    prepend
      (EReaddirSync "/cache" ::
       events (scan (["foo-xyz"] ++ ["foo"])%list disk0))
      (restoreCache_extract sample "foo" (filePath fooNewest) Gzip disk0).
Proof.
  intros scan.
  assert (Hpre : forall k, In k ["foo-xyz"] ->
            outcome (matchedCaches sample "/cache" "cache.tgz" (entries disk0)
                       k disk0) = Ret []).
  { intros k [<- | []]. vm_compute. reflexivity. }
  assert (Hkey : outcome (matchedCaches sample "/cache" "cache.tgz"
                            (entries disk0) "foo" disk0)
                 = Ret [fooNewest; fooOldest]) by (vm_compute; reflexivity).
  assert (Hdir : readdirSync sample "/cache" disk0 = Ret (entries disk0))
    by reflexivity.
  assert (Hne : "foo" <> "") by discriminate.
  destruct (scanKeys_priority sample "/cache" "cache.tgz" (entries disk0)
              ["foo-xyz"] "foo" ["bar"] fooNewest [fooOldest] disk0 Hpre Hkey)
    as (Hfirst & Hcut & Hgo).
  split; [exact Hpre |]. split; [exact Hkey |]. split; [exact Hdir |].
  split; [exact Hne |]. split; [exact Hfirst |]. split; [exact Hcut |].
  exact (Hgo Gzip Hdir Hne).
Defined.

Lemma restoreCache_failures_witness :
  let broken := with_faults [StoreRootFails] disk0 in
  let torn := with_faults [ExtractTarFails] disk0 in
  let mkdirError := Error "EACCES: permission denied, mkdir" in
  let r := restoreCache sample (Some ["./dist"]) "foo" None None broken in
  let s := restoreCache_setup sample None torn in
  let t := restoreCache_try sample ["foo"] Gzip "/cache" "cache.tgz" torn in
  outcome (restoreCache_setup sample None broken) = Throw mkdirError /\
  outcome r = Throw mkdirError /\
  (name mkdirError = ValidationError_name \/
   outcome (restoreCache_setup sample None broken) = Throw mkdirError) /\
  s = mkRun (Ret (Gzip, "/cache", "cache.tgz")) torn (events s) /\
  outcome t = Throw extractError /\
  name extractError <> ValidationError_name /\
  restoreCache sample (Some ["./dist"]) "foo" None None torn =
    mkRun (Ret None) (world t)
      ([EDebug "Resolved Keys:"; EDebug (JSON_stringify sample ["foo"])] ++
       events s ++ events t ++
       [EWarning ("Failed to restore: " ++ message extractError)])%list.
Proof.
  intros broken torn mkdirError r s t.
  destruct (restoreCache_failures sample (Some ["./dist"]) "foo" None None
              broken) as (Honly & Hescape & _).
  destruct (restoreCache_failures sample (Some ["./dist"]) "foo" None None
              torn) as (_ & _ & Hcaught).
  assert (Hlen : List.length (resolvedKeys "foo" None) <= 10)
    by (vm_compute; lia).
  assert (Hvalid : forallb valid_key (resolvedKeys "foo" None) = true)
    by (vm_compute; reflexivity).
  assert (Hsetup : outcome (restoreCache_setup sample None broken)
                   = Throw mkdirError) by (vm_compute; reflexivity).
  pose proof (Hescape "./dist" [] mkdirError eq_refl Hlen Hvalid Hsetup) as Hr.
  assert (Hs : s = mkRun (Ret (Gzip, "/cache", "cache.tgz")) torn (events s))
    by (vm_compute; reflexivity).
  assert (Ht : outcome t = Throw extractError) by (vm_compute; reflexivity).
  assert (Hname : name extractError <> ValidationError_name) by discriminate.
  split; [exact Hsetup |]. split; [exact Hr |].
  split; [exact (Honly mkdirError Hr) |].
  split; [exact Hs |]. split; [exact Ht |]. split; [exact Hname |].
  exact (Hcaught "./dist" [] Gzip "/cache" "cache.tgz" torn (events s)
           extractError eq_refl Hlen Hvalid Hs Ht Hname).
Defined.

Lemma saveCache_failures_witness :
  let full := with_faults [TempDirFails] disk0 in
  let torn := with_faults [CreateTarFails] disk0 in
  let mkdirError := Error "ENOSPC: no space left on device, mkdir" in
  let r := saveCache sample (Some ["./dist"]) "build-42" None full in
  let ok := saveCache sample (Some ["./dist"]) "build-42" None disk0 in
  let s := saveCache_setup sample ["./dist"] torn in
  let t := saveCache_try sample "build-42" None Gzip ["./dist"] "/tmp/a"
             "/tmp/a/cache.tgz" torn in
  let g := saveCache sample (Some ["./dist"]) "build-42" None torn in
  valid_key "build-42" = true /\
  outcome (saveCache_setup sample ["./dist"] full) = Throw mkdirError /\
  outcome r = Throw mkdirError /\
  (name mkdirError = ValidationError_name \/
   outcome (saveCache_setup sample (suppliedPaths (Some ["./dist"])) full)
     = Throw mkdirError) /\
  outcome ok = Ret 1%Z /\ (1 = 1 \/ 1 = -1)%Z /\
  s = mkRun (Ret (Gzip, ["./dist"], "/tmp/a", "/tmp/a/cache.tgz")) torn
        (events s) /\
  outcome t = Throw extractError /\
  name extractError <> ValidationError_name /\
  outcome g = Ret (-1)%Z /\
  In (EWarning ("Failed to save: " ++ message extractError)) (events g).
Proof.
  intros full torn mkdirError r ok s t g.
  assert (Hkey : valid_key "build-42" = true) by (vm_compute; reflexivity).
  assert (Hsetup : outcome (saveCache_setup sample ["./dist"] full)
                   = Throw mkdirError) by (vm_compute; reflexivity).
  assert (Hok : outcome ok = Ret 1%Z) by (vm_compute; reflexivity).
  assert (Hs : s = mkRun (Ret (Gzip, ["./dist"], "/tmp/a", "/tmp/a/cache.tgz"))
                     torn (events s)) by (vm_compute; reflexivity).
  assert (Ht : outcome t = Throw extractError) by (vm_compute; reflexivity).
  assert (Hname : name extractError <> ValidationError_name) by discriminate.
  destruct (saveCache_failures sample (Some ["./dist"]) "build-42" None full)
    as (Honly & Hescape & _ & _).
  destruct (saveCache_failures sample (Some ["./dist"]) "build-42" None disk0)
    as (_ & _ & Hstatus & _).
  destruct (saveCache_failures sample (Some ["./dist"]) "build-42" None torn)
    as (_ & _ & _ & Hcaught).
  pose proof (Hescape "./dist" [] mkdirError eq_refl Hkey Hsetup) as Hr.
  split; [exact Hkey |]. split; [exact Hsetup |]. split; [exact Hr |].
  split; [exact (Honly mkdirError Hr) |].
  split; [exact Hok |]. split; [exact (Hstatus 1%Z Hok) |].
  split; [exact Hs |]. split; [exact Ht |]. split; [exact Hname |].
  exact (Hcaught "./dist" [] Gzip ["./dist"] "/tmp/a" "/tmp/a/cache.tgz" torn
           (events s) extractError eq_refl Hkey Hs Ht Hname).
Defined.

Lemma saveCache_reservation_conflict_witness :
  let s := saveCache_setup sample ["./dist"] disk1 in
  let r := saveCache sample (Some ["./dist"]) "build-42" None disk1 in
  valid_key "build-42" = true /\
  s = mkRun (Ret (Gzip, ["./dist"], "/tmp/a", "/tmp/a/cache.tgz"))
        (world s) (events s) /\
  outcome (saveCache_try sample "build-42" None Gzip ["./dist"] "/tmp/a"
             "/tmp/a/cache.tgz" (world s)) = Throw conflict /\
  name conflict = ReserveCacheError_name /\
  outcome r = Ret (-1)%Z /\
  In (EInfo ("Failed to save: " ++ message conflict)) (events r) /\
  (forall msg, ~ In (EWarning msg) (events r)).
Proof.
  intros s r.
  assert (Hkey : valid_key "build-42" = true) by (vm_compute; reflexivity).
  assert (Hs : s = mkRun (Ret (Gzip, ["./dist"], "/tmp/a", "/tmp/a/cache.tgz"))
                     (world s) (events s)) by (vm_compute; reflexivity).
  assert (Ht : outcome (saveCache_try sample "build-42" None Gzip ["./dist"]
                          "/tmp/a" "/tmp/a/cache.tgz" (world s))
               = Throw conflict) by (vm_compute; reflexivity).
  assert (Hname : name conflict = ReserveCacheError_name) by reflexivity.
  split; [exact Hkey |]. split; [exact Hs |]. split; [exact Ht |].
  split; [exact Hname |].
  exact (saveCache_reservation_conflict sample "./dist" [] "build-42" None
           disk1 Gzip ["./dist"] "/tmp/a" "/tmp/a/cache.tgz" (world s)
           (events s) conflict Hkey Hs Ht Hname).
Defined.

Lemma cleanup_asymmetry_witness :
  let stuck := with_faults [UnlinkFails] disk0 in
  let s := saveCache_setup sample ["./dist"] stuck in
  let b := saveCache_body sample "build-42" None Gzip ["./dist"] "/tmp/a"
             "/tmp/a/cache.tgz" (world s) in
  let r := saveCache sample (Some ["./dist"]) "build-42" None stuck in
  valid_key "build-42" = true /\
  s = mkRun (Ret (Gzip, ["./dist"], "/tmp/a", "/tmp/a/cache.tgz"))
        (world s) (events s) /\
  unlinkFile sample "/tmp/a/cache.tgz" (world b) =
    (Throw (Error "EPERM: operation not permitted, unlink"), world b) /\
  outcome r = outcome b /\
  events r =
    (events s ++ events b ++
     [EUnlinkFile "/tmp/a/cache.tgz";
      EDebug "Failed to delete archive: Error: EPERM: operation not permitted, unlink"])%list
  /\ world r = world b.
Proof.
  intros stuck s b r.
  assert (Hkey : valid_key "build-42" = true) by (vm_compute; reflexivity).
  assert (Hs : s = mkRun (Ret (Gzip, ["./dist"], "/tmp/a", "/tmp/a/cache.tgz"))
                     (world s) (events s)) by (vm_compute; reflexivity).
  assert (Hu : unlinkFile sample "/tmp/a/cache.tgz" (world b) =
               (Throw (Error "EPERM: operation not permitted, unlink"),
                world b)) by (vm_compute; reflexivity).
  split; [exact Hkey |]. split; [exact Hs |]. split; [exact Hu |].
  destruct (proj1 (proj2 (cleanup_asymmetry sample)) "./dist" [] "build-42" None
              stuck Gzip ["./dist"] "/tmp/a" "/tmp/a/cache.tgz" (world s)
              (events s) Hkey Hs) as (Hout & tail & Hev & Htail).
  fold b r in Hout, Hev, Htail.
  rewrite Hu in Htail. destruct Htail as [-> Hw].
  split; [exact Hout |]. split; [exact Hev | exact Hw].
Defined.

(** The deletion of the temporary archive fails: the save still
    returns 1, and the failure is a debug message. *)
Example unlink_failure_is_logged :
  let r := saveCache sample (Some ["./dist"]) "build-42" None
             (with_faults [UnlinkFails] disk0) in
  outcome r = Ret 1%Z /\
  In (EDebug
        "Failed to delete archive: Error: EPERM: operation not permitted, unlink")
     (events r).
Proof.
  split; vm_compute; [reflexivity | tauto].
Qed.

End Runs.

(** * Further properties *)

(** ** The loop over the keys *)

Section LoopFacts.

Context {W CM : Type}.
Variable env : Env W CM.

Lemma readonly_scanKeys repo file dirEntries keys :
  readonly (scanKeys env repo file dirEntries keys).
Proof.
  induction keys as [| key keys IH]; cbn [scanKeys].
  - apply readonly_ret.
  - apply readonly_bind; [apply readonly_matchedCaches |].
    intros matched. destruct (hd_error matched); [apply readonly_ret | exact IH].
Qed.

Lemma matchedCaches_emits (P : Event CM -> Prop) repo file dirEntries key :
  (forall p, P (EExistsSync p)) -> (forall p, P (EStatSync p)) ->
  emits P (matchedCaches env repo file dirEntries key).
Proof.
  intros Hex Hst. unfold matchedCaches.
  apply emits_bind.
  - apply emits_filterM. intros it. apply emits_read, Hex.
  - intros step3. apply emits_bind; [| intros step4; apply emits_ret].
    apply emits_mapM. intros p. unfold statInfo.
    apply emits_bind; [apply emits_read, Hst | intros s; apply emits_ret].
Qed.

Lemma scanKeys_emits (P : Event CM -> Prop) repo file dirEntries keys :
  (forall p, P (EExistsSync p)) -> (forall p, P (EStatSync p)) ->
  emits P (scanKeys env repo file dirEntries keys).
Proof.
  intros Hex Hst. induction keys as [| key keys IH]; cbn [scanKeys].
  - apply emits_ret.
  - apply emits_bind; [now apply matchedCaches_emits |].
    intros matched. destruct (hd_error matched); [apply emits_ret | exact IH].
Qed.

(** The run of the chain for one key, by its outcome. *)
Lemma matchedCaches_run repo file dirEntries key (w : W) :
  matchedCaches env repo file dirEntries key w =
  mkRun (outcome (matchedCaches env repo file dirEntries key w)) w
        (events (matchedCaches env repo file dirEntries key w)).
Proof.
  rewrite <- (readonly_matchedCaches env repo file dirEntries key w) at 3.
  apply run_eta.
Qed.

Lemma scanKeys_step_none repo file dirEntries key rest (w : W) :
  outcome (matchedCaches env repo file dirEntries key w) = Ret [] ->
  scanKeys env repo file dirEntries (key :: rest) w =
  prepend (events (matchedCaches env repo file dirEntries key w))
          (scanKeys env repo file dirEntries rest w).
Proof.
  intros Hnone. cbn [scanKeys].
  pose proof (matchedCaches_run repo file dirEntries key w) as Hrun.
  rewrite Hnone in Hrun. now rewrite (bind_ret_run _ _ _ _ _ _ Hrun).
Qed.

Lemma scanKeys_step_some repo file dirEntries key rest (w : W) c cs :
  outcome (matchedCaches env repo file dirEntries key w) = Ret (c :: cs) ->
  scanKeys env repo file dirEntries (key :: rest) w =
  mkRun (Ret (key, filePath c)) w
        (events (matchedCaches env repo file dirEntries key w) ++ []).
Proof.
  intros Hsome. cbn [scanKeys].
  pose proof (matchedCaches_run repo file dirEntries key w) as Hrun.
  rewrite Hsome in Hrun. now rewrite (bind_ret_run _ _ _ _ _ _ Hrun).
Qed.

Lemma scanKeys_step_throw repo file dirEntries key rest (w : W) e :
  outcome (matchedCaches env repo file dirEntries key w) = Throw e ->
  scanKeys env repo file dirEntries (key :: rest) w =
  mkRun (Throw e) w (events (matchedCaches env repo file dirEntries key w)).
Proof.
  intros Hthrow. cbn [scanKeys].
  pose proof (matchedCaches_run repo file dirEntries key w) as Hrun.
  rewrite Hthrow in Hrun. now rewrite (bind_throw_run _ _ _ _ _ _ Hrun).
Qed.

(** The loop stops at the first key with a candidate. *)
Lemma scanKeys_hit repo file dirEntries pre key rest c cs (w : W) :
  (forall k, In k pre ->
     outcome (matchedCaches env repo file dirEntries k w) = Ret []) ->
  outcome (matchedCaches env repo file dirEntries key w) = Ret (c :: cs) ->
  scanKeys env repo file dirEntries (pre ++ key :: rest) w =
  mkRun (Ret (key, filePath c)) w
        (events (scanKeys env repo file dirEntries (pre ++ [key]) w)).
Proof.
  intros Hpre Hkey. induction pre as [| k pre IH]; cbn [app].
  - rewrite !(scanKeys_step_some _ _ _ _ _ _ _ _ Hkey). reflexivity.
  - rewrite !(scanKeys_step_none _ _ _ k _ _ (Hpre k (or_introl eq_refl))).
    rewrite IH by (intros k' Hk'; apply Hpre; now right).
    reflexivity.
Qed.

(** The loop passes over every key when none has a candidate. *)
Lemma scanKeys_miss repo file dirEntries keys (w : W) :
  (forall k, In k keys ->
     outcome (matchedCaches env repo file dirEntries k w) = Ret []) ->
  outcome (scanKeys env repo file dirEntries keys w) = Ret (""%string, ""%string).
Proof.
  intros Hnone. induction keys as [| k keys IH]; [reflexivity |].
  rewrite (scanKeys_step_none _ _ _ k _ _ (Hnone k (or_introl eq_refl))).
  cbn [outcome prepend]. apply IH. intros k' Hk'. apply Hnone. now right.
Qed.

(** The loop ends with the first failure of a scan. *)
Lemma scanKeys_throw repo file dirEntries pre key rest e (w : W) :
  (forall k, In k pre ->
     outcome (matchedCaches env repo file dirEntries k w) = Ret []) ->
  outcome (matchedCaches env repo file dirEntries key w) = Throw e ->
  outcome (scanKeys env repo file dirEntries (pre ++ key :: rest) w) = Throw e.
Proof.
  intros Hpre Hkey. induction pre as [| k pre IH]; cbn [app].
  - now rewrite (scanKeys_step_throw _ _ _ _ _ _ _ Hkey).
  - rewrite (scanKeys_step_none _ _ _ k _ _ (Hpre k (or_introl eq_refl))).
    cbn [outcome prepend]. apply IH. intros k' Hk'. apply Hpre. now right.
Qed.

(** What the loop can leave behind. *)
Lemma scanKeys_ret_inv repo file dirEntries keys (w : W) k p :
  outcome (scanKeys env repo file dirEntries keys w) = Ret (k, p) ->
  (k = ""%string /\ p = ""%string) \/
  (In k keys /\
   exists c cs,
     outcome (matchedCaches env repo file dirEntries k w) = Ret (c :: cs) /\
     p = filePath c).
Proof.
  induction keys as [| key keys IH].
  - cbn. intros [= <- <-]. now left.
  - destruct (outcome (matchedCaches env repo file dirEntries key w))
      as [[| c cs] | e] eqn:Hkey.
    + rewrite (scanKeys_step_none _ _ _ _ _ _ Hkey). cbn [outcome prepend].
      intros Hrest. destruct (IH Hrest) as [Hempty | (Hin & Hsel)].
      * now left.
      * right. split; [now right | exact Hsel].
    + rewrite (scanKeys_step_some _ _ _ _ _ _ _ _ Hkey). cbn [outcome].
      intros [= <- <-]. right. split; [now left |]. now exists c, cs.
    + rewrite (scanKeys_step_throw _ _ _ _ _ _ _ Hkey). discriminate.
Qed.

End LoopFacts.

(** ** The anatomy of a restore *)

Section RestoreAnatomy.

Context {W CM : Type}.
Variable env : Env W CM.

Lemma quiet_no_extract (ev : Event CM) : quiet ev = true -> is_extract ev = false.
Proof. now destruct ev. Qed.

Lemma quiet_no_warning (ev : Event CM) : quiet ev = true -> is_warning ev = false.
Proof. now destruct ev. Qed.

Lemma quiet_no_archive (ev : Event CM) :
  quiet ev = true -> uses_archive ev = false.
Proof. now destruct ev. Qed.

Lemma filter_none {A} (f : A -> bool) l :
  Forall (fun a => f a = false) l -> filter f l = [].
Proof.
  induction 1 as [| a l Ha _ IH]; cbn; [reflexivity |]. now rewrite Ha.
Qed.

Ltac cut_last n :=
  match goal with
  | |- exists pre suf, ?l = pre ++ suf /\ _ =>
      exists (firstn (List.length l - n) l), (skipn (List.length l - n) l);
      split; [reflexivity |]; cbn [firstn skipn List.length Nat.sub]
  end.

Ltac all_plain :=
  repeat first [apply Forall_nil | apply Forall_cons; [split; reflexivity |]].

(** The events of lines 110-126 and how they end: the extraction, when
    it is reached, is the last call. *)
Lemma restoreCache_extract_shape k p cm (w : W) :
  let x := restoreCache_extract env k p cm w in
  exists pre suf,
    events x = pre ++ suf /\
    Forall (fun ev => is_extract ev = false /\ is_warning ev = false) pre /\
    ((suf = [] /\ exists e, outcome x = Throw e) \/
     (suf = [EExtractTar p cm] /\ exists e, outcome x = Throw e) \/
     (suf = [EExtractTar p cm; EInfo "Cache restored successfully"] /\
      outcome x = Ret (Some k))).
Proof.
  unfold restoreCache_extract. rewrite bind_debug, bind_ask.
  assert (Hrest : forall w1 : W,
    let y :=
      (archiveFileSize <- call (EGetArchiveFileSizeInBytes p)
                               (getArchiveFileSizeInBytes env p) ;;
       info ("Cache Size: ~" ++ show_N (round_MB archiveFileSize) ++ " MB ("
             ++ show_N archiveFileSize ++ " B)") ;;
       call (EExtractTar p cm) (extractTar env p cm) ;;
       info "Cache restored successfully" ;;
       ret (Some k)) w1 in
    exists pre suf,
      events y = pre ++ suf /\
      Forall (fun ev => is_extract ev = false /\ is_warning ev = false) pre /\
      ((suf = [] /\ exists e, outcome y = Throw e) \/
       (suf = [EExtractTar p cm] /\ exists e, outcome y = Throw e) \/
       (suf = [EExtractTar p cm; EInfo "Cache restored successfully"] /\
        outcome y = Ret (Some k)))).
  { intros w1. cbv zeta. rewrite bind_call.
    destruct (getArchiveFileSizeInBytes env p w1) as [[n | e] w2].
    - rewrite bind_info, bind_call.
      destruct (extractTar env p cm w2) as [[[] | e] w3].
      + rewrite bind_info. cbn [prepend events outcome ret app].
        cut_last 2. split; [all_plain |]. right. right. now split.
      + cbn [prepend events outcome app].
        cut_last 1. split; [all_plain |]. right. left. split; eauto.
    - cbn [events outcome]. exists [EGetArchiveFileSizeInBytes p], [].
      split; [reflexivity |]. split; [all_plain |]. left. split; eauto. }
  assert (Hlift : forall (evs : list (Event CM)) (y : Run W CM (option string)),
    Forall (fun ev => is_extract ev = false /\ is_warning ev = false) evs ->
    (exists pre suf,
      events y = pre ++ suf /\
      Forall (fun ev => is_extract ev = false /\ is_warning ev = false) pre /\
      ((suf = [] /\ exists e, outcome y = Throw e) \/
       (suf = [EExtractTar p cm] /\ exists e, outcome y = Throw e) \/
       (suf = [EExtractTar p cm; EInfo "Cache restored successfully"] /\
        outcome y = Ret (Some k)))) ->
    exists pre suf,
      events (prepend evs y) = pre ++ suf /\
      Forall (fun ev => is_extract ev = false /\ is_warning ev = false) pre /\
      ((suf = [] /\ exists e, outcome (prepend evs y) = Throw e) \/
       (suf = [EExtractTar p cm] /\ exists e, outcome (prepend evs y) = Throw e) \/
       (suf = [EExtractTar p cm; EInfo "Cache restored successfully"] /\
        outcome (prepend evs y) = Ret (Some k)))).
  { intros evs y Hevs (pre & suf & Hev & Hpre & Hend).
    exists (evs ++ pre), suf. cbn [prepend events outcome].
    split; [now rewrite Hev, app_assoc |].
    split; [now apply Forall_app |]. exact Hend. }
  destruct (isDebug env w).
  - rewrite bind_call. destruct (listTar env p cm w) as [[[] | e] w1].
    + rewrite prepend_prepend. apply Hlift; [all_plain | apply Hrest].
    + cbn [prepend events outcome app].
      exists [EDebug ("Archive Path: " ++ p); EListTar p cm], [].
      split; [reflexivity |]. split; [all_plain |]. left. split; eauto.
  - rewrite (bind_pure (ret tt) _ w tt eq_refl).
    apply Hlift; [all_plain | apply Hrest].
Qed.

(** The [try] block up to the selection of an entry. *)
Lemma restoreCache_try_shape keys cm repo file (w : W) :
  let t := restoreCache_try env keys cm repo file w in
  exists probes,
    Forall (fun ev => quiet ev = true) probes /\
    ((exists e, t = mkRun (Throw e) w probes) \/
     t = mkRun (Ret None) w probes \/
     (exists k p,
        k <> ""%string /\ In k keys /\
        t = prepend probes (restoreCache_extract env k p cm w))).
Proof.
  unfold restoreCache_try. rewrite bind_read.
  destruct (readdirSync env repo w) as [dirEntries | e].
  2:{ exists [EReaddirSync repo]. split; [now repeat constructor |].
      left. now exists e. }
  pose proof (readonly_scanKeys env repo file dirEntries keys w) as Hw.
  pose proof (scanKeys_emits env (fun ev => quiet ev = true) repo file
                dirEntries keys (fun _ => eq_refl) (fun _ => eq_refl) w) as Hq.
  pose proof (scanKeys_ret_inv env repo file dirEntries keys w) as Hinv.
  destruct (scanKeys env repo file dirEntries keys w)
    as [[[k p] | e] w1 evs] eqn:Hscan; cbn in Hw, Hq, Hinv; subst w1.
  - rewrite (bind_ret_run _ _ _ _ _ _ Hscan), prepend_prepend.
    exists ([EReaddirSync repo] ++ evs).
    split; [apply Forall_app; split; [now repeat constructor | exact Hq] |].
    destruct (String.eqb_spec k "") as [-> | Hne].
    + right. left. unfold prepend, ret. cbn. now rewrite app_nil_r.
    + right. right. exists k, p. split; [exact Hne |]. split; [| reflexivity].
      destruct (Hinv k p eq_refl) as [[Hk _] | [Hin _]]; [contradiction | exact Hin].
  - rewrite (bind_throw_run _ _ _ _ _ _ Hscan). cbn [prepend outcome world events].
    exists ([EReaddirSync repo] ++ evs).
    split; [apply Forall_app; split; [now repeat constructor | exact Hq] |].
    left. now exists e.
Qed.

Lemma restoreCache_setup_quiet cacheBasePath :
  emits (fun ev : Event CM => quiet ev = true)
        (restoreCache_setup env cacheBasePath).
Proof. unfold restoreCache_setup. emits_auto. Qed.

(** Every run of [restoreCache]: events without warning or use of an
    archive, then either nothing more, or the warning of a caught
    failure, or the use of the one selected entry. *)
Lemma restoreCache_anatomy paths primaryKey restoreKeys cacheBasePath (w : W) :
  let keys := resolvedKeys primaryKey restoreKeys in
  let r := restoreCache env paths primaryKey restoreKeys cacheBasePath w in
  exists pre,
    Forall (fun ev => quiet ev = true) pre /\
    ((events r = pre /\ (outcome r = Ret None \/ exists e, outcome r = Throw e)) \/
     (exists e,
        events r = pre ++ [EWarning ("Failed to restore: " ++ message e)] /\
        outcome r = Ret None) \/
     (exists k p cm w1 tail,
        k <> ""%string /\ In k keys /\
        let x := restoreCache_extract env k p cm w1 in
        events r = pre ++ events x ++ tail /\
        ((tail = [] /\ outcome r = outcome x) \/
         (exists e,
            outcome x = Throw e /\
            tail = [EWarning ("Failed to restore: " ++ message e)] /\
            outcome r = Ret None)))).
Proof.
  intros keys r.
  destruct (paths_cases paths) as [Hnone | (p0 & ps & ->)].
  { exists []. split; [constructor |]. left. unfold r.
    rewrite (restoreCache_no_paths env _ _ _ _ w Hnone). cbn. eauto. }
  assert (Hrej : 10 < List.length keys \/ forallb valid_key keys = false ->
                 exists pre, Forall (fun ev : Event CM => quiet ev = true) pre /\
                   events r = pre /\ exists e, outcome r = Throw e).
  { intros Hbad.
    destruct (restoreCache_rejected env (Some (p0 :: ps)) primaryKey
                restoreKeys cacheBasePath w Hbad) as ((msg & Hout) & _ & Hev).
    fold r in Hout, Hev. exists (events r). split; [| split; eauto].
    destruct Hev as [-> | ->]; now repeat constructor. }
  destruct (Nat.ltb_spec 10 (List.length keys)) as [Hlt | Hle].
  { destruct (Hrej (or_introl Hlt)) as (pre & Hq & Hev & He).
    exists pre. split; [exact Hq |]. left. split; auto. }
  destruct (forallb valid_key keys) eqn:Hvalid.
  2:{ destruct (Hrej (or_intror eq_refl)) as (pre & Hq & Hev & He).
      exists pre. split; [exact Hq |]. left. split; auto. }
  clear Hrej. unfold r. rewrite restoreCache_validated by assumption.
  fold keys.
  pose proof (restoreCache_setup_quiet cacheBasePath w) as Hsq.
  destruct (restoreCache_setup env cacheBasePath w)
    as [[[[cm repo] file] | e] w1 evs1] eqn:Hsetup; cbn [events] in Hsq.
  2:{ rewrite (bind_throw_run _ _ _ _ _ _ Hsetup). cbn [prepend events outcome].
      eexists. split; [| left; split; [reflexivity | eauto]].
      apply Forall_app. split; [now repeat constructor | exact Hsq]. }
  rewrite (bind_ret_run _ _ _ _ _ _ Hsetup), prepend_prepend.
  rewrite restoreCache_guarded_run. cbv zeta.
  destruct (restoreCache_try_shape keys cm repo file w1)
    as (probes & Hpq & Hshape).
  set (lead := ([EDebug "Resolved Keys:"; EDebug (JSON_stringify env keys)]
                ++ evs1)%list).
  assert (Hlead : Forall (fun ev : Event CM => quiet ev = true) lead).
  { apply Forall_app. split; [now repeat constructor | exact Hsq]. }
  exists (lead ++ probes). split; [now apply Forall_app |].
  destruct Hshape as [[e Ht] | [Ht | (k & p & Hne & Hin & Ht)]]; rewrite Ht.
  - cbn [outcome world events prepend].
    destruct (name e =? ValidationError_name)%string.
    + left. cbn [events outcome prepend]. split; [reflexivity | eauto].
    + right. left. exists e. cbn [events outcome prepend].
      split; [now rewrite app_assoc | reflexivity].
  - left. cbn [outcome world events prepend]. split; [reflexivity | auto].
  - right. right.
    set (x := restoreCache_extract env k p cm w1).
    destruct (outcome x) as [v | e] eqn:Hx.
    + exists k, p, cm, w1, []. split; [exact Hne |]. split; [exact Hin |].
      fold x. cbn [outcome prepend events]. rewrite Hx. cbn [outcome prepend events].
      split; [now rewrite app_nil_r, app_assoc |]. left. now split.
    + cbn [outcome prepend events]. rewrite Hx.
      destruct (name e =? ValidationError_name)%string.
      * exists k, p, cm, w1, []. split; [exact Hne |]. split; [exact Hin |].
        fold x. cbn [outcome prepend events].
        split; [now rewrite app_nil_r, app_assoc |]. left. now split.
      * exists k, p, cm, w1, [EWarning ("Failed to restore: " ++ message e)].
        split; [exact Hne |]. split; [exact Hin |].
        fold x. cbn [outcome prepend events world].
        split; [now rewrite !app_assoc |]. right. exists e. auto.
Qed.

(** [restoreCache] from validation to the [try] statement. *)
Lemma restoreCache_reaches_guard p ps primaryKey restoreKeys cacheBasePath
    (w : W) cm repo file w1 evs1 :
  let keys := resolvedKeys primaryKey restoreKeys in
  List.length keys <= 10 -> forallb valid_key keys = true ->
  restoreCache_setup env cacheBasePath w = mkRun (Ret (cm, repo, file)) w1 evs1 ->
  restoreCache env (Some (p :: ps)) primaryKey restoreKeys cacheBasePath w =
  prepend ([EDebug "Resolved Keys:"; EDebug (JSON_stringify env keys)] ++ evs1)
    (restoreCache_guarded env keys cm repo file w1).
Proof.
  intros keys Hle Hvalid Hsetup.
  rewrite restoreCache_validated by assumption. fold keys.
  now rewrite (bind_ret_run _ _ _ _ _ _ Hsetup), prepend_prepend.
Qed.

(** The [try] block when the loop ends with an empty [matchedKey]. *)
Lemma restoreCache_try_unselected keys cm repo file (w : W) dirEntries p :
  readdirSync env repo w = Ret dirEntries ->
  outcome (scanKeys env repo file dirEntries keys w) = Ret (""%string, p) ->
  restoreCache_try env keys cm repo file w =
  mkRun (Ret None) w
    (EReaddirSync repo :: events (scanKeys env repo file dirEntries keys w)).
Proof.
  intros Hdir Hscan. unfold restoreCache_try. rewrite bind_read, Hdir.
  pose proof (readonly_scanKeys env repo file dirEntries keys w) as Hw.
  destruct (scanKeys env repo file dirEntries keys w) as [out w1 evs] eqn:Hrun.
  cbn in Hscan, Hw. subst out w1.
  rewrite (bind_ret_run _ _ _ _ _ _ Hrun). unfold prepend, ret. cbn.
  now rewrite app_nil_r.
Qed.

(** The [try] block when the loop ends with a non-empty key. *)
Lemma restoreCache_try_selected keys cm repo file (w : W) dirEntries k p :
  readdirSync env repo w = Ret dirEntries ->
  outcome (scanKeys env repo file dirEntries keys w) = Ret (k, p) ->
  k <> ""%string ->
  restoreCache_try env keys cm repo file w =
  prepend
    (EReaddirSync repo :: events (scanKeys env repo file dirEntries keys w))
    (restoreCache_extract env k p cm w).
Proof.
  intros Hdir Hscan Hne. unfold restoreCache_try. rewrite bind_read, Hdir.
  pose proof (readonly_scanKeys env repo file dirEntries keys w) as Hw.
  destruct (scanKeys env repo file dirEntries keys w) as [out w1 evs] eqn:Hrun.
  cbn in Hscan, Hw. subst out w1.
  rewrite (bind_ret_run _ _ _ _ _ _ Hrun), prepend_prepend.
  now destruct (String.eqb_spec k "").
Qed.

(** The [try] block when the loop throws. *)
Lemma restoreCache_try_scan_throws keys cm repo file (w : W) dirEntries e :
  readdirSync env repo w = Ret dirEntries ->
  outcome (scanKeys env repo file dirEntries keys w) = Throw e ->
  restoreCache_try env keys cm repo file w =
  mkRun (Throw e) w
    (EReaddirSync repo :: events (scanKeys env repo file dirEntries keys w)).
Proof.
  intros Hdir Hscan. unfold restoreCache_try. rewrite bind_read, Hdir.
  pose proof (readonly_scanKeys env repo file dirEntries keys w) as Hw.
  destruct (scanKeys env repo file dirEntries keys w) as [out w1 evs] eqn:Hrun.
  cbn in Hscan, Hw. subst out w1.
  now rewrite (bind_throw_run _ _ _ _ _ _ Hrun).
Qed.

Lemma scanKeys_quiet repo file dirEntries keys :
  emits (fun ev : Event CM => quiet ev = true)
        (scanKeys env repo file dirEntries keys).
Proof. apply scanKeys_emits; intros; reflexivity. Qed.

End RestoreAnatomy.

(** ** The anatomy of a save *)

Section SaveAnatomy.

Context {W CM : Type}.
Variable env : Env W CM.

Ltac no_stores :=
  repeat first [apply Forall_nil | apply Forall_cons; [reflexivity |]].

(** What lines 163-181 have established when they return. *)
Lemma saveCache_setup_ret_inv paths (w : W) cm cps folder ap w1 evs1 :
  saveCache_setup env paths w = mkRun (Ret (cm, cps, folder, ap)) w1 evs1 ->
  cps <> [] /\
  (exists w0 w0', resolvePaths env paths w0 = (Ret cps, w0')) /\
  exists file, ap = path_join env [folder; file].
Proof.
  unfold saveCache_setup. rewrite bind_call.
  destruct (getCompressionMethod env w) as [[cm0 | e] w2]; [| discriminate].
  rewrite bind_call.
  destruct (resolvePaths env paths w2) as [[cps0 | e] w3] eqn:Hres;
    [| discriminate].
  rewrite !bind_debug.
  destruct cps0 as [| c0 cps0]; [discriminate |]. cbn [List.length Nat.eqb].
  rewrite (bind_pure (ret tt) _ w3 tt eq_refl), bind_call.
  destruct (createTempDirectory env w3) as [[folder0 | e] w4]; [| discriminate].
  rewrite bind_call.
  destruct (getCacheFileName env cm0 w4) as [[file | e] w5]; [| discriminate].
  rewrite bind_debug. cbn. intros [= <- <- <- <- <- <-].
  split; [discriminate |]. split; [now exists w2, w3 |]. now exists file.
Qed.

(** The three ways the [try] block of [saveCache] can end. *)
Lemma saveCache_try_shape key base cm cps folder ap (w : W) :
  let t := saveCache_try env key base cm cps folder ap w in
  (exists rest, events t = ECreateTar folder cps cm :: rest) /\
  ((exists pre root w1 w4 w5,
      events t = pre ++ [EStoreCacheFile ap (path_join env [root; key])] /\
      Forall (fun ev => is_store ev = false) pre /\
      createTar env folder cps cm w = (Ret tt, w1) /\
      storeCacheFile env ap (path_join env [root; key]) w4 = (Ret tt, w5) /\
      t = mkRun (Ret 1%Z) w5 (events t)) \/
   (exists pre root w1 w4 w5 e,
      events t = pre ++ [EStoreCacheFile ap (path_join env [root; key])] /\
      Forall (fun ev => is_store ev = false) pre /\
      createTar env folder cps cm w = (Ret tt, w1) /\
      storeCacheFile env ap (path_join env [root; key]) w4 = (Throw e, w5) /\
      outcome t = Throw e) \/
   (Forall (fun ev => is_store ev = false) (events t) /\
    exists e, outcome t = Throw e)).
Proof.
  unfold saveCache_try. rewrite bind_call.
  destruct (createTar env folder cps cm w) as [[[] | e] w1] eqn:Hcreate.
  2:{ cbn [events outcome]. split; [eauto |]. right. right.
      split; [no_stores | eauto]. }
  rewrite bind_ask.
  assert (Hrest : forall (lead : list (Event CM)) (w2 : W),
    Forall (fun ev => is_store ev = false) lead ->
    let y :=
      prepend lead
        ((archiveFileSize <- call (EGetArchiveFileSizeInBytes ap)
                                  (getArchiveFileSizeInBytes env ap) ;;
          debug ("File Size: " ++ show_N archiveFileSize) ;;
          debug ("Saving Cache (Key: " ++ key ++ ")") ;;
          storeRoot <- call (EGetRepoCacheStorePath base)
                            (getRepoCacheStorePath env base) ;;
          debug ("Cache Store Path: " ++ show_optional base) ;;
          call (EStoreCacheFile ap (path_join env [storeRoot; key]))
               (storeCacheFile env ap (path_join env [storeRoot; key])) ;;
          ret 1%Z) w2) in
    (exists pre root w4 w5,
       events y = pre ++ [EStoreCacheFile ap (path_join env [root; key])] /\
       Forall (fun ev => is_store ev = false) pre /\
       storeCacheFile env ap (path_join env [root; key]) w4 = (Ret tt, w5) /\
       y = mkRun (Ret 1%Z) w5 (events y)) \/
    (exists pre root w4 w5 e,
       events y = pre ++ [EStoreCacheFile ap (path_join env [root; key])] /\
       Forall (fun ev => is_store ev = false) pre /\
       storeCacheFile env ap (path_join env [root; key]) w4 = (Throw e, w5) /\
       outcome y = Throw e) \/
    (Forall (fun ev => is_store ev = false) (events y) /\
     exists e, outcome y = Throw e)).
  { intros lead w2 Hlead. cbv zeta. rewrite bind_call.
    destruct (getArchiveFileSizeInBytes env ap w2) as [[n | e] w3].
    2:{ right. right. cbn [prepend events outcome].
        split; [apply Forall_app; split; [exact Hlead | no_stores] | eauto]. }
    rewrite !bind_debug, bind_call.
    destruct (getRepoCacheStorePath env base w3) as [[root | e] w4].
    2:{ right. right. cbn [prepend events outcome app].
        split; [apply Forall_app; split; [exact Hlead | no_stores] | eauto]. }
    rewrite bind_debug, bind_call.
    destruct (storeCacheFile env ap (path_join env [root; key]) w4)
      as [[[] | e] w5] eqn:Hstore.
    - left. cbn [prepend events outcome world app ret].
      eexists (lead ++ [_; _; _; _; _])%list, root, w4, w5.
      split; [now rewrite <- app_assoc |].
      split; [apply Forall_app; split; [exact Hlead | no_stores] |].
      split; [exact Hstore | reflexivity].
    - right. left. cbn [prepend events outcome world app].
      eexists (lead ++ [_; _; _; _; _])%list, root, w4, w5, e.
      split; [now rewrite <- app_assoc |].
      split; [apply Forall_app; split; [exact Hlead | no_stores] |].
      split; [exact Hstore | reflexivity]. }
  assert (Hwrap : forall y : Run W CM Z,
    ((exists pre root w4 w5,
       events y = pre ++ [EStoreCacheFile ap (path_join env [root; key])] /\
       Forall (fun ev => is_store ev = false) pre /\
       storeCacheFile env ap (path_join env [root; key]) w4 = (Ret tt, w5) /\
       y = mkRun (Ret 1%Z) w5 (events y)) \/
    (exists pre root w4 w5 e,
       events y = pre ++ [EStoreCacheFile ap (path_join env [root; key])] /\
       Forall (fun ev => is_store ev = false) pre /\
       storeCacheFile env ap (path_join env [root; key]) w4 = (Throw e, w5) /\
       outcome y = Throw e) \/
    (Forall (fun ev => is_store ev = false) (events y) /\
     exists e, outcome y = Throw e)) ->
    (exists pre root w1' w4 w5,
      events y = pre ++ [EStoreCacheFile ap (path_join env [root; key])] /\
      Forall (fun ev => is_store ev = false) pre /\
      (Ret tt, w1) = (Ret tt, w1') /\
      storeCacheFile env ap (path_join env [root; key]) w4 = (Ret tt, w5) /\
      y = mkRun (Ret 1%Z) w5 (events y)) \/
   (exists pre root w1' w4 w5 e,
      events y = pre ++ [EStoreCacheFile ap (path_join env [root; key])] /\
      Forall (fun ev => is_store ev = false) pre /\
      (Ret tt, w1) = (Ret tt, w1') /\
      storeCacheFile env ap (path_join env [root; key]) w4 = (Throw e, w5) /\
      outcome y = Throw e) \/
   (Forall (fun ev => is_store ev = false) (events y) /\
    exists e, outcome y = Throw e)).
  { intros y [(pre & root & w4 & w5 & H) | [(pre & root & w4 & w5 & e & H) | H]].
    - left. exists pre, root, w1, w4, w5. tauto.
    - right. left. exists pre, root, w1, w4, w5, e. tauto.
    - right. right. exact H. }
  destruct (isDebug env w1).
  - rewrite bind_call. destruct (listTar env ap cm w1) as [[[] | e] w2].
    + rewrite prepend_prepend. split.
      * cbn [prepend events app]. eauto.
      * apply Hwrap, Hrest. no_stores.
    + cbn [prepend events outcome app]. split; [eauto |]. right. right.
      split; [no_stores | eauto].
  - rewrite (bind_pure (ret tt) _ w1 tt eq_refl). split.
    + cbn [prepend events app]. eauto.
    + apply Hwrap, Hrest. no_stores.
Qed.

(** Lines 163-181, when they return: the chain of helper results. *)
Lemma saveCache_setup_chain paths (w : W) cm cps folder ap w1 evs1 :
  saveCache_setup env paths w = mkRun (Ret (cm, cps, folder, ap)) w1 evs1 ->
  exists file,
    setup_returns env paths w cm cps folder file w1 /\
    ap = path_join env [folder; file].
Proof.
  unfold saveCache_setup, setup_returns. rewrite bind_call.
  destruct (getCompressionMethod env w) as [[cm0 | e] w2] eqn:Hcm;
    [| discriminate].
  rewrite bind_call.
  destruct (resolvePaths env paths w2) as [[cps0 | e] w3] eqn:Hres;
    [| discriminate].
  rewrite !bind_debug.
  destruct cps0 as [| c0 cps0]; [discriminate |]. cbn [List.length Nat.eqb].
  rewrite (bind_pure (ret tt) _ w3 tt eq_refl), bind_call.
  destruct (createTempDirectory env w3) as [[folder0 | e] w4] eqn:Htmp;
    [| discriminate].
  rewrite bind_call.
  destruct (getCacheFileName env cm0 w4) as [[file | e] w5] eqn:Hfile;
    [| discriminate].
  rewrite bind_debug. cbn. intros [= <- <- <- <- <- <-].
  exists file. split; [| reflexivity].
  exists w2, w3, w4. repeat split; try assumption. discriminate.
Qed.

(** The [try] block of [saveCache] when it calls the commit: every
    step before has returned, and the commit is its last call. *)
Lemma saveCache_try_commit_inv key base cm cps folder ap (w : W) a d :
  let t := saveCache_try env key base cm cps folder ap w in
  In (EStoreCacheFile a d) (events t) ->
  exists root w5 mid,
    reaches_commit env base cm cps folder ap w root w5 /\
    a = ap /\ d = path_join env [root; key] /\
    events t = ECreateTar folder cps cm :: mid ++ [EStoreCacheFile ap d] /\
    Forall (fun ev => is_store ev = false) mid /\
    outcome t =
      match storeCacheFile env ap d w5 with
      | (Ret _, _) => Ret 1%Z
      | (Throw e, _) => Throw e
      end /\
    world t = snd (storeCacheFile env ap d w5).
Proof.
  unfold saveCache_try, reaches_commit. rewrite bind_call.
  destruct (createTar env folder cps cm w) as [[[] | e] w2] eqn:Hcreate.
  2:{ cbn. intuition discriminate. }
  rewrite bind_ask.
  assert (Hrest : forall (lead : list (Event CM)) (w3 : W),
    Forall (fun ev => is_store ev = false) lead ->
    let y :=
      prepend (ECreateTar folder cps cm :: lead)
        ((archiveFileSize <- call (EGetArchiveFileSizeInBytes ap)
                                  (getArchiveFileSizeInBytes env ap) ;;
          debug ("File Size: " ++ show_N archiveFileSize) ;;
          debug ("Saving Cache (Key: " ++ key ++ ")") ;;
          storeRoot <- call (EGetRepoCacheStorePath base)
                            (getRepoCacheStorePath env base) ;;
          debug ("Cache Store Path: " ++ show_optional base) ;;
          call (EStoreCacheFile ap (path_join env [storeRoot; key]))
               (storeCacheFile env ap (path_join env [storeRoot; key])) ;;
          ret 1%Z) w3) in
    In (EStoreCacheFile a d) (events y) ->
    exists root w5 mid n w4,
      getArchiveFileSizeInBytes env ap w3 = (Ret n, w4) /\
      getRepoCacheStorePath env base w4 = (Ret root, w5) /\
      a = ap /\ d = path_join env [root; key] /\
      events y = ECreateTar folder cps cm :: mid ++ [EStoreCacheFile ap d] /\
      Forall (fun ev => is_store ev = false) mid /\
      outcome y =
        match storeCacheFile env ap d w5 with
        | (Ret _, _) => Ret 1%Z
        | (Throw e, _) => Throw e
        end /\
      world y = snd (storeCacheFile env ap d w5)).
  { intros lead w3 Hlead. cbv zeta.
    assert (Hno : forall l : list (Event CM),
              Forall (fun ev => is_store ev = false) l ->
              ~ In (EStoreCacheFile a d) l).
    { intros l Hall Hin. rewrite Forall_forall in Hall.
      now apply Hall in Hin. }
    rewrite bind_call.
    destruct (getArchiveFileSizeInBytes env ap w3) as [[n | e] w4] eqn:Hsize.
    2:{ cbn [prepend events app]. intros [H | H]; [discriminate |].
        exfalso. revert H. apply Hno. apply Forall_app. split; [exact Hlead |].
        now repeat constructor. }
    rewrite !bind_debug, bind_call.
    destruct (getRepoCacheStorePath env base w4) as [[root | e] w5] eqn:Hroot.
    2:{ cbn [prepend events app]. intros [H | H]; [discriminate |].
        exfalso. revert H. apply Hno. apply Forall_app. split; [exact Hlead |].
        now repeat constructor. }
    rewrite bind_debug, bind_call.
    destruct (storeCacheFile env ap (path_join env [root; key]) w5)
      as [[[] | e] w6] eqn:Hstore;
      cbn [prepend events outcome world app ret];
      (intros [H | H]; [discriminate |];
       apply in_app_or in H as [H | H]; [now apply Hno in H |];
       repeat (destruct H as [H | H]; [try discriminate |]);
       [| contradiction];
       injection H as <- <-;
       exists root, w5,
         (lead ++ [EGetArchiveFileSizeInBytes ap;
                   EDebug ("File Size: " ++ show_N n);
                   EDebug ("Saving Cache (Key: " ++ key ++ ")");
                   EGetRepoCacheStorePath base;
                   EDebug ("Cache Store Path: " ++ show_optional base)]), n, w4;
       rewrite Hstore;
       repeat split; try assumption;
       [now rewrite <- app_assoc
       | apply Forall_app; split; [exact Hlead | now repeat constructor]]). }
  destruct (isDebug env w2) eqn:Hdbg.
  - rewrite bind_call. destruct (listTar env ap cm w2) as [[[] | e] w3] eqn:Hlist.
    + rewrite !prepend_prepend. cbn [app]. intros Hin.
      destruct (Hrest [EListTar ap cm] w3 ltac:(now repeat constructor) Hin)
        as (root & w5 & mid & n & w4 & Hsize & Hroot & Ha & Hd & Hev & Hmid &
            Hout & Hw).
      exists root, w5, mid. split; [| now repeat split].
      exists w2, w3, n, w4. repeat split; try assumption.
      unfold debug_listing. now rewrite Hdbg.
    + cbn. intuition discriminate.
  - rewrite (bind_pure (ret tt) _ w2 tt eq_refl). intros Hin.
    destruct (Hrest [] w2 ltac:(constructor) Hin)
      as (root & w5 & mid & n & w4 & Hsize & Hroot & Ha & Hd & Hev & Hmid &
          Hout & Hw).
    exists root, w5, mid. split; [| now repeat split].
    exists w2, w2, n, w4. repeat split; try assumption.
    unfold debug_listing. now rewrite Hdbg.
Qed.

(** Every run of [saveCache]: a validation error, a failure between
    validation and the [try] statement, or the [try] statement after
    the events of lines 163-181. *)
Lemma saveCache_anatomy paths key cacheBasePath (w : W) :
  let r := saveCache env paths key cacheBasePath w in
  (exists msg, r = mkRun (Throw (ValidationError msg)) w []) \/
  (exists e w1 evs1,
     saveCache_setup env (suppliedPaths paths) w = mkRun (Throw e) w1 evs1 /\
     r = mkRun (Throw e) w1 evs1) \/
  (exists cm cps folder ap w1 evs1,
     saveCache_setup env (suppliedPaths paths) w =
       mkRun (Ret (cm, cps, folder, ap)) w1 evs1 /\
     r = prepend evs1
           (saveCache_guarded env key cacheBasePath cm cps folder ap w1)).
Proof.
  intros r.
  destruct (paths_cases paths) as [Hnone | (p & ps & ->)].
  { left. exists no_path_supplied. now apply saveCache_no_paths. }
  destruct (valid_key key) eqn:Hkey.
  2:{ left. now apply saveCache_rejected. }
  right. unfold r. rewrite saveCache_validated by assumption.
  cbn [suppliedPaths].
  destruct (saveCache_setup env (p :: ps) w)
    as [[[[[cm cps] folder] ap] | e] w1 evs1] eqn:Hsetup.
  - right. exists cm, cps, folder, ap, w1, evs1. split; [reflexivity |].
    now rewrite (bind_ret_run _ _ _ _ _ _ Hsetup).
  - left. exists e, w1, evs1. split; [reflexivity |].
    now rewrite (bind_throw_run _ _ _ _ _ _ Hsetup).
Qed.

End SaveAnatomy.

(** ** Validation messages, debug listing, the sort *)

Section MoreFacts.

Context {W CM : Type}.
Variable env : Env W CM.

Lemma checkKey_invalid_message key (w : W) :
  valid_key key = false ->
  checkKey (CM := CM) key w =
  mkRun (Throw (ValidationError (key_message key))) w [].
Proof.
  unfold valid_key, checkKey, key_message.
  rewrite andb_false_iff, Nat.leb_gt.
  destruct (Nat.ltb_spec 512 (String.length key)) as [Hlt | Hle].
  - reflexivity.
  - intros [Hlen | Hre]; [lia |]. now rewrite Hre.
Qed.

Lemma checkKeys_first_invalid pre key post (w : W) :
  forallb valid_key pre = true -> valid_key key = false ->
  checkKeys (CM := CM) (pre ++ key :: post) w =
  mkRun (Throw (ValidationError (key_message key))) w [].
Proof.
  intros Hpre Hkey. induction pre as [| k pre IH]; cbn [app checkKeys].
  - now rewrite (bind_throw_run _ _ _ _ _ _ (checkKey_invalid_message key w Hkey)).
  - cbn [forallb] in Hpre. apply andb_true_iff in Hpre as [Hk Hpre].
    rewrite (bind_pure _ _ _ _ (checkKey_valid (CM := CM) k w Hk)).
    now apply IH.
Qed.

(** Lines 112-114: the listing is made in debug mode only, on the
    selected archive. *)
Lemma restoreCache_extract_list_inv k p cm (w : W) a c :
  In (EListTar a c) (events (restoreCache_extract env k p cm w)) ->
  isDebug env w = true /\ a = p /\ c = cm.
Proof.
  unfold restoreCache_extract. rewrite bind_debug, bind_ask.
  destruct (isDebug env w) eqn:Hdbg.
  - rewrite bind_call. destruct (listTar env p cm w) as [[[] | e] w0].
    + rewrite prepend_prepend, bind_call.
      destruct (getArchiveFileSizeInBytes env p w0) as [[n | e] w1].
      * rewrite bind_info, bind_call.
        destruct (extractTar env p cm w1) as [[[] | e] w2].
        -- rewrite bind_info. cbn.
           intros [H | [H | H]]; try discriminate.
           ++ now injection H as <- <-.
           ++ intuition discriminate.
        -- cbn. intros [H | [H | H]]; try discriminate.
           ++ now injection H as <- <-.
           ++ intuition discriminate.
      * cbn. intros [H | [H | H]]; try discriminate.
        -- now injection H as <- <-.
        -- intuition discriminate.
    + cbn. intros [H | [H | []]]; try discriminate.
      now injection H as <- <-.
  - rewrite (bind_pure (ret tt) _ w tt eq_refl), bind_call.
    destruct (getArchiveFileSizeInBytes env p w) as [[n | e] w1].
    + rewrite bind_info, bind_call.
      destruct (extractTar env p cm w1) as [[[] | e] w2].
      * rewrite bind_info. cbn. intuition discriminate.
      * cbn. intuition discriminate.
    + cbn. intuition discriminate.
Qed.

(** Lines 185-187, likewise: on the archive just created. *)
Lemma saveCache_try_list_inv key base cm cps folder ap (w : W) a c :
  In (EListTar a c) (events (saveCache_try env key base cm cps folder ap w)) ->
  exists w1,
    createTar env folder cps cm w = (Ret tt, w1) /\
    isDebug env w1 = true /\ a = ap /\ c = cm.
Proof.
  unfold saveCache_try. rewrite bind_call.
  destruct (createTar env folder cps cm w) as [[[] | e] w1].
  2:{ cbn. intuition discriminate. }
  rewrite bind_ask.
  assert (Hrest : forall w2 : W,
    ~ In (EListTar a c)
        (events
           ((archiveFileSize <- call (EGetArchiveFileSizeInBytes ap)
                                     (getArchiveFileSizeInBytes env ap) ;;
             debug ("File Size: " ++ show_N archiveFileSize) ;;
             debug ("Saving Cache (Key: " ++ key ++ ")") ;;
             storeRoot <- call (EGetRepoCacheStorePath base)
                               (getRepoCacheStorePath env base) ;;
             debug ("Cache Store Path: " ++ show_optional base) ;;
             call (EStoreCacheFile ap (path_join env [storeRoot; key]))
                  (storeCacheFile env ap (path_join env [storeRoot; key])) ;;
             ret 1%Z) w2))).
  { intros w2. rewrite bind_call.
    destruct (getArchiveFileSizeInBytes env ap w2) as [[n | e] w3].
    2:{ cbn. intuition discriminate. }
    rewrite !bind_debug, bind_call.
    destruct (getRepoCacheStorePath env base w3) as [[root | e] w4].
    2:{ cbn. intuition discriminate. }
    rewrite bind_debug, bind_call.
    destruct (storeCacheFile env ap (path_join env [root; key]) w4)
      as [[[] | e] w5]; cbn; intuition discriminate. }
  destruct (isDebug env w1) eqn:Hdbg.
  - rewrite bind_call. destruct (listTar env ap cm w1) as [[[] | e] w2].
    + rewrite prepend_prepend. cbn [events prepend app].
      intros [H | [H | H]]; try discriminate.
      * injection H as <- <-. now exists w1.
      * now apply Hrest in H.
    + cbn. intros [H | [H | []]]; try discriminate.
      injection H as <- <-. now exists w1.
  - rewrite (bind_pure (ret tt) _ w1 tt eq_refl). cbn [events prepend app].
    intros [H | H]; [discriminate | now apply Hrest in H].
Qed.

(** The archive is created once, as the first call of the [try]
    block. *)
Lemma saveCache_try_one_createTar key base cm cps folder ap (w : W) :
  exists rest,
    events (saveCache_try env key base cm cps folder ap w) =
      ECreateTar folder cps cm :: rest /\
    Forall (fun ev => is_createTar ev = false) rest.
Proof.
  unfold saveCache_try. rewrite bind_call.
  destruct (createTar env folder cps cm w) as [[[] | e] w1].
  2:{ exists []. split; [reflexivity | constructor]. }
  match goal with |- context [prepend _ (?k w1)] =>
    assert (Hk : emits (fun ev : Event CM => is_createTar ev = false) k)
      by emits_auto;
    exists (events (k w1)); split; [reflexivity | apply Hk]
  end.
Qed.

(** *** The sort *)

Lemma insert_desc_perm a l : Permutation (insert_desc a l) (a :: l).
Proof.
  induction l as [| b l IH]; cbn; [reflexivity |].
  destruct (mtime (stats b) <=? mtime (stats a))%Z; [reflexivity |].
  rewrite IH. apply perm_swap.
Qed.

Lemma sort_desc_perm l : Permutation (sort_desc l) l.
Proof.
  induction l as [| a l IH]; cbn; [reflexivity |].
  rewrite insert_desc_perm. now constructor.
Qed.

End MoreFacts.

(** ** Whole runs, step by step *)

Section RunFacts.

Context {W CM : Type}.
Variable env : Env W CM.

Lemma no_listTar_in (l : list (Event CM)) a c :
  Forall (fun ev => is_listTar ev = false) l -> ~ In (EListTar a c) l.
Proof.
  intros Hall Hin. rewrite Forall_forall in Hall. now apply Hall in Hin.
Qed.

Lemma quiet_no_listTar (l : list (Event CM)) :
  Forall (fun ev => quiet ev = true) l ->
  Forall (fun ev => is_listTar ev = false) l.
Proof. apply Forall_impl. intros ev. now destruct ev. Qed.

(** The [try] block of [restoreCache] lists an archive only after the
    loop has selected it, in debug mode. *)
Lemma restoreCache_try_list_inv keys cm repo file (w : W) a c :
  In (EListTar a c) (events (restoreCache_try env keys cm repo file w)) ->
  exists dirEntries k,
    readdirSync env repo w = Ret dirEntries /\
    outcome (scanKeys env repo file dirEntries keys w) = Ret (k, a) /\
    k <> ""%string /\
    isDebug env w = true /\ c = cm.
Proof.
  intros Hin.
  destruct (readdirSync env repo w) as [dirEntries | e] eqn:Hdir.
  2:{ exfalso. revert Hin. unfold restoreCache_try.
      rewrite bind_read, Hdir. cbn. intuition discriminate. }
  pose proof (scanKeys_quiet env repo file dirEntries keys w) as Hq.
  apply quiet_no_listTar in Hq.
  destruct (outcome (scanKeys env repo file dirEntries keys w))
    as [[k p] | e] eqn:Hscan.
  - destruct (String.eqb_spec k "") as [-> | Hne].
    + exfalso. revert Hin.
      rewrite (restoreCache_try_unselected env _ _ _ _ _ _ _ Hdir Hscan).
      cbn [events]. intros [H | H]; [discriminate |].
      now apply no_listTar_in in H.
    + rewrite (restoreCache_try_selected env _ _ _ _ _ _ _ _ Hdir Hscan Hne)
        in Hin.
      cbn [events prepend] in Hin.
      destruct Hin as [H | H]; [discriminate |].
      apply in_app_or in H as [H | H]; [now apply no_listTar_in in H |].
      destruct (restoreCache_extract_list_inv env _ _ _ _ _ _ H)
        as (Hdbg & -> & ->).
      now exists dirEntries, k.
  - exfalso. revert Hin.
    rewrite (restoreCache_try_scan_throws env _ _ _ _ _ _ _ Hdir Hscan).
    cbn [events]. intros [H | H]; [discriminate |].
    now apply no_listTar_in in H.
Qed.

(** The [try] statement of [saveCache], from its [try] block: the
    status, the report of a caught error, and the deletion. *)
Lemma saveCache_guarded_cases key base cm cps folder ap (w : W) :
  let t := saveCache_try env key base cm cps folder ap w in
  let g := saveCache_guarded env key base cm cps folder ap w in
  world g = snd (unlinkFile env ap (world t)) /\
  match outcome t with
  | Ret n =>
      outcome g = Ret n /\
      events g =
        events t ++ EUnlinkFile ap :: unlink_report env ap (world t)
  | Throw e =>
      if (name e =? ValidationError_name)%string
      then outcome g = Throw e /\
           events g =
             events t ++ EUnlinkFile ap :: unlink_report env ap (world t)
      else outcome g = Ret (-1)%Z /\
           events g =
             events t ++
             (if (name e =? ReserveCacheError_name)%string
              then EInfo ("Failed to save: " ++ message e)
              else EWarning ("Failed to save: " ++ message e)) ::
             EUnlinkFile ap :: unlink_report env ap (world t)
  end.
Proof.
  intros t g.
  assert (Hg : outcome g = outcome (saveCache_body env key base cm cps folder ap w) /\
               events g =
                 events (saveCache_body env key base cm cps folder ap w) ++
                 EUnlinkFile ap ::
                 unlink_report env ap
                   (world (saveCache_body env key base cm cps folder ap w)) /\
               world g =
                 snd (unlinkFile env ap
                        (world (saveCache_body env key base cm cps folder ap w)))).
  { unfold g. pose proof (saveCache_guarded_exact env key base cm cps folder ap w) as H.
    cbv zeta in H. rewrite H. unfold unlink_report.
    destruct (unlinkFile env ap
                (world (saveCache_body env key base cm cps folder ap w)))
      as [[[] | e] w1]; cbn; auto. }
  destruct Hg as (Hout & Hev & Hw).
  rewrite Hout, Hev, Hw, saveCache_body_run. fold t.
  destruct (outcome t) as [n | e] eqn:Ht.
  - auto.
  - cbn [outcome world events prepend]. rewrite saveCache_catch_run.
    destruct (name e =? ValidationError_name)%string.
    + cbn [outcome world events]. now rewrite app_nil_r.
    + destruct (name e =? ReserveCacheError_name)%string;
        cbn [outcome world events]; now rewrite <- app_assoc.
Qed.

(** The events the [try] statement of [saveCache] adds after those of
    its [try] block hold no commit. *)
Lemma saveCache_guarded_after_try key base cm cps folder ap (w : W) :
  let t := saveCache_try env key base cm cps folder ap w in
  exists rest,
    events (saveCache_guarded env key base cm cps folder ap w) =
      events t ++ rest /\
    Forall (fun ev => is_store ev = false) rest /\
    Forall (fun ev => is_listTar ev = false) rest.
Proof.
  intros t.
  destruct (saveCache_guarded_cases key base cm cps folder ap w) as (_ & H).
  fold t in H.
  assert (Hrep : forall w' : W,
            Forall (fun ev : Event CM => is_store ev = false)
                   (unlink_report env ap w') /\
            Forall (fun ev : Event CM => is_listTar ev = false)
                   (unlink_report env ap w')).
  { intros w'. unfold unlink_report.
    destruct (unlinkFile env ap w') as [[[] | e] w2];
      split; now repeat constructor. }
  destruct (Hrep (world t)) as (Hs & Hl).
  destruct (outcome t) as [n | e].
  - destruct H as (_ & ->). eexists. split; [reflexivity |].
    split; now constructor.
  - destruct (name e =? ValidationError_name)%string.
    + destruct H as (_ & ->). eexists. split; [reflexivity |].
      split; now constructor.
    + destruct H as (_ & ->). eexists. split; [reflexivity |].
      destruct (name e =? ReserveCacheError_name)%string;
        split; now repeat constructor.
Qed.

(** A [try] block of [saveCache] that returns has committed. *)
Lemma saveCache_try_ret_commits key base cm cps folder ap (w : W) n :
  outcome (saveCache_try env key base cm cps folder ap w) = Ret n ->
  exists d,
    In (EStoreCacheFile ap d)
       (events (saveCache_try env key base cm cps folder ap w)).
Proof.
  intros Ht.
  destruct (saveCache_try_shape env key base cm cps folder ap w)
    as (_ & [(pre & root & w1 & w4 & w5 & Hev & _) |
             [(pre & root & w1 & w4 & w5 & e & _ & _ & _ & _ & He) |
              (_ & e & He)]]); try congruence.
  exists (path_join env [root; key]). rewrite Hev.
  apply in_or_app. right. now left.
Qed.

End RunFacts.

(** ** What a restore reports and does *)

Section RestoreExtras.

Context {W CM : Type}.

Lemma Forall_plain_no_extract (l : list (Event CM)) :
  Forall (fun ev => is_extract ev = false /\ is_warning ev = false) l ->
  Forall (fun ev => is_extract ev = false) l.
Proof. apply Forall_impl. tauto. Qed.

Lemma Forall_plain_no_warning (l : list (Event CM)) :
  Forall (fun ev => is_extract ev = false /\ is_warning ev = false) l ->
  Forall (fun ev => is_warning ev = false) l.
Proof. apply Forall_impl. tauto. Qed.

Lemma Forall_quiet_plain (l : list (Event CM)) :
  Forall (fun ev => quiet ev = true) l ->
  Forall (fun ev => is_extract ev = false /\ is_warning ev = false) l.
Proof.
  apply Forall_impl. intros ev Hq.
  split; [now apply quiet_no_extract | now apply quiet_no_warning].
Qed.

Lemma not_warning_in (l : list (Event CM)) msg :
  Forall (fun ev => is_warning ev = false) l -> ~ In (EWarning msg) l.
Proof.
  intros Hall Hin. rewrite Forall_forall in Hall. now apply Hall in Hin.
Qed.

(** X1: a key returned by [restoreCache] is one of the keys it was
    given (the key, not the name of the entry it matched by prefix) and
    is not the empty string; the run then ends with the extraction of
    one archive followed by the success message, and nothing before
    that is an extraction or a warning. *)
Theorem restoreCache_returns_supplied_key (env : Env W CM)
    paths primaryKey restoreKeys cacheBasePath (w : W) key :
  let r := restoreCache env paths primaryKey restoreKeys cacheBasePath w in
  outcome r = Ret (Some key) ->
  In key (resolvedKeys primaryKey restoreKeys) /\
  key <> ""%string /\
  exists pre archivePath compressionMethod,
    events r = pre ++ [EExtractTar archivePath compressionMethod;
                       EInfo "Cache restored successfully"] /\
    Forall (fun ev => is_extract ev = false /\ is_warning ev = false) pre.
Proof.
  intros r Hr.
  destruct (restoreCache_anatomy env paths primaryKey restoreKeys
              cacheBasePath w) as (pre & Hq & Hcases).
  fold r in Hcases.
  destruct Hcases as [(_ & [Hn | [e He]]) | [(e & _ & Hn) |
    (k & p & cm & w1 & tail & Hne & Hin & Hev & Hend)]]; try congruence.
  destruct Hend as [(-> & Hout) | (e & _ & _ & Hn)]; [| congruence].
  destruct (restoreCache_extract_shape env k p cm w1)
    as (pre' & suf & Hx & Hplain & Hsuf).
  rewrite Hr in Hout.
  destruct Hsuf as [(_ & e & He) | [(_ & e & He) | (-> & Hk)]];
    try congruence.
  rewrite Hk in Hout. injection Hout as Hkey. subst key.
  split; [exact Hin |]. split; [exact Hne |].
  exists (pre ++ pre'), p, cm. split.
  - rewrite Hev, Hx, app_nil_r. now rewrite app_assoc.
  - apply Forall_app. split; [now apply Forall_quiet_plain | exact Hplain].
Qed.

(** X2: a run of [restoreCache] calls [extractTar] at most once. *)
Theorem restoreCache_extracts_at_most_once (env : Env W CM)
    paths primaryKey restoreKeys cacheBasePath (w : W) :
  List.length
    (filter is_extract
       (events (restoreCache env paths primaryKey restoreKeys cacheBasePath w)))
  <= 1.
Proof.
  destruct (restoreCache_anatomy env paths primaryKey restoreKeys
              cacheBasePath w) as (pre & Hq & Hcases).
  assert (Hpre : filter is_extract pre = []).
  { apply filter_none. revert Hq. apply Forall_impl.
    intros ev. apply quiet_no_extract. }
  destruct Hcases as [(-> & _) | [(e & -> & _) |
    (k & p & cm & w1 & tail & _ & _ & -> & Hend)]].
  - rewrite Hpre. cbn. lia.
  - rewrite filter_app, Hpre. cbn. lia.
  - destruct (restoreCache_extract_shape env k p cm w1)
      as (pre' & suf & -> & Hplain & Hsuf).
    rewrite !filter_app, Hpre.
    rewrite (filter_none _ _ (Forall_plain_no_extract _ Hplain)).
    assert (Htail : filter is_extract tail = []).
    { destruct Hend as [(-> & _) | (e & _ & -> & _)]; reflexivity. }
    rewrite Htail.
    destruct Hsuf as [(-> & _) | [(-> & _) | (-> & _)]]; cbn; lia.
Qed.

(** X3: a warning in a run of [restoreCache] is the last event of the
    run, it is the only warning, it reads "Failed to restore: ..." and
    the result is [undefined]. *)
Theorem restoreCache_warning_means_undefined (env : Env W CM)
    paths primaryKey restoreKeys cacheBasePath (w : W) msg :
  let r := restoreCache env paths primaryKey restoreKeys cacheBasePath w in
  In (EWarning msg) (events r) ->
  outcome r = Ret None /\
  exists pre e,
    msg = ("Failed to restore: " ++ message e)%string /\
    events r = pre ++ [EWarning msg] /\
    Forall (fun ev => is_warning ev = false) pre.
Proof.
  intros r Hin.
  destruct (restoreCache_anatomy env paths primaryKey restoreKeys
              cacheBasePath w) as (pre & Hq & Hcases).
  fold r in Hcases.
  assert (Hpre : Forall (fun ev : Event CM => is_warning ev = false) pre).
  { revert Hq. apply Forall_impl. intros ev. apply quiet_no_warning. }
  destruct Hcases as [(Hev & _) | [(e & Hev & Hout) |
    (k & p & cm & w1 & tail & _ & _ & Hev & Hend)]]; rewrite Hev in Hin.
  - now apply not_warning_in in Hin.
  - apply in_app_or in Hin as [Hin | [Hin | []]];
      [now apply not_warning_in in Hin |].
    injection Hin as <-. split; [exact Hout |]. now exists pre, e.
  - destruct (restoreCache_extract_shape env k p cm w1)
      as (pre' & suf & Hx & Hplain & Hsuf).
    assert (Hxw : Forall (fun ev : Event CM => is_warning ev = false)
                    (events (restoreCache_extract env k p cm w1))).
    { rewrite Hx. apply Forall_app. split.
      - now apply Forall_plain_no_warning.
      - destruct Hsuf as [(-> & _) | [(-> & _) | (-> & _)]];
          now repeat constructor. }
    apply in_app_or in Hin as [Hin | Hin];
      [now apply not_warning_in in Hin |].
    apply in_app_or in Hin as [Hin | Hin];
      [now apply not_warning_in in Hin |].
    destruct Hend as [(-> & _) | (e & _ & -> & Hout)]; [contradiction |].
    destruct Hin as [Hin | []]. injection Hin as <-.
    split; [exact Hout |].
    exists (pre ++ events (restoreCache_extract env k p cm w1)), e.
    split; [reflexivity |]. split; [now rewrite Hev, app_assoc |].
    now apply Forall_app.
Qed.

(** X4: when [restoreCache] returns [undefined] without a warning, no
    archive has been listed, measured or extracted. *)
Theorem restoreCache_silent_undefined (env : Env W CM)
    paths primaryKey restoreKeys cacheBasePath (w : W) :
  let r := restoreCache env paths primaryKey restoreKeys cacheBasePath w in
  outcome r = Ret None ->
  (forall msg, ~ In (EWarning msg) (events r)) ->
  Forall (fun ev => uses_archive ev = false) (events r).
Proof.
  intros r Hout Hsilent.
  destruct (restoreCache_anatomy env paths primaryKey restoreKeys
              cacheBasePath w) as (pre & Hq & Hcases).
  fold r in Hcases.
  destruct Hcases as [(Hev & _) | [(e & Hev & _) |
    (k & p & cm & w1 & tail & _ & _ & Hev & Hend)]].
  - rewrite Hev. revert Hq. apply Forall_impl. intros ev.
    apply quiet_no_archive.
  - exfalso. apply (Hsilent ("Failed to restore: " ++ message e)%string).
    rewrite Hev. apply in_or_app. right. now left.
  - exfalso. destruct Hend as [(-> & Hx) | (e & _ & -> & _)].
    + destruct (restoreCache_extract_shape env k p cm w1)
        as (pre' & suf & _ & _ & Hsuf).
      rewrite Hout in Hx.
      destruct Hsuf as [(_ & e & He) | [(_ & e & He) | (_ & Hk)]]; congruence.
    + apply (Hsilent ("Failed to restore: " ++ message e)%string).
      rewrite Hev. apply in_or_app. right. apply in_or_app. right. now left.
Qed.

Lemma lead_quiet (env : Env W CM) keys (evs1 : list (Event CM)) :
  Forall (fun ev => quiet ev = true) evs1 ->
  Forall (fun ev => quiet ev = true)
    ([EDebug "Resolved Keys:"; EDebug (JSON_stringify env keys)] ++ evs1).
Proof. intros H. apply Forall_app. split; [now repeat constructor | exact H]. Qed.

Lemma setup_events_quiet (env : Env W CM) cacheBasePath (w : W) out w1 evs1 :
  restoreCache_setup env cacheBasePath w = mkRun out w1 evs1 ->
  Forall (fun ev => quiet ev = true) evs1.
Proof.
  intros Hsetup. pose proof (restoreCache_setup_quiet env cacheBasePath w) as H.
  now rewrite Hsetup in H.
Qed.

(** X5: when validation and the three helper calls pass, the store
    directory can be listed and no key has a candidate, [restoreCache]
    returns [undefined], logs no warning, touches no archive, and
    leaves the world as the helper calls left it. *)
Theorem restoreCache_no_match (env : Env W CM)
    p ps primaryKey restoreKeys cacheBasePath (w : W)
    cm repo file w1 evs1 dirEntries :
  let keys := resolvedKeys primaryKey restoreKeys in
  let r := restoreCache env (Some (p :: ps)) primaryKey restoreKeys
             cacheBasePath w in
  List.length keys <= 10 -> forallb valid_key keys = true ->
  restoreCache_setup env cacheBasePath w = mkRun (Ret (cm, repo, file)) w1 evs1 ->
  readdirSync env repo w1 = Ret dirEntries ->
  (forall k, In k keys ->
     outcome (matchedCaches env repo file dirEntries k w1) = Ret []) ->
  outcome r = Ret None /\ world r = w1 /\
  Forall (fun ev => quiet ev = true) (events r).
Proof.
  intros keys r Hle Hvalid Hsetup Hdir Hnone. unfold r.
  rewrite (restoreCache_reaches_guard env _ _ _ _ _ _ _ _ _ _ _ Hle Hvalid Hsetup).
  fold keys. rewrite restoreCache_guarded_run. cbv zeta.
  rewrite (restoreCache_try_unselected env keys cm repo file w1 dirEntries ""
             Hdir (scanKeys_miss env _ _ _ _ _ Hnone)).
  cbn [outcome world events prepend]. repeat split.
  apply Forall_app. split.
  - apply lead_quiet. exact (setup_events_quiet env _ _ _ _ _ Hsetup).
  - constructor; [reflexivity | apply scanKeys_quiet].
Qed.

(** X6: the empty string passes [checkKey] and is a prefix of every
    entry name, yet [restoreCache] never restores for it: when the loop
    stops at the empty key, whatever the keys after it, the result is
    [undefined] and no archive is touched, although a candidate was
    found. *)
Theorem restoreCache_empty_key_matches_nothing (env : Env W CM)
    p ps primaryKey restoreKeys cacheBasePath (w : W)
    cm repo file w1 evs1 dirEntries pre post c cs :
  let keys := resolvedKeys primaryKey restoreKeys in
  let r := restoreCache env (Some (p :: ps)) primaryKey restoreKeys
             cacheBasePath w in
  List.length keys <= 10 -> forallb valid_key keys = true ->
  restoreCache_setup env cacheBasePath w = mkRun (Ret (cm, repo, file)) w1 evs1 ->
  readdirSync env repo w1 = Ret dirEntries ->
  keys = pre ++ ""%string :: post ->
  (forall k, In k pre ->
     outcome (matchedCaches env repo file dirEntries k w1) = Ret []) ->
  outcome (matchedCaches env repo file dirEntries "" w1) = Ret (c :: cs) ->
  outcome r = Ret None /\ world r = w1 /\
  Forall (fun ev => quiet ev = true) (events r).
Proof.
  intros keys r Hle Hvalid Hsetup Hdir Hkeys Hpre Hempty. unfold r.
  rewrite (restoreCache_reaches_guard env _ _ _ _ _ _ _ _ _ _ _ Hle Hvalid Hsetup).
  fold keys. rewrite restoreCache_guarded_run. cbv zeta.
  assert (Hscan : outcome (scanKeys env repo file dirEntries keys w1)
                  = Ret (""%string, filePath c)).
  { rewrite Hkeys.
    now rewrite (scanKeys_hit env _ _ _ _ _ post _ _ _ Hpre Hempty). }
  rewrite (restoreCache_try_unselected env keys cm repo file w1 dirEntries _
             Hdir Hscan).
  cbn [outcome world events prepend]. repeat split.
  apply Forall_app. split.
  - apply lead_quiet. exact (setup_events_quiet env _ _ _ _ _ Hsetup).
  - constructor; [reflexivity | apply scanKeys_quiet].
Qed.

(** X7: when the scan of a key fails (a file that exists cannot be
    stat'ed) before any key has had a candidate, the restore ends
    there: [restoreCache] returns [undefined], its last event is the
    warning with the error's message, no archive is touched, and the
    keys after the failing one are not considered. *)
Theorem restoreCache_scan_failure (env : Env W CM)
    p ps primaryKey restoreKeys cacheBasePath (w : W)
    cm repo file w1 evs1 dirEntries pre key post e :
  let keys := resolvedKeys primaryKey restoreKeys in
  let r := restoreCache env (Some (p :: ps)) primaryKey restoreKeys
             cacheBasePath w in
  List.length keys <= 10 -> forallb valid_key keys = true ->
  restoreCache_setup env cacheBasePath w = mkRun (Ret (cm, repo, file)) w1 evs1 ->
  readdirSync env repo w1 = Ret dirEntries ->
  keys = pre ++ key :: post ->
  (forall k, In k pre ->
     outcome (matchedCaches env repo file dirEntries k w1) = Ret []) ->
  outcome (matchedCaches env repo file dirEntries key w1) = Throw e ->
  name e <> ValidationError_name ->
  outcome r = Ret None /\ world r = w1 /\
  exists quietly,
    events r = quietly ++ [EWarning ("Failed to restore: " ++ message e)] /\
    Forall (fun ev => quiet ev = true) quietly.
Proof.
  intros keys r Hle Hvalid Hsetup Hdir Hkeys Hpre Hkey Hname. unfold r.
  rewrite (restoreCache_reaches_guard env _ _ _ _ _ _ _ _ _ _ _ Hle Hvalid Hsetup).
  fold keys. rewrite restoreCache_guarded_run. cbv zeta.
  assert (Hscan : outcome (scanKeys env repo file dirEntries keys w1) = Throw e).
  { rewrite Hkeys. now apply scanKeys_throw. }
  rewrite (restoreCache_try_scan_throws env keys cm repo file w1 dirEntries e
             Hdir Hscan).
  cbn [outcome world events prepend].
  destruct (String.eqb_spec (name e) ValidationError_name); [contradiction |].
  cbn [outcome world events prepend]. repeat split.
  eexists. split; [now rewrite app_assoc |].
  apply Forall_app. split.
  - apply lead_quiet. exact (setup_events_quiet env _ _ _ _ _ Hsetup).
  - constructor; [reflexivity | apply scanKeys_quiet].
Qed.

(** X8: when the primary key has a candidate, the restore keys have no
    influence on what [restoreCache] does: for two lists of restore
    keys that both pass validation, the result, the final world and
    every event after the two debug lines that print the keys are the
    same. *)
Theorem restoreCache_primary_hit_ignores_restoreKeys (env : Env W CM)
    p ps primaryKey restoreKeys1 restoreKeys2 cacheBasePath (w : W)
    cm repo file w1 evs1 dirEntries c cs :
  let keys1 := resolvedKeys primaryKey restoreKeys1 in
  let keys2 := resolvedKeys primaryKey restoreKeys2 in
  let r1 := restoreCache env (Some (p :: ps)) primaryKey restoreKeys1
              cacheBasePath w in
  let r2 := restoreCache env (Some (p :: ps)) primaryKey restoreKeys2
              cacheBasePath w in
  List.length keys1 <= 10 -> forallb valid_key keys1 = true ->
  List.length keys2 <= 10 -> forallb valid_key keys2 = true ->
  restoreCache_setup env cacheBasePath w = mkRun (Ret (cm, repo, file)) w1 evs1 ->
  readdirSync env repo w1 = Ret dirEntries ->
  outcome (matchedCaches env repo file dirEntries primaryKey w1)
    = Ret (c :: cs) ->
  outcome r1 = outcome r2 /\ world r1 = world r2 /\
  skipn 2 (events r1) = skipn 2 (events r2).
Proof.
  intros keys1 keys2 r1 r2 Hle1 Hvalid1 Hle2 Hvalid2 Hsetup Hdir Hhit.
  assert (Htry : forall rest,
    restoreCache_try env (primaryKey :: rest) cm repo file w1 =
    restoreCache_try env [primaryKey] cm repo file w1).
  { intros rest. unfold restoreCache_try. rewrite !bind_read, Hdir.
    pose proof (scanKeys_hit env repo file dirEntries [] primaryKey rest c cs
                  w1 (fun k (H : In k []) => match H with end) Hhit) as H1.
    pose proof (scanKeys_hit env repo file dirEntries [] primaryKey [] c cs
                  w1 (fun k (H : In k []) => match H with end) Hhit) as H2.
    cbn [app] in H1, H2.
    rewrite (bind_ret_run _ _ _ _ _ _ H1), (bind_ret_run _ _ _ _ _ _ H2).
    reflexivity. }
  assert (Hguard : forall rest,
    restoreCache_guarded env (primaryKey :: rest) cm repo file w1 =
    restoreCache_guarded env [primaryKey] cm repo file w1).
  { intros rest. rewrite !restoreCache_guarded_run. cbv zeta.
    now rewrite Htry. }
  unfold r1, r2.
  rewrite (restoreCache_reaches_guard env _ _ _ _ _ _ _ _ _ _ _
             Hle1 Hvalid1 Hsetup).
  rewrite (restoreCache_reaches_guard env _ _ _ _ _ _ _ _ _ _ _
             Hle2 Hvalid2 Hsetup).
  unfold resolvedKeys. rewrite (Hguard (match restoreKeys1 with
                                        | Some l => l | None => [] end)).
  rewrite (Hguard (match restoreKeys2 with Some l => l | None => [] end)).
  cbn [outcome world events prepend app skipn]. repeat split.
Qed.

(** X9: an error named ValidationError thrown inside the [try] block
    of [restoreCache] is not swallowed: the same error reaches the
    caller, and no warning is logged. The name alone decides: the
    error need not have been made by the [ValidationError] class. *)
Theorem restoreCache_rethrows_validation (env : Env W CM)
    p ps primaryKey restoreKeys cacheBasePath (w : W)
    cm repo file w1 evs1 e :
  let keys := resolvedKeys primaryKey restoreKeys in
  let r := restoreCache env (Some (p :: ps)) primaryKey restoreKeys
             cacheBasePath w in
  let t := restoreCache_try env keys cm repo file w1 in
  List.length keys <= 10 -> forallb valid_key keys = true ->
  restoreCache_setup env cacheBasePath w = mkRun (Ret (cm, repo, file)) w1 evs1 ->
  outcome t = Throw e ->
  name e = ValidationError_name ->
  r = mkRun (Throw e) (world t)
        ([EDebug "Resolved Keys:"; EDebug (JSON_stringify env keys)] ++
         evs1 ++ events t).
Proof.
  intros keys r t Hle Hvalid Hsetup Ht Hname. unfold r.
  rewrite (restoreCache_reaches_guard env _ _ _ _ _ _ _ _ _ _ _ Hle Hvalid Hsetup).
  fold keys. rewrite restoreCache_guarded_run. cbv zeta. fold t.
  rewrite Ht, Hname. cbn [String.eqb]. 
  replace (ValidationError_name =? ValidationError_name)%string with true
    by reflexivity.
  unfold prepend. rewrite Ht. now rewrite <- app_assoc.
Qed.

(** X20: a hit. When validation and the helper calls pass, every key
    before [key] has no candidate, the non-empty [key] has the
    candidates [c :: cs], and outside debug mode the size query and the
    extraction of the archive of [c] succeed, [restoreCache] returns
    [key] itself (not the name of the entry), the world is the one the
    extraction left, and the run ends with the archive path, the size
    query, the size message, the extraction and the success message,
    all for the archive of [c]. *)
Theorem restoreCache_hit (env : Env W CM)
    p ps primaryKey restoreKeys cacheBasePath (w : W)
    cm repo file w1 evs1 dirEntries pre key post c cs n w2 w3 :
  let keys := resolvedKeys primaryKey restoreKeys in
  let r := restoreCache env (Some (p :: ps)) primaryKey restoreKeys
             cacheBasePath w in
  List.length keys <= 10 -> forallb valid_key keys = true ->
  restoreCache_setup env cacheBasePath w = mkRun (Ret (cm, repo, file)) w1 evs1 ->
  readdirSync env repo w1 = Ret dirEntries ->
  keys = pre ++ key :: post ->
  (forall k, In k pre ->
     outcome (matchedCaches env repo file dirEntries k w1) = Ret []) ->
  outcome (matchedCaches env repo file dirEntries key w1) = Ret (c :: cs) ->
  key <> ""%string ->
  isDebug env w1 = false ->
  getArchiveFileSizeInBytes env (filePath c) w1 = (Ret n, w2) ->
  extractTar env (filePath c) cm w2 = (Ret tt, w3) ->
  outcome r = Ret (Some key) /\ world r = w3 /\
  exists before,
    events r =
      before ++
      [EDebug ("Archive Path: " ++ filePath c);
       EGetArchiveFileSizeInBytes (filePath c);
       EInfo ("Cache Size: ~" ++ show_N (round_MB n) ++ " MB (" ++
              show_N n ++ " B)");
       EExtractTar (filePath c) cm;
       EInfo "Cache restored successfully"] /\
    Forall (fun ev => quiet ev = true) before.
Proof.
  intros keys r Hle Hvalid Hsetup Hdir Hkeys Hpre Hkey Hne Hdbg Hsize Hextract.
  assert (Hx : restoreCache_extract env key (filePath c) cm w1 =
               mkRun (Ret (Some key)) w3
                 [EDebug ("Archive Path: " ++ filePath c);
                  EGetArchiveFileSizeInBytes (filePath c);
                  EInfo ("Cache Size: ~" ++ show_N (round_MB n) ++ " MB (" ++
                         show_N n ++ " B)");
                  EExtractTar (filePath c) cm;
                  EInfo "Cache restored successfully"]).
  { unfold restoreCache_extract. rewrite bind_debug, bind_ask, Hdbg.
    rewrite (bind_pure (ret tt) _ w1 tt eq_refl), bind_call, Hsize.
    rewrite bind_info, bind_call, Hextract, bind_info. reflexivity. }
  assert (Hscan : outcome (scanKeys env repo file dirEntries keys w1)
                  = Ret (key, filePath c)).
  { rewrite Hkeys.
    now rewrite (scanKeys_hit env _ _ _ _ _ post _ _ _ Hpre Hkey). }
  unfold r.
  rewrite (restoreCache_reaches_guard env _ _ _ _ _ _ _ _ _ _ _ Hle Hvalid Hsetup).
  fold keys. rewrite restoreCache_guarded_run. cbv zeta.
  rewrite (restoreCache_try_selected env keys cm repo file w1 dirEntries _ _
             Hdir Hscan Hne), Hx.
  cbn [outcome world events prepend]. repeat split.
  eexists. split; [now rewrite !app_assoc |].
  apply Forall_app. split.
  - apply lead_quiet. exact (setup_events_quiet env _ _ _ _ _ Hsetup).
  - constructor; [reflexivity | apply scanKeys_quiet].
Qed.

End RestoreExtras.

(** ** Validation order, and what each operation leaves alone *)

Section BoundaryExtras.

Context {W CM : Type}.

(** X10: the first violation wins. With paths supplied, more than 10
    keys give the key-count error whatever the keys are; otherwise the
    first key, in order, that [checkKey] rejects gives the error, with
    the length looked at before the comma; [saveCache] reports its key
    the same way. Nothing but the two debug lines of [restoreCache]
    has happened by then. *)
Theorem validation_first_violation (env : Env W CM)
    p ps primaryKey restoreKeys cacheBasePath (w : W) :
  let keys := resolvedKeys primaryKey restoreKeys in
  let r := restoreCache env (Some (p :: ps)) primaryKey restoreKeys
             cacheBasePath w in
  let printed :=
    [EDebug "Resolved Keys:"; EDebug (JSON_stringify env keys)] in
  (10 < List.length keys ->
   r = mkRun (Throw (ValidationError key_limit_message)) w printed) /\
  (forall pre key post,
     List.length keys <= 10 -> keys = pre ++ key :: post ->
     forallb valid_key pre = true -> valid_key key = false ->
     r = mkRun (Throw (ValidationError (key_message key))) w printed) /\
  (forall key,
     valid_key key = false ->
     saveCache env (Some (p :: ps)) key cacheBasePath w =
     mkRun (Throw (ValidationError (key_message key))) w []).
Proof.
  intros keys r printed. split; [| split].
  - intros Hlt. unfold r, restoreCache. fold keys.
    rewrite (bind_pure _ _ _ _ (checkPaths_some p ps w)).
    rewrite !bind_debug, prepend_prepend.
    destruct (Nat.ltb_spec 10 (List.length keys)); [reflexivity | lia].
  - intros pre key post Hle Hkeys Hpre Hkey. unfold r, restoreCache. fold keys.
    rewrite (bind_pure _ _ _ _ (checkPaths_some p ps w)).
    rewrite !bind_debug, prepend_prepend.
    destruct (Nat.ltb_spec 10 (List.length keys)); [lia |].
    rewrite (bind_pure (ret tt) _ w tt eq_refl).
    rewrite Hkeys at 2.
    now rewrite (bind_throw_run _ _ _ _ _ _
                   (checkKeys_first_invalid pre key post w Hpre Hkey)).
  - intros key Hkey. unfold saveCache.
    rewrite (bind_pure _ _ _ _ (checkPaths_some p ps w)).
    now rewrite (bind_throw_run _ _ _ _ _ _
                   (checkKey_invalid_message key w Hkey)).
Qed.

(** X11: each operation stays on its side of the store. A run of
    [restoreCache] never resolves paths, creates a temporary directory,
    creates an archive, commits or deletes a file; a run of [saveCache]
    never lists the store directory, probes or stats a file in it, or
    extracts an archive. *)
Theorem operations_stay_apart (env : Env W CM) :
  (forall paths primaryKey restoreKeys cacheBasePath (w : W),
     Forall (fun ev => save_only ev = false)
       (events (restoreCache env paths primaryKey restoreKeys
                  cacheBasePath w))) /\
  (forall paths key cacheBasePath (w : W),
     Forall (fun ev => restore_only ev = false)
       (events (saveCache env paths key cacheBasePath w))).
Proof.
  split.
  - intros paths primaryKey restoreKeys cacheBasePath.
    change (emits (fun ev : Event CM => save_only ev = false)
              (restoreCache env paths primaryKey restoreKeys cacheBasePath)).
    unfold restoreCache.
    apply emits_bind; [apply checkPaths_emits | intros _].
    do 3 (apply emits_bind; [emits_auto | intros _]).
    apply emits_bind; [apply checkKeys_emits | intros _].
    apply emits_bind; [unfold restoreCache_setup; emits_auto |].
    intros [[cm repo] file].
    unfold restoreCache_guarded, restoreCache_try, restoreCache_catch,
      restoreCache_extract.
    apply emits_try_finally; [| apply emits_ret].
    apply emits_try_catch; [| intros e; emits_auto].
    apply emits_bind; [emits_auto | intros dirEntries].
    apply emits_bind;
      [apply scanKeys_emits; intros; reflexivity |
       intros [matchedKey archivePath]].
    emits_auto.
  - intros paths key cacheBasePath.
    change (emits (fun ev : Event CM => restore_only ev = false)
              (saveCache env paths key cacheBasePath)).
    unfold saveCache.
    apply emits_bind; [apply checkPaths_emits | intros _].
    apply emits_bind; [apply checkKey_emits | intros _].
    apply emits_bind; [unfold saveCache_setup; emits_auto |].
    intros [[[cm cps] folder] ap].
    unfold saveCache_guarded, saveCache_body, saveCache_try, saveCache_catch,
      saveCache_finally.
    emits_auto.
Qed.

(** X12: [listTar] is called in debug mode only, on the archive in use.
    A run of [restoreCache] that lists an archive has passed lines
    78-80, has read the store and selected that archive for a non-empty
    key, and [core.isDebug()] is true in the state the run is in after
    lines 78-80 (the loop leaves it as it is). A run of [saveCache]
    that lists an archive has passed lines 163-181, lists
    [archiveFolder/cacheFileName] with the compression method of line
    163 after [createTar] has returned from the state those lines left,
    and [core.isDebug()] is true in the state [createTar] left. *)
Theorem listTar_only_in_debug (env : Env W CM) :
  (forall paths primaryKey restoreKeys cacheBasePath (w : W) a cm,
     In (EListTar a cm)
        (events (restoreCache env paths primaryKey restoreKeys
                   cacheBasePath w)) ->
     exists repo file w1 evs1 dirEntries k,
       restoreCache_setup env cacheBasePath w =
         mkRun (Ret (cm, repo, file)) w1 evs1 /\
       readdirSync env repo w1 = Ret dirEntries /\
       outcome (scanKeys env repo file dirEntries
                  (resolvedKeys primaryKey restoreKeys) w1) = Ret (k, a) /\
       k <> ""%string /\
       isDebug env w1 = true) /\
  (forall paths key cacheBasePath (w : W) a cm,
     In (EListTar a cm) (events (saveCache env paths key cacheBasePath w)) ->
     exists cps folder file w1 w2,
       setup_returns env (suppliedPaths paths) w cm cps folder file w1 /\
       a = path_join env [folder; file] /\
       createTar env folder cps cm w1 = (Ret tt, w2) /\
       isDebug env w2 = true).
Proof.
  split.
  - intros paths primaryKey restoreKeys cacheBasePath w a cm Hin.
    set (keys := resolvedKeys primaryKey restoreKeys).
    destruct (paths_cases paths) as [Hnone | (p0 & ps & ->)].
    { now rewrite (restoreCache_no_paths env _ _ _ _ w Hnone) in Hin. }
    assert (Hrej : 10 < List.length keys \/ forallb valid_key keys = false ->
                   False).
    { intros Hbad.
      destruct (restoreCache_rejected env (Some (p0 :: ps)) primaryKey
                  restoreKeys cacheBasePath w Hbad) as (_ & _ & Hev).
      destruct Hev as [Hev | Hev]; rewrite Hev in Hin; cbn in Hin;
        intuition discriminate. }
    destruct (Nat.ltb_spec 10 (List.length keys)) as [Hlt | Hle];
      [now destruct Hrej; left |].
    destruct (forallb valid_key keys) eqn:Hvalid;
      [| now destruct Hrej; right].
    clear Hrej.
    pose proof (restoreCache_setup_quiet env cacheBasePath w) as Hsq.
    apply quiet_no_listTar in Hsq.
    destruct (restoreCache_setup env cacheBasePath w)
      as [[[[cm' repo] file] | e] w1 evs1] eqn:Hsetup; cbn [events] in Hsq.
    2:{ exfalso. rewrite restoreCache_validated in Hin by assumption.
        rewrite (bind_throw_run _ _ _ _ _ _ Hsetup) in Hin.
        cbn [events prepend] in Hin.
        destruct Hin as [Hin | [Hin | Hin]]; try discriminate.
        now apply no_listTar_in in Hin. }
    rewrite (restoreCache_reaches_guard env _ _ _ _ _ _ _ _ _ _ _
               Hle Hvalid Hsetup) in Hin.
    cbn [events prepend app] in Hin.
    destruct Hin as [Hin | [Hin | Hin]]; try discriminate.
    apply in_app_or in Hin as [Hin | Hin]; [now apply no_listTar_in in Hin |].
    rewrite restoreCache_guarded_run in Hin.
    assert (Htry : In (EListTar a cm)
                     (events (restoreCache_try env
                                (resolvedKeys primaryKey restoreKeys)
                                cm' repo file w1))).
    { destruct (outcome (restoreCache_try env
                           (resolvedKeys primaryKey restoreKeys)
                           cm' repo file w1)) as [v | e]; [exact Hin |].
      destruct (name e =? ValidationError_name)%string; [exact Hin |].
      cbn [events] in Hin.
      apply in_app_or in Hin as [Hin | [Hin | []]];
        [exact Hin | discriminate]. }
    destruct (restoreCache_try_list_inv env _ _ _ _ _ _ _ Htry)
      as (dirEntries & k & Hdir & Hscan & Hne & Hdbg & ->).
    now exists repo, file, w1, evs1, dirEntries, k.
  - intros paths key cacheBasePath w a cm Hin.
    assert (Hs : forall (w' : W),
              Forall (fun ev : Event CM => is_listTar ev = false)
                     (events (saveCache_setup env (suppliedPaths paths) w'))).
    { assert (H : emits (fun ev : Event CM => is_listTar ev = false)
                    (saveCache_setup env (suppliedPaths paths)))
        by (unfold saveCache_setup; emits_auto).
      exact H. }
    specialize (Hs w).
    destruct (saveCache_anatomy env paths key cacheBasePath w)
      as [(msg & Hr) | [(e & w1 & evs1 & Hsetup & Hr) |
          (cm' & cps & folder & ap & w1 & evs1 & Hsetup & Hr)]];
      rewrite Hr in Hin; cbn [events prepend] in Hin.
    + contradiction.
    + exfalso. rewrite Hsetup in Hs. now apply no_listTar_in in Hin.
    + rewrite Hsetup in Hs. cbn [events] in Hs.
      apply in_app_or in Hin as [Hin | Hin]; [now apply no_listTar_in in Hin |].
      destruct (saveCache_guarded_after_try env key cacheBasePath cm' cps
                  folder ap w1) as (rest & Hev & _ & Hrest).
      rewrite Hev in Hin.
      apply in_app_or in Hin as [Hin | Hin]; [| now apply no_listTar_in in Hin].
      destruct (saveCache_try_list_inv env _ _ _ _ _ _ _ _ _ Hin)
        as (w2 & Hcreate & Hdbg & Ha & Hc).
      destruct (saveCache_setup_chain env _ _ _ _ _ _ _ _ Hsetup)
        as (file & Hchain & Hap).
      subst a cm ap. now exists cps, folder, file, w1, w2.
Qed.

End BoundaryExtras.

(** ** What a save reports and does *)

Section SaveExtras.

Context {W CM : Type}.

Lemma not_store_in (l : list (Event CM)) a d :
  Forall (fun ev => is_store ev = false) l -> ~ In (EStoreCacheFile a d) l.
Proof.
  intros Hall Hin. rewrite Forall_forall in Hall. now apply Hall in Hin.
Qed.

Lemma saveCache_setup_no_store (env : Env W CM) paths (w : W) :
  Forall (fun ev => is_store ev = false)
         (events (saveCache_setup env paths w)).
Proof.
  assert (H : emits (fun ev : Event CM => is_store ev = false)
                (saveCache_setup env paths))
    by (unfold saveCache_setup; emits_auto).
  apply H.
Qed.

(** X13: the status 1 means the commit went through. When [saveCache]
    returns 1, lines 163-181 have returned; from the state they left,
    [createTar], the listing of debug mode, the size request and
    [getRepoCacheStorePath] have returned in turn; and [storeCacheFile]
    has then returned normally for the archive
    [archiveFolder/cacheFileName] and the destination [storeRoot/key].
    The run is the events of lines 163-181, the call of [createTar] on
    the temporary folder, events that are no commit, the commit, and the
    deletion of that archive with its report; it ends in the state the
    deletion leaves. *)
Theorem saveCache_success_means_committed (env : Env W CM)
    paths key cacheBasePath (w : W) :
  let r := saveCache env paths key cacheBasePath w in
  outcome r = Ret 1%Z ->
  exists cm cps folder file root w1 w5 w6 mid,
    let archivePath := path_join env [folder; file] in
    let cacheStorePath := path_join env [root; key] in
    setup_returns env (suppliedPaths paths) w cm cps folder file w1 /\
    reaches_commit env cacheBasePath cm cps folder archivePath w1 root w5 /\
    storeCacheFile env archivePath cacheStorePath w5 = (Ret tt, w6) /\
    Forall (fun ev => is_store ev = false) mid /\
    events r =
      events (saveCache_setup env (suppliedPaths paths) w) ++
      ECreateTar folder cps cm :: mid ++
      EStoreCacheFile archivePath cacheStorePath ::
      EUnlinkFile archivePath :: unlink_report env archivePath w6 /\
    world r = snd (unlinkFile env archivePath w6).
Proof.
  intros r Hr.
  destruct (saveCache_anatomy env paths key cacheBasePath w)
    as [(msg & Hrun) | [(e & w1 & evs1 & _ & Hrun) |
        (cm & cps & folder & ap & w1 & evs1 & Hsetup & Hrun)]];
    fold r in Hrun; rewrite Hrun in Hr |- *; try discriminate.
  rewrite Hsetup. cbn [outcome events world prepend] in *.
  destruct (saveCache_setup_chain env _ _ _ _ _ _ _ _ Hsetup)
    as (file & Hchain & ->).
  set (ap := path_join env [folder; file]) in *.
  destruct (saveCache_guarded_cases env key cacheBasePath cm cps folder ap w1)
    as (Hw & Hcases).
  destruct (outcome (saveCache_try env key cacheBasePath cm cps folder ap w1))
    as [n | e] eqn:Ht.
  2:{ exfalso.
      destruct (name e =? ValidationError_name)%string;
        destruct Hcases as (Hout & _); congruence. }
  destruct Hcases as (_ & Hev).
  destruct (saveCache_try_ret_commits env _ _ _ _ _ _ _ _ Ht) as (d & Hin).
  destruct (saveCache_try_commit_inv env _ _ _ _ _ _ _ _ _ Hin)
    as (root & w5 & mid & Hreach & _ & -> & Het & Hmid & Hout & Hwt).
  rewrite Ht in Hout.
  destruct (storeCacheFile env ap (path_join env [root; key]) w5)
    as [[[] | e] w6] eqn:Hstore; [| discriminate].
  cbn [snd] in Hwt.
  exists cm, cps, folder, file, root, w1, w5, w6, mid. cbv zeta. fold ap.
  repeat (split; [assumption |]).
  rewrite Hw, Hev, Het, Hwt. split; [| reflexivity].
  cbn [app]. now rewrite <- app_assoc.
Qed.

(** X14: the status -1 is never silent. When [saveCache] returns -1,
    lines 163-181 have returned and the [try] block, run from the state
    they left on the archive [archiveFolder/cacheFileName], threw an
    error not named ValidationError. The run is the events of lines
    163-181, those of the [try] block, the message "Failed to save: ..."
    for that error (an information for a ReserveCacheError, a warning
    otherwise), and the deletion of the archive with its report; it ends
    in the state the deletion leaves. *)
Theorem saveCache_soft_failure_is_logged (env : Env W CM)
    paths key cacheBasePath (w : W) :
  let r := saveCache env paths key cacheBasePath w in
  outcome r = Ret (-1)%Z ->
  exists cm cps folder file w1 e,
    let archivePath := path_join env [folder; file] in
    let t := saveCache_try env key cacheBasePath cm cps folder archivePath w1 in
    setup_returns env (suppliedPaths paths) w cm cps folder file w1 /\
    outcome t = Throw e /\
    name e <> ValidationError_name /\
    events r =
      events (saveCache_setup env (suppliedPaths paths) w) ++
      events t ++
      (if (name e =? ReserveCacheError_name)%string
       then EInfo ("Failed to save: " ++ message e)
       else EWarning ("Failed to save: " ++ message e)) ::
      EUnlinkFile archivePath :: unlink_report env archivePath (world t) /\
    world r = snd (unlinkFile env archivePath (world t)).
Proof.
  intros r Hr.
  destruct (saveCache_anatomy env paths key cacheBasePath w)
    as [(msg & Hrun) | [(e & w1 & evs1 & _ & Hrun) |
        (cm & cps & folder & ap & w1 & evs1 & Hsetup & Hrun)]];
    fold r in Hrun; rewrite Hrun in Hr |- *; try discriminate.
  rewrite Hsetup. cbn [outcome events world prepend] in *.
  destruct (saveCache_setup_chain env _ _ _ _ _ _ _ _ Hsetup)
    as (file & Hchain & ->).
  set (ap := path_join env [folder; file]) in *.
  destruct (saveCache_guarded_cases env key cacheBasePath cm cps folder ap w1)
    as (Hw & Hcases).
  destruct (outcome (saveCache_try env key cacheBasePath cm cps folder ap w1))
    as [n | e] eqn:Ht.
  { exfalso. destruct Hcases as (Hout & _).
    pose proof (saveCache_try_ret env _ _ _ _ _ _ _ _ Ht). congruence. }
  destruct (String.eqb_spec (name e) ValidationError_name) as [Heq | Hname].
  { exfalso. destruct Hcases as (Hout & _). congruence. }
  destruct Hcases as (_ & Hev).
  exists cm, cps, folder, file, w1, e. cbv zeta. fold ap.
  split; [exact Hchain |]. split; [exact Ht |]. split; [exact Hname |].
  now rewrite Hw, Hev.
Qed.

(** X15: the commit comes after the archive. A run of [saveCache]
    calls [storeCacheFile] at most once. When it does, lines 163-181
    have returned, on a non-empty set of resolved paths; from the state
    they left, [createTar], the listing of debug mode, the size request
    and [getRepoCacheStorePath] have returned in turn; the commit is for
    the archive [archiveFolder/cacheFileName] of the folder given to
    [createTar], with destination [storeRoot/key]; and in the run the
    call of [createTar] follows the events of lines 163-181 and comes
    before the commit. *)
Theorem saveCache_commits_after_archive (env : Env W CM)
    paths key cacheBasePath (w : W) a d :
  let r := saveCache env paths key cacheBasePath w in
  In (EStoreCacheFile a d) (events r) ->
  List.length (filter is_store (events r)) = 1 /\
  exists cm cps folder file root w1 w5 mid rest,
    setup_returns env (suppliedPaths paths) w cm cps folder file w1 /\
    reaches_commit env cacheBasePath cm cps folder a w1 root w5 /\
    a = path_join env [folder; file] /\
    d = path_join env [root; key] /\
    events r =
      events (saveCache_setup env (suppliedPaths paths) w) ++
      ECreateTar folder cps cm :: mid ++ EStoreCacheFile a d :: rest /\
    Forall (fun ev => is_store ev = false)
           (events (saveCache_setup env (suppliedPaths paths) w)) /\
    Forall (fun ev => is_store ev = false) mid /\
    Forall (fun ev => is_store ev = false) rest.
Proof.
  intros r Hin.
  pose proof (saveCache_setup_no_store env (suppliedPaths paths) w) as Hs.
  destruct (saveCache_anatomy env paths key cacheBasePath w)
    as [(msg & Hrun) | [(e & w1 & evs1 & Hsetup & Hrun) |
        (cm & cps & folder & ap & w1 & evs1 & Hsetup & Hrun)]];
    fold r in Hrun; rewrite Hrun in Hin |- *; rewrite ?Hsetup in *;
    cbn [events prepend] in *.
  - contradiction.
  - exfalso. now apply not_store_in in Hin.
  - apply in_app_or in Hin as [Hin | Hin]; [now apply not_store_in in Hin |].
    destruct (saveCache_guarded_after_try env key cacheBasePath cm cps
                folder ap w1) as (rest & Hev & Hrest & _).
    rewrite Hev in Hin |- *.
    apply in_app_or in Hin as [Hin | Hin]; [| now apply not_store_in in Hin].
    destruct (saveCache_try_commit_inv env _ _ _ _ _ _ _ _ _ Hin)
      as (root & w5 & mid & Hreach & -> & -> & Het & Hmid & _ & _).
    destruct (saveCache_setup_chain env _ _ _ _ _ _ _ _ Hsetup)
      as (file & Hchain & Hap).
    rewrite Het. split.
    + cbn [app]. rewrite !filter_app. cbn [filter is_store].
      rewrite !filter_app. cbn [filter is_store].
      now rewrite (filter_none _ _ Hs), (filter_none _ _ Hmid),
        (filter_none _ _ Hrest).
    + exists cm, cps, folder, file, root, w1, w5, mid, rest.
      repeat (split; [assumption || reflexivity |]).
      split; [| now repeat split].
      cbn [app]. now rewrite <- app_assoc.
Qed.

(** X16: [saveCache] never archives nothing. The one call of
    [createTar] in a run is made on the path set that [resolvePaths]
    returned for the supplied paths, and that set is not empty. *)
Theorem saveCache_archives_resolved_paths (env : Env W CM)
    paths key cacheBasePath (w : W) folder cps cm :
  let r := saveCache env paths key cacheBasePath w in
  In (ECreateTar folder cps cm) (events r) ->
  cps <> [] /\
  (exists w0 w1, resolvePaths env (suppliedPaths paths) w0 = (Ret cps, w1)) /\
  List.length (filter is_createTar (events r)) = 1.
Proof.
  intros r Hin.
  assert (Hno : forall (l : list (Event CM)),
            Forall (fun ev => is_createTar ev = false) l ->
            ~ In (ECreateTar folder cps cm) l).
  { intros l Hall H. rewrite Forall_forall in Hall. now apply Hall in H. }
  destruct (saveCache_anatomy env paths key cacheBasePath w)
    as [(msg & Hrun) | [(e & w1 & evs1 & Hsetup & Hrun) |
        (cm' & cps' & folder' & ap & w1 & evs1 & Hsetup & Hrun)]];
    fold r in Hrun; rewrite Hrun in Hin |- *; cbn [events prepend] in *.
  - contradiction.
  - exfalso. revert Hin. apply Hno.
    pose proof (saveCache_setup_no_createTar env (suppliedPaths paths) w) as H.
    now rewrite Hsetup in H.
  - pose proof (saveCache_setup_no_createTar env (suppliedPaths paths) w) as Hs.
    rewrite Hsetup in Hs. cbn [events] in Hs.
    destruct (saveCache_setup_ret_inv env _ _ _ _ _ _ _ _ Hsetup)
      as (Hcps & Hres & _).
    destruct (saveCache_guarded_run env key cacheBasePath cm' cps' folder' ap w1)
      as (_ & tail & Hev & Htail).
    rewrite Hev in Hin |- *. rewrite saveCache_body_run in Hin |- *.
    assert (Htl : Forall (fun ev : Event CM => is_createTar ev = false)
                    (EUnlinkFile ap :: tail)).
    { constructor; [reflexivity |].
      destruct Htail as [-> | [m ->]]; now repeat constructor. }
    destruct (saveCache_try_one_createTar env key cacheBasePath cm' cps' folder'
                ap w1) as (rest & Hfirst & Hrest).
    assert (Hbody :
      exists more,
        events
          (match outcome (saveCache_try env key cacheBasePath cm' cps' folder'
                            ap w1) with
           | Ret _ => saveCache_try env key cacheBasePath cm' cps' folder' ap w1
           | Throw e =>
               prepend
                 (events (saveCache_try env key cacheBasePath cm' cps' folder'
                            ap w1))
                 (saveCache_catch e
                    (world (saveCache_try env key cacheBasePath cm' cps'
                              folder' ap w1)))
           end) = ECreateTar folder' cps' cm' :: more /\
        Forall (fun ev : Event CM => is_createTar ev = false) more).
    { destruct (outcome (saveCache_try env key cacheBasePath cm' cps' folder'
                           ap w1)) as [n | e].
      - now exists rest.
      - exists (rest ++ events (saveCache_catch (CM := CM) e
                  (world (saveCache_try env key cacheBasePath cm' cps' folder'
                            ap w1)))).
        cbn [events prepend]. rewrite Hfirst. split; [reflexivity |].
        apply Forall_app. split; [exact Hrest |].
        rewrite saveCache_catch_run.
        destruct (name e =? ValidationError_name)%string; [constructor |].
        destruct (name e =? ReserveCacheError_name)%string;
          now repeat constructor. }
    destruct Hbody as (more & Hb & Hmore). rewrite Hb in Hin |- *.
    assert (Heq : cps = cps').
    { apply in_app_or in Hin as [Hin | Hin]; [now apply Hno in Hin |].
      apply in_app_or in Hin as [Hin | Hin]; [| now apply Hno in Hin].
      destruct Hin as [Hin | Hin]; [now injection Hin | now apply Hno in Hin]. }
    subst cps'. split; [exact Hcps |]. split; [exact Hres |].
    rewrite !filter_app, (filter_none _ _ Hs). cbn [filter is_createTar].
    rewrite (filter_none _ _ Hmore). cbn [app].
    inversion Htl as [| ? ? _ Htail']; subst.
    cbn [filter is_createTar]. now rewrite (filter_none _ _ Htail').
Qed.

End SaveExtras.

(** ** Rethrown errors, the tie-break, the reported size *)

Section OtherExtras.

Context {W CM : Type}.

(** X17: an error named ValidationError thrown inside the [try] block
    of [saveCache] is not swallowed: the same error reaches the caller,
    nothing is reported by information or warning, and the temporary
    archive is still deleted before the error leaves. *)
Theorem saveCache_rethrows_validation (env : Env W CM)
    p ps key cacheBasePath (w : W) cm cps folder ap w1 evs1 e :
  let r := saveCache env (Some (p :: ps)) key cacheBasePath w in
  let t := saveCache_try env key cacheBasePath cm cps folder ap w1 in
  valid_key key = true ->
  saveCache_setup env (p :: ps) w = mkRun (Ret (cm, cps, folder, ap)) w1 evs1 ->
  outcome t = Throw e ->
  name e = ValidationError_name ->
  outcome r = Throw e /\
  (exists tail,
     events r = evs1 ++ events t ++ EUnlinkFile ap :: tail /\
     (tail = [] \/ exists msg, tail = [EDebug msg])) /\
  Forall (fun ev => is_report ev = false) (events r).
Proof.
  intros r t Hkey Hsetup Ht Hname. unfold r.
  rewrite saveCache_validated by assumption.
  rewrite (bind_ret_run _ _ _ _ _ _ Hsetup). cbn [outcome events prepend].
  destruct (saveCache_guarded_run env key cacheBasePath cm cps folder ap w1)
    as (Hout & tail & Hev & Htail).
  assert (Hbody : saveCache_body env key cacheBasePath cm cps folder ap w1 =
                  mkRun (Throw e) (world t) (events t)).
  { rewrite saveCache_body_run. fold t. rewrite Ht.
    rewrite saveCache_catch_run, Hname.
    replace (ValidationError_name =? ValidationError_name)%string with true
      by reflexivity.
    unfold prepend. cbn. now rewrite app_nil_r. }
  rewrite Hbody in Hout, Hev. cbn [outcome events] in Hout, Hev.
  split; [exact Hout |]. split.
  - exists tail. split; [now rewrite Hev | exact Htail].
  - rewrite Hev. apply Forall_app. split.
    + assert (Hs : emits (fun ev : Event CM => is_report ev = false)
                     (saveCache_setup env (p :: ps)))
        by (unfold saveCache_setup; emits_auto).
      specialize (Hs w). now rewrite Hsetup in Hs.
    + apply Forall_app. split.
      * assert (Hs : emits (fun ev : Event CM => is_report ev = false)
                       (saveCache_try env key cacheBasePath cm cps folder ap))
          by (unfold saveCache_try; emits_auto).
        apply Hs.
      * constructor; [reflexivity |].
        destruct Htail as [-> | [m ->]]; now repeat constructor.
Qed.

(** X18: the sort of lines 95-97 neither drops nor repeats a candidate,
    and its first element, the one [.at(0)] selects, is the first in
    listing order among the candidates with the latest modification
    time: every candidate listed before it is strictly older, every
    candidate listed after it is not newer. *)
Theorem sort_desc_selects_first_newest (l : list CacheFileInfo) :
  Permutation (sort_desc l) l /\
  (forall c rest,
     sort_desc l = c :: rest ->
     exists before after,
       l = before ++ c :: after /\
       (forall x, In x before -> (mtime (stats x) < mtime (stats c))%Z) /\
       (forall x, In x after -> (mtime (stats x) <= mtime (stats c))%Z)).
Proof.
  split; [apply sort_desc_perm |].
  induction l as [| a l IH]; cbn [sort_desc]; [discriminate |].
  intros c rest Hsort.
  destruct (sort_desc l) as [| b rest'] eqn:Hl.
  - pose proof (sort_desc_perm l) as Hp. rewrite Hl in Hp.
    apply Permutation_nil in Hp. subst l.
    cbn in Hsort. injection Hsort as <- <-.
    exists [], []. repeat split; intros x [].
  - destruct (IH b rest' eq_refl) as (before & after & -> & Hbefore & Hafter).
    cbn [insert_desc] in Hsort.
    destruct (Z.leb_spec (mtime (stats b)) (mtime (stats a))) as [Hle | Hgt].
    + injection Hsort as <- <-.
      exists [], (before ++ b :: after). split; [reflexivity |].
      split; [intros x [] |].
      intros x Hx. apply in_app_or in Hx as [Hx | [<- | Hx]].
      * specialize (Hbefore x Hx). lia.
      * exact Hle.
      * specialize (Hafter x Hx). lia.
    + injection Hsort as <- <-.
      exists (a :: before), after. split; [reflexivity |].
      split; [| exact Hafter].
      intros x [<- | Hx]; [exact Hgt | now apply Hbefore].
Qed.

(** X19: the size reported on a restore, in MB, is the archive size in
    bytes divided by 1024 * 1024 and rounded to the nearest integer,
    halves up: it is off by at most half a mebibyte. *)
Theorem round_MB_nearest (n : N) :
  (2 * n < 2 * MiB * round_MB n + MiB <= 2 * n + 2 * MiB)%N.
Proof.
  unfold round_MB, MiB.
  pose proof (N.div_mod' (2 * n + 1048576) 2097152) as Hdiv.
  assert (Hmod : ((2 * n + 1048576) mod 2097152 < 2097152)%N)
    by (apply N.mod_lt; discriminate).
  set (q := ((2 * n + 1048576) / 2097152)%N) in *.
  set (m := ((2 * n + 1048576) mod 2097152)%N) in *.
  clearbody q m. lia.
Qed.

End OtherExtras.

(** ** Further runs on the sample store *)

Module MoreRuns.

Import Sample.

Local Open Scope string_scope.

Lemma restoreCache_returns_supplied_key_witness :
  let r := restoreCache sample (Some ["./dist"]) "foo-xyz" (Some ["foo"]) None
             disk0 in
  outcome r = Ret (Some "foo") /\
  In "foo" (resolvedKeys "foo-xyz" (Some ["foo"])) /\
  "foo" <> "" /\
  exists pre archivePath compressionMethod,
    events r = (pre ++ [EExtractTar archivePath compressionMethod;
                        EInfo "Cache restored successfully"])%list /\
    Forall (fun ev => is_extract ev = false /\ is_warning ev = false) pre.
Proof.
  intros r.
  assert (Hr : outcome r = Ret (Some "foo")) by (vm_compute; reflexivity).
  split; [exact Hr |].
  exact (restoreCache_returns_supplied_key sample (Some ["./dist"]) "foo-xyz"
           (Some ["foo"]) None disk0 "foo" Hr).
Defined.

Lemma restoreCache_warning_means_undefined_witness :
  let r := restoreCache sample (Some ["./dist"]) "foo" None None
             (with_faults [ExtractTarFails] disk0) in
  let msg := "Failed to restore: tar exited with code 2" in
  In (EWarning msg) (events r) /\
  outcome r = Ret None /\
  exists pre e,
    msg = "Failed to restore: " ++ message e /\
    events r = (pre ++ [EWarning msg])%list /\
    Forall (fun ev => is_warning ev = false) pre.
Proof.
  intros r msg.
  assert (Hin : In (EWarning msg) (events r)) by (vm_compute; tauto).
  split; [exact Hin |].
  exact (restoreCache_warning_means_undefined sample (Some ["./dist"]) "foo"
           None None (with_faults [ExtractTarFails] disk0) msg Hin).
Defined.

Lemma restoreCache_silent_undefined_witness :
  let r := restoreCache sample (Some ["./dist"]) "nothing" (Some ["zzz"]) None
             disk0 in
  outcome r = Ret None /\
  (forall msg, ~ In (EWarning msg) (events r)) /\
  Forall (fun ev => uses_archive ev = false) (events r).
Proof.
  intros r.
  assert (Hout : outcome r = Ret None) by (vm_compute; reflexivity).
  assert (Hsilent : forall msg, ~ In (EWarning msg) (events r)).
  { intros msg Hin. vm_compute in Hin.
    repeat (destruct Hin as [Hin | Hin]; [discriminate |]). exact Hin. }
  split; [exact Hout |]. split; [exact Hsilent |].
  exact (restoreCache_silent_undefined sample (Some ["./dist"]) "nothing"
           (Some ["zzz"]) None disk0 Hout Hsilent).
Defined.

Lemma sample_setup :
  restoreCache_setup sample None disk0 =
  mkRun (Ret (Gzip, "/cache", "cache.tgz")) disk0
        (events (restoreCache_setup sample None disk0)).
Proof. vm_compute. reflexivity. Defined.

Lemma restoreCache_no_match_witness :
  let keys := resolvedKeys "nothing" (Some ["zzz"]) in
  let r := restoreCache sample (Some ["./dist"]) "nothing" (Some ["zzz"]) None
             disk0 in
  (forall k, In k keys ->
     outcome (matchedCaches sample "/cache" "cache.tgz" (entries disk0) k
                disk0) = Ret []) /\
  outcome r = Ret None /\ world r = disk0 /\
  Forall (fun ev => quiet ev = true) (events r).
Proof.
  intros keys r.
  assert (Hnone : forall k, In k keys ->
            outcome (matchedCaches sample "/cache" "cache.tgz" (entries disk0)
                       k disk0) = Ret []).
  { intros k [<- | [<- | []]]; vm_compute; reflexivity. }
  split; [exact Hnone |].
  apply (restoreCache_no_match sample "./dist" [] "nothing" (Some ["zzz"]) None
           disk0 Gzip "/cache" "cache.tgz" disk0
           (events (restoreCache_setup sample None disk0)) (entries disk0)).
  - vm_compute. lia.
  - vm_compute. reflexivity.
  - exact sample_setup.
  - reflexivity.
  - exact Hnone.
Defined.

Lemma restoreCache_empty_key_matches_nothing_witness :
  let r := restoreCache sample (Some ["./dist"]) "" (Some ["foo"]) None
             disk0 in
  (exists c cs,
     outcome (matchedCaches sample "/cache" "cache.tgz" (entries disk0) ""
                disk0) = Ret (c :: cs)) /\
  outcome r = Ret None /\ world r = disk0 /\
  Forall (fun ev => quiet ev = true) (events r).
Proof.
  intros r.
  assert (Hempty :
    outcome (matchedCaches sample "/cache" "cache.tgz" (entries disk0) ""
               disk0)
    = Ret [mkInfo "/cache/bar-1/cache.tgz" (mkStats true 900);
           fooNewest; fooOldest]) by (vm_compute; reflexivity).
  split; [eauto |].
  apply (restoreCache_empty_key_matches_nothing sample "./dist" [] ""
           (Some ["foo"]) None disk0 Gzip "/cache" "cache.tgz" disk0
           (events (restoreCache_setup sample None disk0))
           (entries disk0) [] ["foo"]
           (mkInfo "/cache/bar-1/cache.tgz" (mkStats true 900))
           [fooNewest; fooOldest]).
  - vm_compute. lia.
  - vm_compute. reflexivity.
  - exact sample_setup.
  - reflexivity.
  - reflexivity.
  - intros k [].
  - exact Hempty.
Defined.

Lemma flaky_setup :
  restoreCache_setup flaky None disk0 =
  mkRun (Ret (Gzip, "/cache", "cache.tgz")) disk0
        (events (restoreCache_setup flaky None disk0)).
Proof. vm_compute. reflexivity. Defined.

Lemma restoreCache_scan_failure_witness :
  let r := restoreCache flaky (Some ["./dist"]) "foo" (Some ["bar"]) None
             disk0 in
  outcome (matchedCaches flaky "/cache" "cache.tgz" (entries disk0) "foo"
             disk0) = Throw statError /\
  name statError <> ValidationError_name /\
  outcome r = Ret None /\ world r = disk0 /\
  exists quietly,
    events r =
      (quietly ++ [EWarning ("Failed to restore: " ++ message statError)])%list
    /\ Forall (fun ev => quiet ev = true) quietly.
Proof.
  intros r.
  assert (Hscan : outcome (matchedCaches flaky "/cache" "cache.tgz"
                             (entries disk0) "foo" disk0) = Throw statError)
    by (vm_compute; reflexivity).
  assert (Hname : name statError <> ValidationError_name) by discriminate.
  split; [exact Hscan |]. split; [exact Hname |].
  apply (restoreCache_scan_failure flaky "./dist" [] "foo" (Some ["bar"]) None
           disk0 Gzip "/cache" "cache.tgz" disk0
           (events (restoreCache_setup flaky None disk0)) (entries disk0) [] "foo"
           ["bar"] statError).
  - vm_compute. lia.
  - vm_compute. reflexivity.
  - exact flaky_setup.
  - reflexivity.
  - reflexivity.
  - intros k [].
  - exact Hscan.
  - exact Hname.
Defined.

Lemma restoreCache_primary_hit_ignores_restoreKeys_witness :
  let r1 := restoreCache sample (Some ["./dist"]) "foo" None None disk0 in
  let r2 := restoreCache sample (Some ["./dist"]) "foo" (Some ["bar"; "zzz"])
              None disk0 in
  outcome (matchedCaches sample "/cache" "cache.tgz" (entries disk0) "foo"
             disk0) = Ret [fooNewest; fooOldest] /\
  outcome r1 = outcome r2 /\ world r1 = world r2 /\
  skipn 2 (events r1) = skipn 2 (events r2).
Proof.
  intros r1 r2.
  assert (Hhit : outcome (matchedCaches sample "/cache" "cache.tgz"
                            (entries disk0) "foo" disk0)
                 = Ret [fooNewest; fooOldest]) by (vm_compute; reflexivity).
  split; [exact Hhit |].
  apply (restoreCache_primary_hit_ignores_restoreKeys sample "./dist" [] "foo"
           None (Some ["bar"; "zzz"]) None disk0 Gzip "/cache" "cache.tgz"
           disk0
           (events (restoreCache_setup sample None disk0)) (entries disk0) fooNewest [fooOldest]).
  - vm_compute. lia.
  - vm_compute. reflexivity.
  - vm_compute. lia.
  - vm_compute. reflexivity.
  - exact sample_setup.
  - reflexivity.
  - exact Hhit.
Defined.

Lemma restoreCache_hit_witness :
  let r := restoreCache sample (Some ["./dist"]) "foo-xyz" (Some ["foo"; "bar"])
             None disk0 in
  outcome (matchedCaches sample "/cache" "cache.tgz" (entries disk0) "foo"
             disk0) = Ret [fooNewest; fooOldest] /\
  outcome r = Ret (Some "foo") /\ world r = disk0 /\
  exists before,
    events r =
      (before ++
       [EDebug ("Archive Path: " ++ filePath fooNewest);
        EGetArchiveFileSizeInBytes (filePath fooNewest);
        EInfo ("Cache Size: ~" ++ show_N (round_MB 3145728) ++ " MB (" ++
               show_N 3145728 ++ " B)");
        EExtractTar (filePath fooNewest) Gzip;
        EInfo "Cache restored successfully"])%list /\
    Forall (fun ev => quiet ev = true) before.
Proof.
  intros r.
  assert (Hhit : outcome (matchedCaches sample "/cache" "cache.tgz"
                            (entries disk0) "foo" disk0)
                 = Ret [fooNewest; fooOldest]) by (vm_compute; reflexivity).
  split; [exact Hhit |].
  apply (restoreCache_hit sample "./dist" [] "foo-xyz" (Some ["foo"; "bar"])
           None disk0 Gzip "/cache" "cache.tgz" disk0
           (events (restoreCache_setup sample None disk0)) (entries disk0)
           ["foo-xyz"] "foo" ["bar"] fooNewest [fooOldest] 3145728%N disk0
           disk0).
  - vm_compute. lia.
  - vm_compute. reflexivity.
  - exact sample_setup.
  - reflexivity.
  - reflexivity.
  - intros k [<- | []]. vm_compute. reflexivity.
  - exact Hhit.
  - discriminate.
  - reflexivity.
  - vm_compute. reflexivity.
  - reflexivity.
Defined.

Lemma strict_setup :
  restoreCache_setup strict None disk0 =
  mkRun (Ret (Gzip, "/cache", "cache.tgz")) disk0
        (events (restoreCache_setup strict None disk0)).
Proof. vm_compute. reflexivity. Defined.

Lemma restoreCache_rethrows_validation_witness :
  let keys := resolvedKeys "foo" None in
  let t := restoreCache_try strict keys Gzip "/cache" "cache.tgz" disk0 in
  outcome t = Throw refused /\
  name refused = ValidationError_name /\
  restoreCache strict (Some ["./dist"]) "foo" None None disk0 =
  mkRun (Throw refused) (world t)
    ([EDebug "Resolved Keys:"; EDebug (JSON_stringify strict keys)] ++
     events (restoreCache_setup strict None disk0) ++ events t)%list.
Proof.
  intros keys t.
  assert (Ht : outcome t = Throw refused) by (vm_compute; reflexivity).
  split; [exact Ht |]. split; [reflexivity |].
  apply (restoreCache_rethrows_validation strict "./dist" [] "foo" None None
           disk0 Gzip "/cache" "cache.tgz" disk0
           (events (restoreCache_setup strict None disk0)) refused).
  - vm_compute. lia.
  - vm_compute. reflexivity.
  - exact strict_setup.
  - exact Ht.
  - reflexivity.
Defined.

Lemma validation_first_violation_witness :
  10 < List.length (resolvedKeys "k0" (Some elevenKeys)) /\
  restoreCache sample (Some ["./dist"]) "k0" (Some elevenKeys) None disk0 =
    mkRun (Throw (ValidationError key_limit_message)) disk0
      [EDebug "Resolved Keys:";
       EDebug (JSON_stringify sample (resolvedKeys "k0" (Some elevenKeys)))] /\
  valid_key "a,b" = false /\
  restoreCache sample (Some ["./dist"]) "foo" (Some ["ok"; "a,b"; longComma])
      None disk0 =
    mkRun (Throw (ValidationError (key_message "a,b"))) disk0
      [EDebug "Resolved Keys:";
       EDebug (JSON_stringify sample
                 (resolvedKeys "foo" (Some ["ok"; "a,b"; longComma])))] /\
  valid_key longComma = false /\
  saveCache sample (Some ["./dist"]) longComma None disk0 =
    mkRun (Throw (ValidationError (key_message longComma))) disk0 [] /\
  key_message longComma =
    "Key Validation Error: " ++ longComma ++
    " cannot be larger than 512 characters.".
Proof.
  assert (Hmany : 10 < List.length (resolvedKeys "k0" (Some elevenKeys)))
    by (vm_compute; lia).
  assert (Hcomma : valid_key "a,b" = false) by (vm_compute; reflexivity).
  assert (Hlong : valid_key longComma = false) by (vm_compute; reflexivity).
  split; [exact Hmany |].
  split.
  { exact (proj1 (validation_first_violation sample "./dist" [] "k0"
                    (Some elevenKeys) None disk0) Hmany). }
  split; [exact Hcomma |].
  split.
  { apply (proj1 (proj2 (validation_first_violation sample "./dist" [] "foo"
                           (Some ["ok"; "a,b"; longComma]) None disk0))
             ["foo"; "ok"] "a,b" [longComma]).
    - vm_compute. lia.
    - reflexivity.
    - vm_compute. reflexivity.
    - exact Hcomma. }
  split; [exact Hlong |].
  split.
  { exact (proj2 (proj2 (validation_first_violation sample "./dist" [] "foo"
                           None None disk0)) longComma Hlong). }
  vm_compute. reflexivity.
Defined.

Lemma listTar_only_in_debug_witness :
  In (EListTar "/cache/foo-def/cache.tgz" Gzip)
     (events (restoreCache sample (Some ["./dist"]) "foo" None None debugDisk))
  /\
  In (EListTar "/tmp/a/cache.tgz" Gzip)
     (events (saveCache sample (Some ["./dist"]) "build-42" None debugDisk)) /\
  (exists repo file w1 evs1 dirEntries k,
     restoreCache_setup sample None debugDisk =
       mkRun (Ret (Gzip, repo, file)) w1 evs1 /\
     readdirSync sample repo w1 = Ret dirEntries /\
     outcome (scanKeys sample repo file dirEntries (resolvedKeys "foo" None) w1)
       = Ret (k, "/cache/foo-def/cache.tgz") /\
     k <> "" /\
     isDebug sample w1 = true) /\
  (exists cps folder file w1 w2,
     setup_returns sample (suppliedPaths (Some ["./dist"])) debugDisk Gzip cps
       folder file w1 /\
     "/tmp/a/cache.tgz" = path_join sample [folder; file] /\
     createTar sample folder cps Gzip w1 = (Ret tt, w2) /\
     isDebug sample w2 = true).
Proof.
  assert (Hrestore :
    In (EListTar "/cache/foo-def/cache.tgz" Gzip)
       (events (restoreCache sample (Some ["./dist"]) "foo" None None
                  debugDisk))) by (vm_compute; tauto).
  assert (Hsave :
    In (EListTar "/tmp/a/cache.tgz" Gzip)
       (events (saveCache sample (Some ["./dist"]) "build-42" None debugDisk)))
    by (vm_compute; tauto).
  split; [exact Hrestore |]. split; [exact Hsave |]. split.
  - exact (proj1 (listTar_only_in_debug sample) _ _ _ _ _ _ _ Hrestore).
  - exact (proj2 (listTar_only_in_debug sample) _ _ _ _ _ _ Hsave).
Defined.

Lemma saveCache_success_means_committed_witness :
  let r := saveCache sample (Some ["./dist"]) "build-42" None disk0 in
  outcome r = Ret 1%Z /\
  exists cm cps folder file root w1 w5 w6 mid,
    let archivePath := path_join sample [folder; file] in
    let cacheStorePath := path_join sample [root; "build-42"] in
    setup_returns sample (suppliedPaths (Some ["./dist"])) disk0 cm cps folder
      file w1 /\
    reaches_commit sample None cm cps folder archivePath w1 root w5 /\
    storeCacheFile sample archivePath cacheStorePath w5 = (Ret tt, w6) /\
    Forall (fun ev => is_store ev = false) mid /\
    events r =
      (events (saveCache_setup sample (suppliedPaths (Some ["./dist"])) disk0) ++
       ECreateTar folder cps cm :: mid ++
       EStoreCacheFile archivePath cacheStorePath ::
       EUnlinkFile archivePath :: unlink_report sample archivePath w6)%list /\
    world r = snd (unlinkFile sample archivePath w6).
Proof.
  intros r.
  assert (Hr : outcome r = Ret 1%Z) by (vm_compute; reflexivity).
  split; [exact Hr |].
  exact (saveCache_success_means_committed sample (Some ["./dist"]) "build-42"
           None disk0 Hr).
Defined.

Lemma saveCache_soft_failure_is_logged_witness :
  let r := saveCache sample (Some ["./dist"]) "build-42" None disk1 in
  outcome r = Ret (-1)%Z /\
  exists cm cps folder file w1 e,
    let archivePath := path_join sample [folder; file] in
    let t := saveCache_try sample "build-42" None cm cps folder archivePath w1 in
    setup_returns sample (suppliedPaths (Some ["./dist"])) disk1 cm cps folder
      file w1 /\
    outcome t = Throw e /\
    name e <> ValidationError_name /\
    events r =
      (events (saveCache_setup sample (suppliedPaths (Some ["./dist"])) disk1) ++
       events t ++
       (if (name e =? ReserveCacheError_name)%string
        then EInfo ("Failed to save: " ++ message e)
        else EWarning ("Failed to save: " ++ message e)) ::
       EUnlinkFile archivePath :: unlink_report sample archivePath (world t))%list /\
    world r = snd (unlinkFile sample archivePath (world t)).
Proof.
  intros r.
  assert (Hr : outcome r = Ret (-1)%Z) by (vm_compute; reflexivity).
  split; [exact Hr |].
  exact (saveCache_soft_failure_is_logged sample (Some ["./dist"]) "build-42"
           None disk1 Hr).
Defined.

Lemma saveCache_commits_after_archive_witness :
  let r := saveCache sample (Some ["./dist"]) "build-42" None disk0 in
  In (EStoreCacheFile "/tmp/a/cache.tgz" "/cache/build-42") (events r) /\
  List.length (filter is_store (events r)) = 1 /\
  exists cm cps folder file root w1 w5 mid rest,
    setup_returns sample (suppliedPaths (Some ["./dist"])) disk0 cm cps folder
      file w1 /\
    reaches_commit sample None cm cps folder "/tmp/a/cache.tgz" w1 root w5 /\
    "/tmp/a/cache.tgz" = path_join sample [folder; file] /\
    "/cache/build-42" = path_join sample [root; "build-42"] /\
    events r =
      (events (saveCache_setup sample (suppliedPaths (Some ["./dist"])) disk0) ++
       ECreateTar folder cps cm :: mid ++
       EStoreCacheFile "/tmp/a/cache.tgz" "/cache/build-42" :: rest)%list /\
    Forall (fun ev => is_store ev = false)
           (events (saveCache_setup sample (suppliedPaths (Some ["./dist"]))
                      disk0)) /\
    Forall (fun ev => is_store ev = false) mid /\
    Forall (fun ev => is_store ev = false) rest.
Proof.
  intros r.
  assert (Hin : In (EStoreCacheFile "/tmp/a/cache.tgz" "/cache/build-42")
                   (events r)) by (vm_compute; tauto).
  split; [exact Hin |].
  exact (saveCache_commits_after_archive sample (Some ["./dist"]) "build-42"
           None disk0 _ _ Hin).
Defined.

Lemma saveCache_archives_resolved_paths_witness :
  let r := saveCache sample (Some ["./dist"; "./nothing"]) "build-42" None
             disk0 in
  In (ECreateTar "/tmp/a" ["./dist"] Gzip) (events r) /\
  ["./dist"] <> [] /\
  (exists w0 w1,
     resolvePaths sample (suppliedPaths (Some ["./dist"; "./nothing"])) w0
     = (Ret ["./dist"], w1)) /\
  List.length (filter is_createTar (events r)) = 1.
Proof.
  intros r.
  assert (Hin : In (ECreateTar "/tmp/a" ["./dist"] Gzip) (events r))
    by (vm_compute; tauto).
  split; [exact Hin |].
  exact (saveCache_archives_resolved_paths sample
           (Some ["./dist"; "./nothing"]) "build-42" None disk0 _ _ _ Hin).
Defined.

Lemma saveCache_rethrows_validation_witness :
  let s := saveCache_setup strict ["./dist"] disk0 in
  let r := saveCache strict (Some ["./dist"]) "build-42" None disk0 in
  let t := saveCache_try strict "build-42" None Gzip ["./dist"] "/tmp/a"
             "/tmp/a/cache.tgz" (world s) in
  valid_key "build-42" = true /\
  s = mkRun (Ret (Gzip, ["./dist"], "/tmp/a", "/tmp/a/cache.tgz")) (world s)
        (events s) /\
  outcome t = Throw refused /\
  name refused = ValidationError_name /\
  outcome r = Throw refused /\
  (exists tail,
     events r = (events s ++ events t ++
                 EUnlinkFile "/tmp/a/cache.tgz" :: tail)%list /\
     (tail = [] \/ exists msg, tail = [EDebug msg])) /\
  Forall (fun ev => is_report ev = false) (events r).
Proof.
  intros s r t.
  assert (Hkey : valid_key "build-42" = true) by (vm_compute; reflexivity).
  assert (Hs : s = mkRun (Ret (Gzip, ["./dist"], "/tmp/a", "/tmp/a/cache.tgz"))
                     (world s) (events s)) by (vm_compute; reflexivity).
  assert (Ht : outcome t = Throw refused) by (vm_compute; reflexivity).
  split; [exact Hkey |]. split; [exact Hs |]. split; [exact Ht |].
  split; [reflexivity |].
  exact (saveCache_rethrows_validation strict "./dist" [] "build-42" None
           disk0 Gzip ["./dist"] "/tmp/a" "/tmp/a/cache.tgz" (world s)
           (events s) refused Hkey Hs Ht eq_refl).
Defined.

Lemma sort_desc_selects_first_newest_witness :
  let l := [fooOldest; fooNewest; fooTwin] in
  sort_desc l = [fooNewest; fooTwin; fooOldest] /\
  exists before after,
    l = (before ++ fooNewest :: after)%list /\
    (forall x, In x before ->
       (mtime (stats x) < mtime (stats fooNewest))%Z) /\
    (forall x, In x after ->
       (mtime (stats x) <= mtime (stats fooNewest))%Z).
Proof.
  intros l.
  assert (Hsort : sort_desc l = [fooNewest; fooTwin; fooOldest])
    by (vm_compute; reflexivity).
  split; [exact Hsort |].
  exact (proj2 (sort_desc_selects_first_newest l) fooNewest
           [fooTwin; fooOldest] Hsort).
Defined.

End MoreRuns.
